(** * Game-reminder notifications: eligibility windows, the claim ledger and
      the delivery pass

    A shallow embedding of the notification engine of the athletics site:

    - [server/sync-service.ts], [checkAndSendNotifications]: the window
      predicates over wall-clock time and the loops that claim, send and
      reconcile one reminder per (game, subscriber, kind);
    - [server/storage.ts], [DbStorage]: the [sent_notifications] table and
      its four methods [tryRecordNotificationAtomically],
      [markNotificationSending], [markNotificationSent] and
      [deleteNotificationRecord];
    - [server/firebase-admin.ts], [sendPushNotification] and
      [sendPushToMultiple];
    - around them: [hasNotificationBeenSent], [recordSentNotification],
      [upsertGamesBatch] and the photo operations of [DbStorage]; the time
      text and the link conversion of the schedule import; the photo sync;
      the quiet hours of the hourly check.

    Modelling conventions.

    - A JavaScript [Date] is its time value, an integer number of
      milliseconds ([Z]).  Local time is UTC shifted by a fixed offset [tz]
      (no daylight-saving change inside the interval looked at), and the
      Invalid Date that arises when a time value leaves the range of
      +-8.64e15 ms is not modelled.
    - [timeDiffHours] is a floating-point quotient in the source.  For an
      integer number [d] of milliseconds below 2^53 the quotient
      [d / 3600000] is correctly rounded and 21 and 27 are exact, so
      [d / 3600000 > 21] holds exactly when [d > 21 * 3600000] and
      [d / 3600000 <= 27] exactly when [d <= 27 * 3600000]; the model
      compares milliseconds.
    - Strings are sequences of 8-bit code units.
    - [game.date] is a [Date] (the column is a timestamp read in date
      mode), so the [parseISO] branch taken for a string is not modelled.
    - The offset [eastern] of America/New_York is fixed as well, and the
      hour that [isQuietHours] reads is the hour of that wall clock.
    - The id that the database generates for a new game or photo is given
      by a function [randomUuid] of the table; no property depends on it.
    - What fails while the photo sync handles a file is given per file
      ([PhotoSync.Fault]); the writes of the sync log do not fail.
    - [Db.storage] gives every ledger method one set of circumstances and
      one clock for a whole pass; [DbSession.storage] gives them call by
      call, lets every method be rejected, the loads included, and lets
      others write every table between two calls.
    - The clock is read once per storage call: [Date.now()], [new Date()]
      and the [defaultNow()] of an insert within one call are the same
      instant [now]. *)

From Stdlib Require Import ZArith List String Ascii Bool Lia PeanoNat.
From Stdlib Require Import DecimalString.
Import ListNotations.

Local Open Scope string_scope.
Local Open Scope Z_scope.

(* ------------------------------------------------------------------ *)
(** ** Dates *)

Module DateFns.

Definition msPerMinute : Z := 60000.
Definition msPerHour : Z := 3600000.
Definition msPerDay : Z := 86400000.

(** ECMAScript [Day(t)] = floor(t / msPerDay) and [TimeWithinDay]. *)
Definition Day (t : Z) : Z := t / msPerDay.
Definition TimeWithinDay (t : Z) : Z := t mod msPerDay.

Definition LocalTime (tz t : Z) : Z := t + tz.
Definition UTC (tz t : Z) : Z := t - tz.

(** [Date.prototype.setHours(hours, minutes, 0, 0)]: keeps the local
    calendar day of [t] and replaces the time within the day; fields
    outside their usual range carry over into the following days. *)
Definition setHours (tz t hours minutes : Z) : Z :=
  UTC tz (Day (LocalTime tz t) * msPerDay
          + (hours * msPerHour + minutes * msPerMinute)).

(** date-fns [startOfDay] is [setHours(0, 0, 0, 0)] on a copy. *)
Definition startOfDay (tz t : Z) : Z := setHours tz t 0 0.

Definition isSameDay (tz a b : Z) : bool :=
  startOfDay tz a =? startOfDay tz b.

(** date-fns [isAfter(date, dateToCompare)] is [date > dateToCompare],
    [isBefore] is [date < dateToCompare]: both strict. *)
Definition isAfter (date dateToCompare : Z) : bool := dateToCompare <? date.
Definition isBefore (date dateToCompare : Z) : bool := date <? dateToCompare.

End DateFns.
Import DateFns.

(* ------------------------------------------------------------------ *)
(** ** The free-text time of a game *)

Module TimeText.

Definition code (c : ascii) : nat := nat_of_ascii c.

(** [\d] *)
Definition isDigit (c : ascii) : bool :=
  (48 <=? code c)%nat && (code c <=? 57)%nat.

(** [\s] restricted to 8-bit code units: TAB, LF, VT, FF, CR, space and
    the no-break space. *)
Definition isSpace (c : ascii) : bool :=
  ((9 <=? code c)%nat && (code c <=? 13)%nat)
  || (code c =? 32)%nat || (code c =? 160)%nat.

(** A letter compared under the [i] flag. *)
Definition isLetter (upper : ascii) (c : ascii) : bool :=
  (code c =? code upper)%nat || (code c =? code upper + 32)%nat.

(** The longest prefix satisfying [p], and what follows it.  [\d+] and
    [\s*] are greedy, and in this pattern giving back a character never
    helps: the character given back is a digit (or a space) and the next
    pattern item is [:], a space or a letter (respectively a letter). *)
Fixpoint span (p : ascii -> bool) (s : list ascii)
  : list ascii * list ascii :=
  match s with
  | c :: rest =>
      if p c then let (taken, left) := span p rest in (c :: taken, left)
      else ([], s)
  | [] => ([], [])
  end.

(** [parseInt] on a string of decimal digits. *)
Definition parseInt (digits : list ascii) : Z :=
  fold_left (fun acc c => 10 * acc + (Z.of_nat (code c) - 48)) digits 0.

(** One attempt of [(\d+):(\d+)\s*(AM|PM)] at the head of [s]; the result
    is the two numbers and whether the meridiem group is PM. *)
Definition matchHere (s : list ascii) : option (Z * Z * bool) :=
  match span isDigit s with
  | ((_ :: _) as hh, colon :: afterColon) =>
      if (code colon =? 58)%nat then
        match span isDigit afterColon with
        | ((_ :: _) as mm, afterMinutes) =>
            match snd (span isSpace afterMinutes) with
            | a :: m :: _ =>
                let found := (parseInt hh, parseInt mm) in
                if isLetter "M" m then
                  if isLetter "A" a then Some (found, false)
                  else if isLetter "P" a then Some (found, true)
                  else None
                else None
            | _ => None
            end
        | _ => None
        end
      else None
  | _ => None
  end.

(** [String.prototype.match] with a non-global pattern: the leftmost
    position at which the pattern matches. *)
Fixpoint search (s : list ascii) : option (Z * Z * bool) :=
  match matchHere s with
  | Some found => Some found
  | None => match s with
            | _ :: rest => search rest
            | [] => None
            end
  end.

Definition timeMatch (time : string) : option (Z * Z * bool) :=
  search (list_ascii_of_string time).

End TimeText.

(* ------------------------------------------------------------------ *)
(** ** Games and the two notification windows *)

Record Game := {
  game_id : string;
  sport : string;
  opponent : string;
  date : Z;
  time : string;
  location : string;
  isHome : string
}.

Section Windows.

Variable tz : Z.

(** Lines 319-333 of the pass (and 505-516 for the push loop): the game's
    date with the parsed time of day put in; a time that does not match
    leaves the date as it is. *)
Definition gameDateTime (game : Game) : Z :=
  match TimeText.timeMatch (time game) with
  | Some (hours, minutes, isPM) =>
      let hours := if isPM && negb (hours =? 12) then hours + 12 else hours in
      let hours := if negb isPM && (hours =? 12) then 0 else hours in
      setHours tz (date game) hours minutes
  | None => date game
  end.

Definition morningStart (now : Z) : Z := setHours tz now 8 0.
Definition morningEnd (now : Z) : Z := setHours tz now 9 0.

(** [timeDiffHours > 21 && timeDiffHours <= 27], in milliseconds. *)
Definition needs24HourNotification (now : Z) (game : Game) : bool :=
  let timeDiff := gameDateTime game - now in
  (21 * msPerHour <? timeDiff) && (timeDiff <=? 27 * msPerHour).

Definition needsMorningNotification (now : Z) (game : Game) : bool :=
  isSameDay tz (gameDateTime game) now
  && isAfter now (morningStart now)
  && isBefore now (morningEnd now).

End Windows.

(* ------------------------------------------------------------------ *)
(** ** The [sent_notifications] table *)

Inductive Status := Pending | Sending | Sent.

Definition Status_eqb (a b : Status) : bool :=
  match a, b with
  | Pending, Pending | Sending, Sending | Sent, Sent => true
  | _, _ => false
  end.

(** A row of [sent_notifications] ([shared/schema.ts]); [sn_id] is the
    generated primary key. *)
Record SentNotification := {
  sn_id : nat;
  gameId : string;
  subscriptionId : string;
  notificationType : string;
  status : Status;
  createdAt : Z;
  sentAt : option Z
}.

(** The table with the generator of its primary keys. *)
Record Table := {
  rows : list SentNotification;
  nextId : nat
}.

(** What a storage method or a capability hands back to an [await]: a
    value, or a rejection (a thrown error). *)
Inductive Result (A : Type) : Type :=
| Ok (a : A)
| Threw.
Arguments Ok {A} a.
Arguments Threw {A}.

Module Sql.

(** The where-clause over the three columns of [unique_notification]. *)
Definition sameKey (g s t : string) (r : SentNotification) : bool :=
  (gameId r =? g)%string && (subscriptionId r =? s)%string
  && (notificationType r =? t)%string.

Definition selectWhere (p : SentNotification -> bool) (tb : Table)
  : list SentNotification :=
  filter p (rows tb).

(** [insert ... values { gameId, subscriptionId, notificationType,
    status: 'pending' }]: [created_at] defaults to now, [sent_at] to
    null; [None] is the violation of [unique_notification] (error code
    23505). *)
Definition insertPending (now : Z) (g s t : string) (tb : Table)
  : option Table :=
  if existsb (sameKey g s t) (rows tb) then None
  else Some {| rows := rows tb ++ [ {| sn_id := nextId tb; gameId := g;
                                       subscriptionId := s;
                                       notificationType := t;
                                       status := Pending;
                                       createdAt := now;
                                       sentAt := None |} ];
               nextId := S (nextId tb) |}.

(** [update ... set ... where ... returning]: the rows as updated, and the
    table. *)
Definition updateWhere (p : SentNotification -> bool)
           (set : SentNotification -> SentNotification) (tb : Table)
  : list SentNotification * Table :=
  (map set (filter p (rows tb)),
   {| rows := map (fun r => if p r then set r else r) (rows tb);
      nextId := nextId tb |}).

(** [delete ... where ... returning]. *)
Definition deleteWhere (p : SentNotification -> bool) (tb : Table)
  : list SentNotification * Table :=
  (filter p (rows tb),
   {| rows := filter (fun r => negb (p r)) (rows tb);
      nextId := nextId tb |}).

End Sql.

(** The circumstances of one call of a storage method.  The queries of a
    call are numbered from 0 in the order the method awaits them:
    [concurrent n] is what the other workers have committed to the table
    between the previous query and query [n], and [rejects n] says that
    query [n] fails with an error that is not a constraint violation. *)
Record Conditions := {
  rejects : nat -> bool;
  concurrent : nat -> Table -> Table
}.

(** No failure and nobody else at work. *)
Definition alone : Conditions :=
  {| rejects := fun _ => false; concurrent := fun _ tb => tb |}.

Module DbStorage.
Import Sql.

Definition fiveMinutes : Z := 5 * 60 * 1000.

Definition withStatusAndCreatedAt (st : Status) (now : Z)
           (r : SentNotification) : SentNotification :=
  {| sn_id := sn_id r; gameId := gameId r;
     subscriptionId := subscriptionId r;
     notificationType := notificationType r;
     status := st; createdAt := now; sentAt := sentAt r |}.

Definition withCreatedAt (now : Z) (r : SentNotification)
  : SentNotification :=
  withStatusAndCreatedAt (status r) now r.

Definition withSent (now : Z) (r : SentNotification) : SentNotification :=
  {| sn_id := sn_id r; gameId := gameId r;
     subscriptionId := subscriptionId r;
     notificationType := notificationType r;
     status := Sent; createdAt := createdAt r; sentAt := Some now |}.

(** The where-clause of both conditional updates of the stale branches:
    the row read, still in the status read, still stale. *)
Definition staleGuard (record : SentNotification) (fiveMinutesAgo : Z)
           (r : SentNotification) : bool :=
  (sn_id r =? sn_id record)%nat
  && Status_eqb (status r) (status record)
  && (createdAt r <? fiveMinutesAgo).

(** The conditional update of a stale record (query 2 of the method) and
    the method's answer: whether [claimResult] is non-empty. *)
Definition reclaim (c : Conditions) (now : Z) (record : SentNotification)
           (set : SentNotification -> SentNotification) (tb : Table)
  : Result bool * Table :=
  let fiveMinutesAgo := now - fiveMinutes in
  let tb := concurrent c 2 tb in
  if rejects c 2 then (Threw, tb)
  else
    let (claimResult, tb') :=
      updateWhere (staleGuard record fiveMinutesAgo) set tb in
    (Ok (0 <? List.length claimResult)%nat, tb').

Definition tryRecordNotificationAtomically (c : Conditions) (now : Z)
           (g s t : string) (tb : Table) : Result bool * Table :=
  let tb := concurrent c 0 tb in
  if rejects c 0 then (Threw, tb)
  else
    match insertPending now g s t tb with
    | Some tb' => (Ok true, tb')
    | None =>
        (* error.code === '23505' *)
        let tb := concurrent c 1 tb in
        if rejects c 1 then (Threw, tb)
        else
          match selectWhere (sameKey g s t) tb with
          | record :: _ =>
              let fiveMinutesAgo := now - fiveMinutes in
              match status record with
              | Sent => (Ok false, tb)
              | Sending =>
                  if createdAt record <? fiveMinutesAgo
                  then reclaim c now record
                               (withStatusAndCreatedAt Pending now) tb
                  else (Ok false, tb)
              | Pending =>
                  if createdAt record <? fiveMinutesAgo
                  then reclaim c now record (withCreatedAt now) tb
                  else (Ok false, tb)
              end
          | [] => (Ok false, tb)
          end
    end.

Definition markNotificationSending (c : Conditions) (now : Z)
           (g s t : string) (tb : Table) : Result bool * Table :=
  let tb := concurrent c 0 tb in
  if rejects c 0 then (Threw, tb)
  else
    let (result, tb') :=
      updateWhere (fun r => sameKey g s t r && Status_eqb (status r) Pending)
                  (withStatusAndCreatedAt Sending now) tb in
    (Ok (0 <? List.length result)%nat, tb').

Definition markNotificationSent (c : Conditions) (now : Z)
           (g s t : string) (tb : Table) : Result bool * Table :=
  let tb := concurrent c 0 tb in
  if rejects c 0 then (Threw, tb)
  else
    let (result, tb') := updateWhere (sameKey g s t) (withSent now) tb in
    (Ok (0 <? List.length result)%nat, tb').

Definition deleteNotificationRecord (c : Conditions)
           (g s t : string) (tb : Table) : Result bool * Table :=
  let tb := concurrent c 0 tb in
  if rejects c 0 then (Threw, tb)
  else
    let (result, tb') := deleteWhere (sameKey g s t) tb in
    (Ok (0 <? List.length result)%nat, tb').

End DbStorage.

(* ------------------------------------------------------------------ *)
(** ** Subscribers, the storage interface and the capabilities *)

Record Subscription := {
  sub_id : string;
  email : string;
  sports : list string;
  unsubscribeToken : string
}.

Record PushSubscription := {
  push_id : string;
  endpoint : string;
  fcmToken : string;
  push_sports : list string
}.

(** [Array.prototype.includes] on an array of strings. *)
Definition includes (l : list string) (x : string) : bool :=
  existsb (fun y => (y =? x)%string) l.

(** The methods of [storage] that the pass calls, over a store [S]. *)
Record IStorage (S : Type) := {
  getAllGames : S -> Result (list Game) * S;
  getAllSubscriptions : S -> Result (list Subscription) * S;
  getAllPushSubscriptions : S -> Result (list PushSubscription) * S;
  tryRecordNotificationAtomically :
    string -> string -> string -> S -> Result bool * S;
  markNotificationSending :
    string -> string -> string -> S -> Result bool * S;
  markNotificationSent :
    string -> string -> string -> S -> Result bool * S;
  deleteNotificationRecord :
    string -> string -> string -> S -> Result bool * S;
  deletePushSubscriptionByToken : string -> S -> Result bool * S
}.
Arguments getAllGames {S}.
Arguments getAllSubscriptions {S}.
Arguments getAllPushSubscriptions {S}.
Arguments tryRecordNotificationAtomically {S}.
Arguments markNotificationSending {S}.
Arguments markNotificationSent {S}.
Arguments deleteNotificationRecord {S}.
Arguments deletePushSubscriptionByToken {S}.

(** [emailService]: each function resolves to a boolean or throws. *)
Record EmailService := {
  send24HourReminder : string -> Game -> string -> Result bool;
  sendGameDayReminder : string -> Game -> string -> Result bool
}.

(** What [getFirebaseAdmin().messaging().send(...)] does with a message:
    it is accepted, or an error is thrown whose [code] may be absent. *)
Inductive MessagingOutcome :=
| Accepted
| Rejected (code : option string).

Module FirebaseAdmin.

Definition isCode (expected : string) (code : option string) : bool :=
  match code with
  | Some c => (c =? expected)%string
  | None => false
  end.

(** [sendPushNotification]: the two token errors are logged apart from
    the others, and every error gives [false]. *)
Definition sendPushNotification
           (messaging : string -> string -> string -> MessagingOutcome)
           (token title body : string) : bool :=
  match messaging token title body with
  | Accepted => true
  | Rejected code =>
      if isCode "messaging/registration-token-not-registered" code
         || isCode "messaging/invalid-registration-token" code
      then false
      else false
  end.

End FirebaseAdmin.

(* ------------------------------------------------------------------ *)
(** ** The result of a pass *)

(** The entries of [errors], one constructor per message of the source. *)
Inductive ErrorEntry :=
| FailedToRecord (email : string)
| FailedToMarkSending (email : string)
| EmailSendThrew (email : string)
| EmailDeliveryFailed (email : string)
| MarkSentFailed (email : string)
| PushNotificationError
| SystemError.

Record NotificationCheck := {
  gamesIn24Hours : nat;
  gamesMorningOf : nat;
  emailsSent : nat;
  skippedDuplicates : nat;
  errors : list ErrorEntry
}.

(** The calls that reach the ledger, the target registry and the delivery
    capabilities, in the order they are made. *)
Inductive Call :=
| CallTryRecord (g s t : string)
| CallMarkSending (g s t : string)
| CallMarkSent (g s t : string)
| CallDeleteRecord (g s t : string)
| CallSendEmail (kind email g : string)
| CallSendPush (token title body : string)
| CallDeletePushSubscription (token : string).

(** A pass under way: [result], the store, and the calls made so far. *)
Record Run (S : Type) := {
  result : NotificationCheck;
  store : S;
  calls : list Call
}.
Arguments result {S}.
Arguments store {S}.
Arguments calls {S}.

(** Where control goes after a loop body: on to the next iteration
    ([continue] or the end of the body), or out with a thrown error. *)
Inductive Flow (S : Type) :=
| Next (r : Run S)
| Raised (r : Run S).
Arguments Next {S}.
Arguments Raised {S}.

Section RunUpdates.
Context {St : Type}.

Definition onResult (f : NotificationCheck -> NotificationCheck)
           (r : Run St) : Run St :=
  {| result := f (result r); store := store r; calls := calls r |}.

Definition pushError (e : ErrorEntry) : Run St -> Run St :=
  onResult (fun n =>
    {| gamesIn24Hours := gamesIn24Hours n;
       gamesMorningOf := gamesMorningOf n;
       emailsSent := emailsSent n;
       skippedDuplicates := skippedDuplicates n;
       errors := errors n ++ [e] |}).

Definition countEmailSent : Run St -> Run St :=
  onResult (fun n =>
    {| gamesIn24Hours := gamesIn24Hours n;
       gamesMorningOf := gamesMorningOf n;
       emailsSent := S (emailsSent n);
       skippedDuplicates := skippedDuplicates n;
       errors := errors n |}).

Definition countSkippedDuplicate : Run St -> Run St :=
  onResult (fun n =>
    {| gamesIn24Hours := gamesIn24Hours n;
       gamesMorningOf := gamesMorningOf n;
       emailsSent := emailsSent n;
       skippedDuplicates := S (skippedDuplicates n);
       errors := errors n |}).

Definition countGameIn24Hours : Run St -> Run St :=
  onResult (fun n =>
    {| gamesIn24Hours := S (gamesIn24Hours n);
       gamesMorningOf := gamesMorningOf n;
       emailsSent := emailsSent n;
       skippedDuplicates := skippedDuplicates n;
       errors := errors n |}).

Definition countGameMorningOf : Run St -> Run St :=
  onResult (fun n =>
    {| gamesIn24Hours := gamesIn24Hours n;
       gamesMorningOf := S (gamesMorningOf n);
       emailsSent := emailsSent n;
       skippedDuplicates := skippedDuplicates n;
       errors := errors n |}).

(** An awaited storage call: the store after it and the call noted. *)
Definition called (c : Call) (st : St) (r : Run St) : Run St :=
  {| result := result r; store := st; calls := calls r ++ [c] |}.

Definition noted (c : Call) (r : Run St) : Run St := called c (store r) r.

Definition withStore (st : St) (r : Run St) : Run St :=
  {| result := result r; store := st; calls := calls r |}.

(** A [for ... of] loop whose body may throw. *)
Fixpoint forEach {A : Type} (body : A -> Run St -> Flow St) (l : list A)
         (r : Run St) : Flow St :=
  match l with
  | [] => Next r
  | x :: rest =>
      match body x r with
      | Next r' => forEach body rest r'
      | Raised r' => Raised r'
      end
  end.

End RunUpdates.

(* ------------------------------------------------------------------ *)
(** ** [checkAndSendNotifications] *)

Section Pass.

Context {St : Type}.
Variable storage : IStorage St.
Variable emailService : EmailService.
Variable messaging : string -> string -> string -> MessagingOutcome.
Variable tz : Z.
(** [const now = new Date()] *)
Variable now : Z.

(** The body of the two subscriber loops of the email part (lines 359-425
    for ['24hour'], 430-496 for ['gameday']), which differ in the kind
    and in the function of [emailService] only. *)
Definition notifyByEmail (kind : string)
           (send : string -> Game -> string -> Result bool)
           (game : Game) (subscriber : Subscription) (r : Run St)
  : Flow St :=
  let g := game_id game in
  let s := sub_id subscriber in
  let (shouldSend, st) :=
    tryRecordNotificationAtomically storage g s kind (store r) in
  let r := called (CallTryRecord g s kind) st r in
  match shouldSend with
  | Threw => Next (pushError (FailedToRecord (email subscriber)) r)
  | Ok false => Next (countSkippedDuplicate r)
  | Ok true =>
      let (marked, st) :=
        markNotificationSending storage g s kind (store r) in
      let r := called (CallMarkSending g s kind) st r in
      match marked with
      | Threw => Next (pushError (FailedToMarkSending (email subscriber)) r)
      | Ok _ =>
          let r := noted (CallSendEmail kind (email subscriber) g) r in
          match send (email subscriber) game (unsubscribeToken subscriber)
          with
          | Threw =>
              let (deleted, st) :=
                deleteNotificationRecord storage g s kind (store r) in
              let r := called (CallDeleteRecord g s kind) st r in
              match deleted with
              | Threw => Raised r
              | Ok _ => Next (pushError (EmailSendThrew (email subscriber)) r)
              end
          | Ok false =>
              let (deleted, st) :=
                deleteNotificationRecord storage g s kind (store r) in
              let r := called (CallDeleteRecord g s kind) st r in
              match deleted with
              | Threw => Raised r
              | Ok _ =>
                  Next (pushError (EmailDeliveryFailed (email subscriber)) r)
              end
          | Ok true =>
              let (sent, st) :=
                markNotificationSent storage g s kind (store r) in
              let r := called (CallMarkSent g s kind) st r in
              let r := match sent with
                       | Threw =>
                           pushError (MarkSentFailed (email subscriber)) r
                       | Ok _ => r
                       end in
              Next (countEmailSent r)
          end
      end
  end.

(** The body of the game loop of the email part (lines 318-498). *)
Definition emailGame (subscriptions : list Subscription) (game : Game)
           (r : Run St) : Flow St :=
  let needs24 := needs24HourNotification tz now game in
  let needsMorning := needsMorningNotification tz now game in
  if negb needs24 && negb needsMorning then Next r
  else
    let interestedSubscribers :=
      filter (fun sub => includes (sports sub) (sport game)) subscriptions in
    let after24 :=
      if needs24
      then forEach (notifyByEmail "24hour" (send24HourReminder emailService)
                                  game)
                   interestedSubscribers (countGameIn24Hours r)
      else Next r in
    match after24 with
    | Raised r => Raised r
    | Next r =>
        if needsMorning
        then forEach (notifyByEmail "gameday"
                                    (sendGameDayReminder emailService) game)
                     interestedSubscribers (countGameMorningOf r)
        else Next r
    end.

(** The body of the subscriber loop of the push part (lines 526-559). *)
Definition notifyByPush (needs24Hour : bool) (game : Game)
           (pushSub : PushSubscription) (r : Run St) : Flow St :=
  let g := game_id game in
  let s := push_id pushSub in
  let notifType := if needs24Hour then "24hour-push" else "gameday-push" in
  let (shouldSend, st) :=
    tryRecordNotificationAtomically storage g s notifType (store r) in
  let r := called (CallTryRecord g s notifType) st r in
  match shouldSend with
  | Threw => Next r
  | Ok false => Next r
  | Ok true =>
      let locationText :=
        if (isHome game =? "home")%string
        then "Home - " ++ location game
        else "Away - " ++ location game in
      let title :=
        if needs24Hour
        then "Game Tomorrow: " ++ sport game
        else "Game Today: " ++ sport game in
      let body :=
        "Lakers vs " ++ opponent game ++ " at " ++ time game ++ " | "
        ++ locationText in
      let r := noted (CallSendPush (fcmToken pushSub) title body) r in
      if FirebaseAdmin.sendPushNotification messaging (fcmToken pushSub)
                                            title body
      then
        let (sent, st) :=
          markNotificationSent storage g s notifType (store r) in
        let r := called (CallMarkSent g s notifType) st r in
        match sent with
        | Threw => Raised r
        | Ok _ => Next (countEmailSent r)
        end
      else
        let (deleted, st) :=
          deleteNotificationRecord storage g s notifType (store r) in
        let r := called (CallDeleteRecord g s notifType) st r in
        match deleted with
        | Threw => Raised r
        | Ok _ =>
            let (removed, st) :=
              deletePushSubscriptionByToken storage (fcmToken pushSub)
                                            (store r) in
            let r := called (CallDeletePushSubscription (fcmToken pushSub))
                            st r in
            match removed with
            | Threw => Raised r
            | Ok _ => Next r
            end
        end
  end.

(** The body of the game loop of the push part (lines 504-560). *)
Definition pushGame (pushSubscriptions : list PushSubscription)
           (game : Game) (r : Run St) : Flow St :=
  let needs24Hour := needs24HourNotification tz now game in
  let needsMorning := needsMorningNotification tz now game in
  if negb needs24Hour && negb needsMorning then Next r
  else
    let matchingPushSubs :=
      filter (fun sub => includes (push_sports sub) (sport game))
             pushSubscriptions in
    forEach (notifyByPush needs24Hour game) matchingPushSubs r.

(** The inner [try] of lines 501-565. *)
Definition pushPart (games : list Game) (r : Run St) : Run St :=
  match getAllPushSubscriptions storage (store r) with
  | (Threw, st) => pushError PushNotificationError (withStore st r)
  | (Ok pushSubscriptions, st) =>
      let r := withStore st r in
      if (0 <? List.length pushSubscriptions)%nat
      then
        match forEach (pushGame pushSubscriptions) games r with
        | Raised r => pushError PushNotificationError r
        | Next r => r
        end
      else r
  end.

Definition emptyCheck : NotificationCheck :=
  {| gamesIn24Hours := 0; gamesMorningOf := 0; emailsSent := 0;
     skippedDuplicates := 0; errors := [] |}.

Definition checkAndSendNotifications (st : St) : Run St :=
  let r := {| result := emptyCheck; store := st; calls := [] |} in
  match getAllGames storage (store r) with
  | (Threw, st) => pushError SystemError (withStore st r)
  | (Ok games, st) =>
      let r := withStore st r in
      match getAllSubscriptions storage (store r) with
      | (Threw, st) => pushError SystemError (withStore st r)
      | (Ok subscriptions, st) =>
          let r := withStore st r in
          if (List.length subscriptions =? 0)%nat
          then r  (* 'No subscriptions found': return result *)
          else
            match forEach (emailGame subscriptions) games r with
            | Raised r => pushError SystemError r
            | Next r => pushPart games r
            end
      end
  end.

End Pass.

(* ------------------------------------------------------------------ *)
(** ** [DbStorage] as the [storage] of the pass *)

Record Database := {
  games : list Game;
  subscriptions : list Subscription;
  pushSubscriptions : list PushSubscription;
  sentNotifications : Table
}.

Inductive Method := TryRecord | MarkSending | MarkSent | DeleteRecord.

Module DbPush.

Definition withPushSubscriptions (d : Database)
           (l : list PushSubscription) : Database :=
  {| games := games d; subscriptions := subscriptions d;
     pushSubscriptions := l; sentNotifications := sentNotifications d |}.

(** [delete from push_subscriptions where fcm_token = ... returning]. *)
Definition deletePushSubscriptionByToken (token : string) (d : Database)
  : Result bool * Database :=
  let result :=
    filter (fun p => (fcmToken p =? token)%string) (pushSubscriptions d) in
  (Ok (0 <? List.length result)%nat,
   withPushSubscriptions d
     (filter (fun p => negb (fcmToken p =? token)%string)
             (pushSubscriptions d))).

End DbPush.

Module Db.

Definition withTable (d : Database) (tb : Table) : Database :=
  {| games := games d; subscriptions := subscriptions d;
     pushSubscriptions := pushSubscriptions d; sentNotifications := tb |}.

Definition onTable (f : Table -> Result bool * Table) (d : Database)
  : Result bool * Database :=
  let (answer, tb) := f (sentNotifications d) in (answer, withTable d tb).

(** The storage object, each ledger method called under its own
    circumstances and clock reading, the same at every call of a pass;
    [DbSession.storage] below lets them change from call to call. *)
Definition storage (conditions : Method -> Conditions) (clock : Method -> Z)
  : IStorage Database :=
  {| getAllGames := fun d => (Ok (games d), d);
     getAllSubscriptions := fun d => (Ok (subscriptions d), d);
     getAllPushSubscriptions := fun d => (Ok (pushSubscriptions d), d);
     tryRecordNotificationAtomically := fun g s t =>
       onTable (DbStorage.tryRecordNotificationAtomically
                  (conditions TryRecord) (clock TryRecord) g s t);
     markNotificationSending := fun g s t =>
       onTable (DbStorage.markNotificationSending
                  (conditions MarkSending) (clock MarkSending) g s t);
     markNotificationSent := fun g s t =>
       onTable (DbStorage.markNotificationSent
                  (conditions MarkSent) (clock MarkSent) g s t);
     deleteNotificationRecord := fun g s t =>
       onTable (DbStorage.deleteNotificationRecord
                  (conditions DeleteRecord) g s t);
     deletePushSubscriptionByToken := DbPush.deletePushSubscriptionByToken |}.

(** One worker, no failure, every call at the same clock reading. *)
Definition quiet (now : Z) : IStorage Database :=
  storage (fun _ => alone) (fun _ => now).

End Db.

(* ------------------------------------------------------------------ *)
(** ** Vocabulary of the statements *)

(** The order of the happy path: pending, sending, sent. *)
Definition rank (st : Status) : nat :=
  match st with
  | Pending => 0
  | Sending => 1
  | Sent => 2
  end.

(** One call of a ledger method of [DbStorage]. *)
Definition perform (m : Method) (c : Conditions) (now : Z) (g s t : string)
           (tb : Table) : Result bool * Table :=
  match m with
  | TryRecord => DbStorage.tryRecordNotificationAtomically c now g s t tb
  | MarkSending => DbStorage.markNotificationSending c now g s t tb
  | MarkSent => DbStorage.markNotificationSent c now g s t tb
  | DeleteRecord => DbStorage.deleteNotificationRecord c g s t tb
  end.

(** What a row [r'] found in the table after a call of method [m] on key
    [(g, s, t)] at clock [now] can be, relative to the table [tb] before
    the call: a row of [tb] as it was; the pending row just inserted; or
    the successor of a row of [tb], with the same id and key, whose status
    did not move backward, unless it is a stale [Sending] row that
    [tryRecordNotificationAtomically] has reset. *)
Definition accountedFor (now : Z) (g s t : string) (tb : Table)
           (m : Method) (r' : SentNotification) : Prop :=
  In r' (rows tb)
  \/ (m = TryRecord
      /\ existsb (Sql.sameKey g s t) (rows tb) = false
      /\ Sql.sameKey g s t r' = true
      /\ sn_id r' = nextId tb /\ status r' = Pending /\ createdAt r' = now)
  \/ (exists r,
         In r (rows tb)
         /\ sn_id r' = sn_id r /\ gameId r' = gameId r
         /\ subscriptionId r' = subscriptionId r
         /\ notificationType r' = notificationType r
         /\ ((rank (status r) <= rank (status r'))%nat
             \/ (m = TryRecord
                 /\ status r = Sending /\ status r' = Pending
                 /\ createdAt r < now - DbStorage.fiveMinutes
                 /\ createdAt r' = now))).

(** Primary keys are unique and come from the generator. *)
Definition wellKeyed (tb : Table) : Prop :=
  NoDup (map sn_id (rows tb))
  /\ Forall (fun r => (sn_id r < nextId tb)%nat) (rows tb).

(** The three calls that open every email delivery. *)
Definition emailOpening (kind : string) (game : Game)
           (subscriber : Subscription) : list Call :=
  [CallTryRecord (game_id game) (sub_id subscriber) kind;
   CallMarkSending (game_id game) (sub_id subscriber) kind;
   CallSendEmail kind (email subscriber) (game_id game)].

(** The order of the calls around a delivery: an email is sent right
    after [markNotificationSending], itself right after the claim, both
    for the email's game and kind; a push is sent right after a claim. *)
Definition sendsInOrder (l : list Call) : Prop :=
  forall pre c post,
    l = (pre ++ c :: post)%list ->
    match c with
    | CallSendEmail kind _ g =>
        exists pre' s,
          pre = (pre' ++ [CallTryRecord g s kind;
                          CallMarkSending g s kind])%list
    | CallSendPush _ _ _ =>
        exists pre' g s t, pre = (pre' ++ [CallTryRecord g s t])%list
    | _ => True
    end.

(** The run a loop body leaves behind, however it ends. *)
Definition runOf {St : Type} (f : Flow St) : Run St :=
  match f with
  | Next r => r
  | Raised r => r
  end.

Definition isMarkSending (c : Call) : bool :=
  match c with
  | CallMarkSending _ _ _ => true
  | _ => false
  end.

Definition isSendEmail (c : Call) : bool :=
  match c with
  | CallSendEmail _ _ _ => true
  | _ => false
  end.

Definition isSendPush (c : Call) : bool :=
  match c with
  | CallSendPush _ _ _ => true
  | _ => false
  end.

(** A call that is not a delivery. *)
Definition isLedgerCall (c : Call) : bool :=
  negb (isSendEmail c) && negb (isSendPush c).

(** A run [r'] that continues [r] with calls in order. *)
Definition extendsInOrder {St : Type} (r r' : Run St) : Prop :=
  exists added,
    calls r' = (calls r ++ added)%list /\ sendsInOrder added.

(* ------------------------------------------------------------------ *)
(** ** Sample data *)

Module Sample.

(** A football game on day 10 of the epoch at 7:00 PM. *)
Definition football : Game :=
  {| game_id := "game-1"; sport := "Football"; opponent := "Essex";
     date := 10 * msPerDay; time := "7:00 PM";
     location := "Laker Field"; isHome := "home" |}.

Definition kickoff : Z := 10 * msPerDay + 19 * msPerHour.

(** 26 hours before kickoff: 5 PM on day 9. *)
Definition dayBefore : Z := kickoff - 26 * msPerHour.

(** 8:30 AM on the day of the game. *)
Definition gameMorning : Z := 10 * msPerDay + 8 * msPerHour + 30 * msPerMinute.

Definition alice : Subscription :=
  {| sub_id := "sub-1"; email := "alice@example.org";
     sports := ["Football"]; unsubscribeToken := "u-1" |}.

(** A subscriber with no interest in football. *)
Definition bob : Subscription :=
  {| sub_id := "sub-2"; email := "bob@example.org";
     sports := ["Volleyball"]; unsubscribeToken := "u-2" |}.

Definition phone : PushSubscription :=
  {| push_id := "push-1"; endpoint := "https://push.example/1";
     fcmToken := "token-1"; push_sports := ["Football"] |}.

Definition emptyTable : Table := {| rows := []; nextId := 0 |}.

Definition database (subs : list Subscription)
           (pushSubs : list PushSubscription) : Database :=
  {| games := [football]; subscriptions := subs;
     pushSubscriptions := pushSubs; sentNotifications := emptyTable |}.

Definition emailWorks : EmailService :=
  {| send24HourReminder := fun _ _ _ => Ok true;
     sendGameDayReminder := fun _ _ _ => Ok true |}.

Definition emailReturnsFalse : EmailService :=
  {| send24HourReminder := fun _ _ _ => Ok false;
     sendGameDayReminder := fun _ _ _ => Ok false |}.

Definition emailThrows : EmailService :=
  {| send24HourReminder := fun _ _ _ => Threw;
     sendGameDayReminder := fun _ _ _ => Threw |}.

Definition pushWorks (token title body : string) : MessagingOutcome :=
  Accepted.

(** The token is no longer registered. *)
Definition pushTokenGone (token title body : string) : MessagingOutcome :=
  Rejected (Some "messaging/registration-token-not-registered").

(** A failure that says nothing about the token. *)
Definition pushUnavailable (token title body : string) : MessagingOutcome :=
  Rejected (Some "messaging/server-unavailable").

Definition sixMinutes : Z := 6 * msPerMinute.

(** A claim of alice's 24-hour reminder that a worker marked [Sending]
    at clock 0 and never finished. *)
Definition stuckSending : SentNotification :=
  {| sn_id := 0; gameId := "game-1"; subscriptionId := "sub-1";
     notificationType := "24hour"; status := Sending; createdAt := 0;
     sentAt := None |}.

Definition stuckTable : Table := {| rows := [stuckSending]; nextId := 1 |}.



Definition start (d : Database) : Run Database :=
  {| result := emptyCheck; store := d; calls := [] |}.

End Sample.

(* ------------------------------------------------------------------ *)
(** ** The pass as a sequence of attempts *)

(** What the loops of a pass do, one after the other: count a game into a
    window, or run the body of a subscriber loop. *)
Inductive Attempt :=
| Count24Hours
| CountMorningOf
| Email24Hour (game : Game) (subscriber : Subscription)
| EmailGameDay (game : Game) (subscriber : Subscription)
| Push (needs24Hour : bool) (game : Game) (pushSub : PushSubscription).

Section Attempts.

Context {St : Type}.
Variable storage : IStorage St.
Variable emailService : EmailService.
Variable messaging : string -> string -> string -> MessagingOutcome.
Variables tz now : Z.

Definition runAttempt (a : Attempt) (r : Run St) : Flow St :=
  match a with
  | Count24Hours => Next (countGameIn24Hours r)
  | CountMorningOf => Next (countGameMorningOf r)
  | Email24Hour game subscriber =>
      notifyByEmail storage "24hour" (send24HourReminder emailService)
                    game subscriber r
  | EmailGameDay game subscriber =>
      notifyByEmail storage "gameday" (sendGameDayReminder emailService)
                    game subscriber r
  | Push needs24Hour game pushSub =>
      notifyByPush storage messaging needs24Hour game pushSub r
  end.

(** The attempts of the email part for one game, in order. *)
Definition emailAttempts (subscriptions : list Subscription) (game : Game)
  : list Attempt :=
  let interestedSubscribers :=
    filter (fun sub => includes (sports sub) (sport game)) subscriptions in
  ((if needs24HourNotification tz now game
    then Count24Hours :: map (Email24Hour game) interestedSubscribers
    else [])
   ++ (if needsMorningNotification tz now game
       then CountMorningOf :: map (EmailGameDay game) interestedSubscribers
       else []))%list.

(** The attempts of the push part for one game. *)
Definition pushAttempts (pushSubscriptions : list PushSubscription)
           (game : Game) : list Attempt :=
  if needs24HourNotification tz now game
     || needsMorningNotification tz now game
  then map (Push (needs24HourNotification tz now game) game)
           (filter (fun sub => includes (push_sports sub) (sport game))
                   pushSubscriptions)
  else [].

Definition emailPlan (subscriptions : list Subscription) (games : list Game)
  : list Attempt :=
  flat_map (emailAttempts subscriptions) games.

Definition pushPlan (pushSubscriptions : list PushSubscription)
           (games : list Game) : list Attempt :=
  flat_map (pushAttempts pushSubscriptions) games.

End Attempts.

(** The ledger key an attempt claims. *)
Definition attemptKey (a : Attempt) : option (string * string * string) :=
  match a with
  | Count24Hours | CountMorningOf => None
  | Email24Hour game subscriber =>
      Some (game_id game, sub_id subscriber, "24hour")
  | EmailGameDay game subscriber =>
      Some (game_id game, sub_id subscriber, "gameday")
  | Push needs24Hour game pushSub =>
      Some (game_id game, push_id pushSub,
            if needs24Hour then "24hour-push" else "gameday-push")
  end.

(* ------------------------------------------------------------------ *)
(** ** Records of a key *)

(** The record that [tryRecordNotificationAtomically] reads for a key:
    [existing[0]]. *)
Definition firstOfKey (g s t : string) (tb : Table)
  : option SentNotification :=
  hd_error (Sql.selectWhere (Sql.sameKey g s t) tb).

(** The key has been delivered: its record is a [Sent] tombstone. *)
Definition delivered (g s t : string) (tb : Table) : Prop :=
  exists record, firstOfKey g s t tb = Some record /\ status record = Sent.

(** At clock [now] a record is out of reach of a claim: it is [Sent], or it
    was created no more than five minutes ago. *)
Definition outOfReach (now : Z) (r : SentNotification) : Prop :=
  status r = Sent \/ now - DbStorage.fiveMinutes <= createdAt r.

Definition settled (now : Z) (g s t : string) (tb : Table) : Prop :=
  exists record,
    firstOfKey g s t tb = Some record /\ outOfReach now record.

(** A call that changes or removes the record of the key. *)
Definition touches (g s t : string) (c : Call) : bool :=
  match c with
  | CallMarkSending g' s' t' | CallMarkSent g' s' t'
  | CallDeleteRecord g' s' t' =>
      (g' =? g)%string && (s' =? s)%string && (t' =? t)%string
  | _ => false
  end.

(** No two records have the same key. *)
Definition keyOf (r : SentNotification) : string * string * string :=
  (gameId r, subscriptionId r, notificationType r).

Definition uniqueKeys (tb : Table) : Prop :=
  NoDup (map keyOf (rows tb)).

(** One worker at a time: nothing is committed between the queries of a
    call. *)
Definition undisturbed (c : Conditions) : Prop :=
  forall n tb, concurrent c n tb = tb.

(** The ledger method of a storage, by name. *)
Definition ledgerCall {St : Type} (storage : IStorage St) (m : Method)
  : string -> string -> string -> St -> Result bool * St :=
  match m with
  | TryRecord => tryRecordNotificationAtomically storage
  | MarkSending => markNotificationSending storage
  | MarkSent => markNotificationSent storage
  | DeleteRecord => deleteNotificationRecord storage
  end.

(** Every delivery succeeds. *)
Definition deliveryWorks (emailService : EmailService)
           (messaging : string -> string -> string -> MessagingOutcome)
  : Prop :=
  (forall mail game token,
      send24HourReminder emailService mail game token = Ok true)
  /\ (forall mail game token,
         sendGameDayReminder emailService mail game token = Ok true)
  /\ (forall token title body, messaging token title body = Accepted).

(** The keys of a plan are all out of reach of a claim. *)
Definition planSettled (now : Z) (plan : list Attempt) (tb : Table) : Prop :=
  forall a g s t,
    In a plan -> attemptKey a = Some (g, s, t) -> settled now g s t tb.

(** The circumstances of a claim during which another worker makes its
    own claim of the same key, at clock [nowOther], after the record has
    been read and before the conditional update. *)
Definition overtakenAtUpdate (nowOther : Z) (g s t : string) : Conditions :=
  {| rejects := fun _ => false;
     concurrent := fun n tb =>
       match n with
       | 2%nat => snd (DbStorage.tryRecordNotificationAtomically
                         alone nowOther g s t tb)
       | _ => tb
       end |}.

Definition isCount24Hours (a : Attempt) : bool :=
  match a with
  | Count24Hours => true
  | _ => false
  end.

Definition isCountMorningOf (a : Attempt) : bool :=
  match a with
  | CountMorningOf => true
  | _ => false
  end.

Definition isMarkSent (c : Call) : bool :=
  match c with
  | CallMarkSent _ _ _ => true
  | _ => false
  end.

(** How many elements of a list pass a test. *)
Definition count {A : Type} (p : A -> bool) (l : list A) : nat :=
  List.length (filter p l).

(* ------------------------------------------------------------------ *)
(** ** More sample data *)

Module Archive.

(** The tombstone of alice's 24-hour reminder for the football game. *)
Definition sentToAlice : SentNotification :=
  {| sn_id := 0; gameId := "game-1"; subscriptionId := "sub-1";
     notificationType := "24hour"; status := Sent; createdAt := 0;
     sentAt := Some 0 |}.

Definition afterDelivery : Database :=
  {| games := [Sample.football]; subscriptions := [Sample.alice];
     pushSubscriptions := [Sample.phone];
     sentNotifications := {| rows := [sentToAlice]; nextId := 1 |} |}.

End Archive.

(* ------------------------------------------------------------------ *)
(** ** The storage of a pass, call by call *)

Module DbSession.

(** The store of a pass: the database, and the number of storage calls
    the pass has made so far. *)
Record Session := {
  database : Database;
  callNo : nat
}.

(** What surrounds the storage calls of a pass, by the number of the
    call: [othersAt n] is what everybody else has committed to the
    database since the call before, [conditionsAt n] says which queries
    of call [n] are rejected and what the other workers commit to the
    ledger between them, and [clockAt n] is the clock that call [n]
    reads. *)
Record Circumstances := {
  conditionsAt : nat -> Conditions;
  clockAt : nat -> Z;
  othersAt : nat -> Database -> Database
}.

(** [orderBy(asc(games.date))].  The query does not fix the order among
    rows of the same date; here they stay in the order of the table. *)
Fixpoint insertByDate (g : Game) (l : list Game) : list Game :=
  match l with
  | [] => [g]
  | h :: rest =>
      if date g <=? date h then g :: l else h :: insertByDate g rest
  end.

Definition orderByDate (l : list Game) : list Game :=
  fold_right insertByDate [] l.

Section Storage.

Variable k : Circumstances.

(** The database that a call finds, and the session that it leaves. *)
Definition arrive (w : Session) : Database :=
  othersAt k (callNo w) (database w).

Definition leave (d : Database) (w : Session) : Session :=
  {| database := d; callNo := S (callNo w) |}.

(** A method that is one [select]. *)
Definition load {A : Type} (read : Database -> A) (w : Session)
  : Result A * Session :=
  let d := arrive w in
  if rejects (conditionsAt k (callNo w)) 0 then (Threw, leave d w)
  else (Ok (read d), leave d w).

(** A method of the ledger. *)
Definition onLedger (f : Conditions -> Z -> Table -> Result bool * Table)
           (w : Session) : Result bool * Session :=
  let d := arrive w in
  let (answer, tb) :=
    f (conditionsAt k (callNo w)) (clockAt k (callNo w))
      (sentNotifications d) in
  (answer, leave (Db.withTable d tb) w).

Definition storage : IStorage Session :=
  {| getAllGames := load (fun d => orderByDate (games d));
     getAllSubscriptions := load subscriptions;
     getAllPushSubscriptions := load pushSubscriptions;
     tryRecordNotificationAtomically := fun g s t =>
       onLedger (fun c now =>
                   DbStorage.tryRecordNotificationAtomically c now g s t);
     markNotificationSending := fun g s t =>
       onLedger (fun c now => DbStorage.markNotificationSending c now g s t);
     markNotificationSent := fun g s t =>
       onLedger (fun c now => DbStorage.markNotificationSent c now g s t);
     deleteNotificationRecord := fun g s t =>
       onLedger (fun c _ => DbStorage.deleteNotificationRecord c g s t);
     deletePushSubscriptionByToken := fun token w =>
       let d := arrive w in
       if rejects (conditionsAt k (callNo w)) 0 then (Threw, leave d w)
       else
         let (answer, d') :=
           DbPush.deletePushSubscriptionByToken token d in
         (answer, leave d' w) |}.

End Storage.

(** Nobody else writes the ledger during the pass. *)
Definition ledgerUndisturbed (k : Circumstances) : Prop :=
  forall n,
    undisturbed (conditionsAt k n)
    /\ forall d, sentNotifications (othersAt k n d) = sentNotifications d.

(** Nobody else writes [push_subscriptions] during the pass. *)
Definition pushTargetsUndisturbed (k : Circumstances) : Prop :=
  forall n d, pushSubscriptions (othersAt k n d) = pushSubscriptions d.

End DbSession.

Module Flaky.

(** Every query of every fourth call is rejected. *)
Definition everyFourthCallFails (n : nat) : Conditions :=
  {| rejects := fun _ => (n mod 4 =? 3)%nat;
     concurrent := fun _ tb => tb |}.

(** One worker, a storage that rejects every fourth call, and a clock
    that advances by a second from call to call. *)
Definition circumstances : DbSession.Circumstances :=
  {| DbSession.conditionsAt := everyFourthCallFails;
     DbSession.clockAt := fun n => Sample.dayBefore + Z.of_nat n * 1000;
     DbSession.othersAt := fun _ d => d |}.

(** No failure, no other worker, one clock reading. *)
Definition steady : DbSession.Circumstances :=
  {| DbSession.conditionsAt := fun _ => alone;
     DbSession.clockAt := fun _ => Sample.dayBefore;
     DbSession.othersAt := fun _ d => d |}.

Definition start (d : Database) : DbSession.Session :=
  {| DbSession.database := d; DbSession.callNo := 0 |}.

End Flaky.

(* ------------------------------------------------------------------ *)
(** ** The other notification methods of [DbStorage] *)

(** [InsertSentNotification]: the columns a caller gives; [status] may be
    left out and then defaults to ['pending']. *)
Record InsertSentNotification := {
  new_gameId : string;
  new_subscriptionId : string;
  new_notificationType : string;
  new_status : option Status
}.

Module DbNotifications.
Import Sql.

(** [hasNotificationBeenSent]: whether the select on the key returns a
    row. *)
Definition hasNotificationBeenSent (c : Conditions)
           (g s t : string) (tb : Table) : Result bool * Table :=
  let tb := concurrent c 0 tb in
  if rejects c 0 then (Threw, tb)
  else
    let result := selectWhere (sameKey g s t) tb in
    (Ok (0 <? List.length result)%nat, tb).

(** [insert ... values (notification) returning]: the row inserted, or
    [None] on the violation of [unique_notification]. *)
Definition insertReturning (now : Z) (notification : InsertSentNotification)
           (tb : Table) : option (SentNotification * Table) :=
  if existsb (sameKey (new_gameId notification)
                      (new_subscriptionId notification)
                      (new_notificationType notification)) (rows tb)
  then None
  else
    let row :=
      {| sn_id := nextId tb;
         gameId := new_gameId notification;
         subscriptionId := new_subscriptionId notification;
         notificationType := new_notificationType notification;
         status := match new_status notification with
                   | Some st => st
                   | None => Pending
                   end;
         createdAt := now;
         sentAt := None |} in
    Some (row, {| rows := rows tb ++ [row]; nextId := S (nextId tb) |}).

(** [recordSentNotification]: the row, or [null] ([None]) when the key is
    taken; any other error is thrown. *)
Definition recordSentNotification (c : Conditions) (now : Z)
           (notification : InsertSentNotification) (tb : Table)
  : Result (option SentNotification) * Table :=
  let tb := concurrent c 0 tb in
  if rejects c 0 then (Threw, tb)
  else
    match insertReturning now notification tb with
    | Some (row, tb') => (Ok (Some row), tb')
    | None => (Ok None, tb)
    end.

End DbNotifications.

(* ------------------------------------------------------------------ *)
(** ** [sendPushToMultiple] *)

Module FirebaseMulti.

(** The loop of [sendPushToMultiple]: [successCount] and
    [failedTokens]. *)
Definition sendPushToMultiple
           (messaging : string -> string -> string -> MessagingOutcome)
           (tokens : list string) (title body : string)
  : nat * list string :=
  fold_left
    (fun (acc : nat * list string) (token : string) =>
       let (successCount, failedTokens) := acc in
       if FirebaseAdmin.sendPushNotification messaging token title body
       then (S successCount, failedTokens)
       else (successCount, (failedTokens ++ [token])%list))
    tokens (0%nat, []).

End FirebaseMulti.

Definition isAccepted (o : MessagingOutcome) : bool :=
  match o with
  | Accepted => true
  | Rejected _ => false
  end.

Module Inbox.

(** A request to record alice's reminder as already sent. *)
Definition aliceSent : InsertSentNotification :=
  {| new_gameId := "game-1"; new_subscriptionId := "sub-1";
     new_notificationType := "24hour"; new_status := Some Sent |}.

End Inbox.

(* ------------------------------------------------------------------ *)
(** ** The import of the schedule: [server/sync-service.ts] *)

Module ExcelImport.

(** [Number.prototype.toString] on an integer. *)
Definition numberToString (n : Z) : string :=
  NilZero.string_of_int (Z.to_int n).

Fixpoint zeros (n : nat) : string :=
  match n with
  | O => ""
  | S n' => "0" ++ zeros n'
  end.

(** [padStart(2, '0')] *)
Definition padStart2 (s : string) : string :=
  zeros (2 - String.length s) ++ s.

(** The text made of a time cell that is a number (lines 101-108 of
    [parseExcelToGames]), from [totalMinutes], the integer that
    [Math.round(row.Time * 24 * 60)] returned: [Math.floor] of the
    quotient, the remainder with the sign of the dividend, and the
    12-hour display. *)
Definition excelTimeText (totalMinutes : Z) : string :=
  let hours := totalMinutes / 60 in
  let minutes := Z.rem totalMinutes 60 in
  let period := if 12 <=? hours then "PM" else "AM" in
  let displayHours :=
    if hours =? 0 then 12 else if 12 <? hours then hours - 12 else hours in
  numberToString displayHours ++ ":" ++ padStart2 (numberToString minutes)
  ++ " " ++ period.

(** The [Date] of an Excel serial date (lines 86-87 of the import). *)
Definition excelDate (serial : Z) : Z :=
  (serial - 25569) * 86400 * 1000.

(** The minute of the day that the pass reads back from a time text:
    the hour adjustment of lines 325-332 applied to the match. *)
Definition minuteRead (time : string) : option Z :=
  match TimeText.timeMatch time with
  | Some (hours, minutes, isPM) =>
      let hours := if isPM && negb (hours =? 12) then hours + 12 else hours in
      let hours := if negb isPM && (hours =? 12) then 0 else hours in
      Some (hours * 60 + minutes)
  | None => None
  end.

End ExcelImport.

Module DriveLink.

Definition code (c : ascii) : nat := nat_of_ascii c.

(** [[a-zA-Z0-9_-]] *)
Definition isIdChar (c : ascii) : bool :=
  ((97 <=? code c)%nat && (code c <=? 122)%nat)
  || ((65 <=? code c)%nat && (code c <=? 90)%nat)
  || ((48 <=? code c)%nat && (code c <=? 57)%nat)
  || (code c =? 95)%nat || (code c =? 45)%nat.

(** One attempt of [\/d\/([a-zA-Z0-9_-]+)] at the head of [s]: the
    group, which is the longest run of id characters after [/d/]. *)
Definition matchHere (s : list ascii) : option (list ascii) :=
  match s with
  | slash1 :: d :: slash2 :: rest =>
      if (code slash1 =? 47)%nat && (code d =? 100)%nat
         && (code slash2 =? 47)%nat
      then match fst (TimeText.span isIdChar rest) with
           | [] => None
           | fileId => Some fileId
           end
      else None
  | _ => None
  end.

(** The leftmost match. *)
Fixpoint search (s : list ascii) : option (list ascii) :=
  match matchHere s with
  | Some found => Some found
  | None => match s with
            | _ :: rest => search rest
            | [] => None
            end
  end.

Fixpoint startsWith (needle s : list ascii) : bool :=
  match needle, s with
  | [], _ => true
  | c :: needle', c' :: s' => (code c =? code c')%nat && startsWith needle' s'
  | _ :: _, [] => false
  end.

(** [String.prototype.includes] *)
Fixpoint includesText (needle s : list ascii) : bool :=
  startsWith needle s
  || match s with
     | _ :: rest => includesText needle rest
     | [] => false
     end.

Definition exportUrl (fileId : string) : string :=
  "https://docs.google.com/spreadsheets/d/" ++ fileId
  ++ "/export?format=xlsx".

(** [convertToExportUrl]; [Threw] is the error 'Invalid Google Drive URL
    format'. *)
Definition convertToExportUrl (url : string) : Result string :=
  match search (list_ascii_of_string url) with
  | Some fileId => Ok (exportUrl (string_of_list_ascii fileId))
  | None =>
      if includesText (list_ascii_of_string "/export?format=")
                      (list_ascii_of_string url)
      then Ok url
      else Threw
  end.

End DriveLink.

(* ------------------------------------------------------------------ *)
(** ** The games table: [upsertGamesBatch] of [server/storage.ts] *)

(** The columns of an [InsertGame] that the modelled code reads; the id
    is left to the database. *)
Record InsertGame := {
  new_sport : string;
  new_opponent : string;
  new_date : Z;
  new_time : string;
  new_location : string;
  new_isHome : string
}.

Module DbGames.

Section Upsert.

(** [gen_random_uuid()]: the id the database gives the row inserted into
    the given table. *)
Variable randomUuid : list Game -> string.

(** [and(eq(games.sport, ..), eq(games.opponent, ..), eq(games.date, ..),
    eq(games.time, ..))] *)
Definition sameGame (insertGame : InsertGame) (g : Game) : bool :=
  (sport g =? new_sport insertGame)%string
  && (opponent g =? new_opponent insertGame)%string
  && (date g =? new_date insertGame)
  && (time g =? new_time insertGame)%string.

Definition withPlace (insertGame : InsertGame) (g : Game) : Game :=
  {| game_id := game_id g; sport := sport g; opponent := opponent g;
     date := date g; time := time g;
     location := new_location insertGame;
     isHome := new_isHome insertGame |}.

Definition inserted (insertGame : InsertGame) (tb : list Game) : Game :=
  {| game_id := randomUuid tb; sport := new_sport insertGame;
     opponent := new_opponent insertGame; date := new_date insertGame;
     time := new_time insertGame; location := new_location insertGame;
     isHome := new_isHome insertGame |}.

Record Upserted := {
  table : list Game;
  added : nat;
  updated : nat
}.

(** The body of the loop. *)
Definition upsertGame (acc : Upserted) (insertGame : InsertGame)
  : Upserted :=
  match filter (sameGame insertGame) (table acc) with
  | first :: _ =>
      {| table :=
           map (fun g => if (game_id g =? game_id first)%string
                         then withPlace insertGame g else g)
               (table acc);
         added := added acc;
         updated := S (updated acc) |}
  | [] =>
      {| table := (table acc ++ [inserted insertGame (table acc)])%list;
         added := S (added acc);
         updated := updated acc |}
  end.

Definition upsertGamesBatch (insertGames : list InsertGame)
                            (tb : list Game) : Upserted :=
  fold_left upsertGame insertGames
            {| table := tb; added := 0; updated := 0 |}.

End Upsert.

(** The game of an [InsertGame] is in the table. *)
Definition scheduled (tb : list Game) (insertGame : InsertGame) : Prop :=
  existsb (sameGame insertGame) tb = true.

End DbGames.

Module Fixture.

(** The sample game as a row of the schedule, with a new location. *)
Definition footballMoved : InsertGame :=
  {| new_sport := "Football"; new_opponent := "Essex";
     new_date := 10 * msPerDay; new_time := "7:00 PM";
     new_location := "Town Field"; new_isHome := "home" |}.

Definition uuid (tb : list Game) : string := "uuid".

End Fixture.

(* ------------------------------------------------------------------ *)
(** ** The photo gallery: the photo operations of [server/storage.ts]
       and [syncPhotosFromGoogleDrive] *)

Module PhotoSync.

(** The fields of a Drive file that the sync reads; [createdTime] is the
    instant its text denotes. *)
Record GoogleDriveFile := {
  id : string;
  name : string;
  mimeType : string;
  webViewLink : option string;
  createdTime : option Z
}.

Record InsertPhoto := {
  new_googleDriveId : string;
  new_name : string;
  new_mimeType : string;
  new_thumbnailUrl : option string;
  new_webViewUrl : option string;
  new_downloadUrl : option string;
  new_createdTime : option Z
}.

Record Photo := {
  photo_id : string;
  googleDriveId : string;
  photo_name : string;
  photo_mimeType : string;
  thumbnailUrl : option string;
  webViewUrl : option string;
  downloadUrl : option string;
  photo_createdTime : option Z;
  syncedAt : Z
}.

Record PhotoSyncLog := {
  log_photosAdded : nat;
  log_photosRemoved : nat;
  log_status : string;
  log_errorMessage : option string;
  log_triggeredBy : string
}.

Record Store := {
  photos : list Photo;
  logs : list PhotoSyncLog
}.

Record PhotoSyncResult := {
  success : bool;
  photosAdded : nat;
  photosRemoved : nat;
  errors : list string;
  message : string
}.

(** [eq(photos.googleDriveId, googleDriveId)] *)
Definition hasDriveId (driveId : string) (p : Photo) : bool :=
  (googleDriveId p =? driveId)%string.

Definition getPhotoByGoogleDriveId (driveId : string) (tb : list Photo)
  : option Photo :=
  hd_error (filter (hasDriveId driveId) tb).

Definition refreshed (now : Z) (photo : InsertPhoto) (p : Photo) : Photo :=
  {| photo_id := photo_id p; googleDriveId := googleDriveId p;
     photo_name := new_name photo; photo_mimeType := new_mimeType photo;
     thumbnailUrl := new_thumbnailUrl photo;
     webViewUrl := new_webViewUrl photo;
     downloadUrl := new_downloadUrl photo;
     photo_createdTime := new_createdTime photo; syncedAt := now |}.

Definition insertedPhoto (uuid : string) (now : Z) (photo : InsertPhoto)
  : Photo :=
  {| photo_id := uuid; googleDriveId := new_googleDriveId photo;
     photo_name := new_name photo; photo_mimeType := new_mimeType photo;
     thumbnailUrl := new_thumbnailUrl photo;
     webViewUrl := new_webViewUrl photo;
     downloadUrl := new_downloadUrl photo;
     photo_createdTime := new_createdTime photo; syncedAt := now |}.

(** [upsertPhoto], as a change of the table; the row it returns is not
    read by the sync. *)
Definition upsertPhoto (randomUuid : list Photo -> string) (now : Z)
                       (photo : InsertPhoto) (tb : list Photo)
  : list Photo :=
  match filter (hasDriveId (new_googleDriveId photo)) tb with
  | _ :: _ =>
      map (fun p => if hasDriveId (new_googleDriveId photo) p
                    then refreshed now photo p else p) tb
  | [] => (tb ++ [insertedPhoto (randomUuid tb) now photo])%list
  end.

Definition kept (idsToKeep : list string) (p : Photo) : bool :=
  existsb (String.eqb (googleDriveId p)) idsToKeep.

(** [deletePhotosByGoogleDriveIds]: the number of rows deleted and the
    table left. *)
Definition deletePhotosByGoogleDriveIds (idsToKeep : list string)
                                        (tb : list Photo)
  : nat * list Photo :=
  match idsToKeep with
  | [] => (List.length tb, [])
  | _ :: _ =>
      (List.length (filter (fun p => negb (kept idsToKeep p)) tb),
       filter (kept idsToKeep) tb)
  end.

(** What goes wrong while one file is handled, with the message of the
    error thrown. *)
Inductive Fault :=
| NoFault
| LookupFails (thrown : string)
| UpsertFails (thrown : string)
| DownloadFails (thrown : string).

(** The variables of the loop. *)
Record Progress := {
  table : list Photo;
  added : nat;
  drivePhotoIds : list string;
  failures : list string
}.

Definition photoData (driveFile : GoogleDriveFile) : InsertPhoto :=
  let viewUrl :=
    "https://drive.google.com/file/d/" ++ id driveFile ++ "/view" in
  {| new_googleDriveId := id driveFile;
     new_name := name driveFile;
     new_mimeType := mimeType driveFile;
     new_thumbnailUrl := Some ("/api/photos/" ++ id driveFile ++ "/thumbnail");
     new_webViewUrl :=
       Some (match webViewLink driveFile with
             | Some link => if (link =? "")%string then viewUrl else link
             | None => viewUrl
             end);
     new_downloadUrl := Some ("/api/photos/" ++ id driveFile ++ "/image");
     new_createdTime := createdTime driveFile |}.

Definition failed (driveFile : GoogleDriveFile) (thrown : string)
  : string :=
  "Failed to sync photo " ++ name driveFile ++ ": " ++ thrown.

Section Sync.

Variable fault : GoogleDriveFile -> Fault.
Variable randomUuid : list Photo -> string.
Variable now : Z.

(** The body of the loop, with its [try]/[catch]. *)
Definition syncFile (st : Progress) (driveFile : GoogleDriveFile)
  : Progress :=
  let ids := (drivePhotoIds st ++ [id driveFile])%list in
  let caught thrown :=
    {| table := table st; added := added st; drivePhotoIds := ids;
       failures := (failures st ++ [failed driveFile thrown])%list |} in
  match fault driveFile with
  | LookupFails thrown => caught thrown
  | UpsertFails thrown => caught thrown
  | after =>
      let existingPhoto :=
        getPhotoByGoogleDriveId (id driveFile) (table st) in
      let tb := upsertPhoto randomUuid now (photoData driveFile)
                            (table st) in
      let photosAdded :=
        match existingPhoto with
        | None => S (added st)
        | Some _ => added st
        end in
      {| table := tb; added := photosAdded; drivePhotoIds := ids;
         failures :=
           match after with
           | DownloadFails thrown =>
               (failures st ++ [failed driveFile thrown])%list
           | _ => failures st
           end |}
  end.

Definition numberText (n : nat) : string :=
  NilZero.string_of_uint (Nat.to_uint n).

Definition syncMessage (photosAdded photosRemoved total failures : nat)
  : string :=
  let message :=
    if (photosAdded =? 0)%nat && (photosRemoved =? 0)%nat
    then "Photos up to date (" ++ numberText total ++ " total)"
    else
      let addedPart :=
        if (0 <? photosAdded)%nat
        then [numberText photosAdded ++ " added"] else [] in
      let removedPart :=
        if (0 <? photosRemoved)%nat
        then [numberText photosRemoved ++ " removed"] else [] in
      let parts := (addedPart ++ removedPart)%list in
      "Successfully synced photos: " ++ String.concat ", " parts
      ++ " (" ++ numberText total ++ " total)" in
  if (0 <? failures)%nat
  then message ++ " - " ++ numberText failures ++ " errors"
  else message.

(** What the listing of the folder gives. *)
Inductive Listing :=
| Listed (drivePhotos : list GoogleDriveFile)
| ListingFailed (thrown : string).

Definition syncError (triggeredBy errorMessage : string) (st : Store)
  : PhotoSyncResult * Store :=
  ({| success := false; photosAdded := 0; photosRemoved := 0;
      errors := [errorMessage]; message := errorMessage |},
   {| photos := photos st;
      logs := (logs st
               ++ [{| log_photosAdded := 0; log_photosRemoved := 0;
                      log_status := "error";
                      log_errorMessage := Some errorMessage;
                      log_triggeredBy := triggeredBy |}])%list |}).

(** [syncPhotosFromGoogleDrive]; [folderId] is the environment variable,
    [listing] what [listPhotosInFolder] gives for it.  The log is written
    without a fault. *)
Definition syncPhotosFromGoogleDrive
    (folderId : option string) (listing : Listing)
    (triggeredBy : string) (st : Store) : PhotoSyncResult * Store :=
  let notConfigured :=
    "GOOGLE_DRIVE_PHOTOS_FOLDER_ID environment variable not configured" in
  match folderId with
  | None | Some EmptyString => syncError triggeredBy notConfigured st
  | Some (String _ _) =>
      match listing with
      | ListingFailed thrown => syncError triggeredBy thrown st
      | Listed drivePhotos =>
          let done :=
            fold_left syncFile drivePhotos
                      {| table := photos st; added := 0;
                         drivePhotoIds := []; failures := [] |} in
          let '(removed, tb) :=
            deletePhotosByGoogleDriveIds (drivePhotoIds done)
                                         (table done) in
          let text :=
            syncMessage (added done) removed (List.length drivePhotos)
                        (List.length (failures done)) in
          ({| success := true; photosAdded := added done;
              photosRemoved := removed; errors := failures done;
              message := text |},
           {| photos := tb;
              logs :=
                (logs st
                 ++ [{| log_photosAdded := added done;
                        log_photosRemoved := removed;
                        log_status :=
                          match failures done with
                          | [] => "success"
                          | _ :: _ => "partial"
                          end;
                        log_errorMessage :=
                          match failures done with
                          | [] => None
                          | _ :: _ =>
                              Some (String.concat "; " (failures done))
                          end;
                        log_triggeredBy := triggeredBy |}])%list |})
      end
  end.

End Sync.

(** The Drive ids of the photos of a table. *)
Definition driveIds (tb : list Photo) : list string :=
  map googleDriveId tb.

End PhotoSync.

Module Gallery.

Definition teamPhoto : PhotoSync.GoogleDriveFile :=
  {| PhotoSync.id := "drive-1"; PhotoSync.name := "team.jpg";
     PhotoSync.mimeType := "image/jpeg"; PhotoSync.webViewLink := None;
     PhotoSync.createdTime := Some 0 |}.

Definition gamePhoto : PhotoSync.GoogleDriveFile :=
  {| PhotoSync.id := "drive-2"; PhotoSync.name := "game.png";
     PhotoSync.mimeType := "image/png";
     PhotoSync.webViewLink := Some "https://example.org/game";
     PhotoSync.createdTime := None |}.

Definition noFault (driveFile : PhotoSync.GoogleDriveFile)
  : PhotoSync.Fault :=
  PhotoSync.NoFault.

(** The storage rejects the upsert of every file. *)
Definition upsertsFail (driveFile : PhotoSync.GoogleDriveFile)
  : PhotoSync.Fault :=
  PhotoSync.UpsertFails "connection lost".

Definition uuid (tb : list PhotoSync.Photo) : string := "uuid".

Definition empty : PhotoSync.Store :=
  {| PhotoSync.photos := []; PhotoSync.logs := [] |}.

End Gallery.

(* ------------------------------------------------------------------ *)
(** ** The hourly check *)

Module Cron.

Definition QUIET_HOURS_START : Z := 0.
Definition QUIET_HOURS_END : Z := 5.

(** [getHours] of the wall clock of a zone. *)
Definition getHours (zone t : Z) : Z :=
  TimeWithinDay (LocalTime zone t) / msPerHour.

(** [isQuietHours], read at the instant [now]; [eastern] is the offset of
    America/New_York. *)
Definition isQuietHours (eastern now : Z) : bool :=
  let hour := getHours eastern now in
  (QUIET_HOURS_START <=? hour) && (hour <? QUIET_HOURS_END).

Section Check.

Context {St : Type}.
Variable storage : IStorage St.
Variable emailService : EmailService.
Variable messaging : string -> string -> string -> MessagingOutcome.
Variables tz eastern : Z.

(** [performNotificationCheck]: the clock is read at [checked] for the
    quiet hours and at [now] by the pass; [None] is the skipped check. *)
Definition performNotificationCheck (checked now : Z) (st : St)
  : option (Run St) :=
  if isQuietHours eastern checked then None
  else Some (checkAndSendNotifications
               storage emailService messaging tz now st).

Definition triggerManualNotificationCheck (now : Z) (st : St) : Run St :=
  checkAndSendNotifications storage emailService messaging tz now st.

End Check.

(** An instant of the schedule ['15 * * * *']. *)
Definition atQuarterPast (tz t : Z) : Prop :=
  TimeWithinDay (LocalTime tz t) mod msPerHour = 15 * msPerMinute.

(** The first instant of the schedule from 27 hours before a game on. *)
Definition firstTick (tz : Z) (game : Game) : Z :=
  let opening := gameDateTime tz game - 27 * msPerHour in
  opening + (15 * msPerMinute - opening - tz) mod msPerHour.

End Cron.

(* ================================================================== *)
(** * Properties *)

(* ------------------------------------------------------------------ *)
(** ** The notification windows *)

Section WindowFacts.

Variable tz : Z.

Lemma startOfDay_eq (t : Z) :
  startOfDay tz t = Day (LocalTime tz t) * msPerDay - tz.
Proof. unfold startOfDay, setHours, UTC, msPerHour, msPerMinute. lia. Qed.

Lemma isSameDay_spec (a b : Z) :
  isSameDay tz a b = true <-> Day (LocalTime tz a) = Day (LocalTime tz b).
Proof.
  unfold isSameDay. rewrite Z.eqb_eq, !startOfDay_eq.
  unfold msPerDay. lia.
Qed.

(** The current time is after [morningStart] exactly when the local time
    of day is past 8:00, and before [morningEnd] exactly when it is
    short of 9:00. *)
Lemma isAfter_morningStart (now : Z) :
  isAfter now (morningStart tz now) = true
  <-> 8 * msPerHour < TimeWithinDay (LocalTime tz now).
Proof.
  unfold isAfter, morningStart, setHours, UTC, Day, TimeWithinDay,
    LocalTime, msPerDay, msPerHour, msPerMinute.
  rewrite Z.ltb_lt. Z.to_euclidean_division_equations. lia.
Qed.

Lemma isBefore_morningEnd (now : Z) :
  isBefore now (morningEnd tz now) = true
  <-> TimeWithinDay (LocalTime tz now) < 9 * msPerHour.
Proof.
  unfold isBefore, morningEnd, setHours, UTC, Day, TimeWithinDay,
    LocalTime, msPerDay, msPerHour, msPerMinute.
  rewrite Z.ltb_lt. Z.to_euclidean_division_equations. lia.
Qed.

Lemma needs24HourNotification_spec (now : Z) (game : Game) :
  needs24HourNotification tz now game = true
  <-> 21 * msPerHour < gameDateTime tz game - now <= 27 * msPerHour.
Proof.
  unfold needs24HourNotification. cbv zeta.
  rewrite andb_true_iff, Z.ltb_lt, Z.leb_le. tauto.
Qed.

Lemma needsMorningNotification_spec (now : Z) (game : Game) :
  needsMorningNotification tz now game = true
  <-> Day (LocalTime tz (gameDateTime tz game)) = Day (LocalTime tz now)
      /\ 8 * msPerHour < TimeWithinDay (LocalTime tz now) < 9 * msPerHour.
Proof.
  unfold needsMorningNotification.
  rewrite !andb_true_iff, isSameDay_spec, isAfter_morningStart,
    isBefore_morningEnd.
  tauto.
Qed.

(** A moment on the same local day as [now], with [now] past 8:00, is
    less than 16 hours ahead. *)
Lemma same_day_after_eight (t now : Z) :
  Day (LocalTime tz t) = Day (LocalTime tz now) ->
  8 * msPerHour < TimeWithinDay (LocalTime tz now) ->
  t - now < 16 * msPerHour.
Proof.
  unfold Day, TimeWithinDay, LocalTime, msPerDay, msPerHour.
  intros Hday Hnow. Z.to_euclidean_division_equations. lia.
Qed.

End WindowFacts.

(** C2.  A game is eligible for the 24-hour reminder exactly when the time
    until its start is more than 21 hours and at most 27 hours; a game at
    exactly now + 27h is eligible, one at exactly now + 21h is not, and one
    at now + 27h01m is not. *)
Theorem window24_is_21_exclusive_27_inclusive :
  forall (tz now : Z) (game : Game),
    (needs24HourNotification tz now game = true
     <-> 21 * msPerHour < gameDateTime tz game - now <= 27 * msPerHour)
    /\ (gameDateTime tz game = now + 27 * msPerHour ->
        needs24HourNotification tz now game = true)
    /\ (gameDateTime tz game = now + 21 * msPerHour ->
        needs24HourNotification tz now game = false)
    /\ (gameDateTime tz game = now + 27 * msPerHour + msPerMinute ->
        needs24HourNotification tz now game = false).
Proof.
  intros tz now game. split; [apply needs24HourNotification_spec|].
  repeat split; intros Hat.
  - apply needs24HourNotification_spec. rewrite Hat.
    unfold msPerHour. lia.
  - apply not_true_is_false. rewrite needs24HourNotification_spec, Hat.
    unfold msPerHour. lia.
  - apply not_true_is_false. rewrite needs24HourNotification_spec, Hat.
    unfold msPerHour, msPerMinute. lia.
Qed.

(** The three boundary cases of C2 on the sample game, whose start is
    parsed from "7:00 PM". *)
Lemma window24_boundaries_on_sample :
  needs24HourNotification 0 (Sample.kickoff - 27 * msPerHour)
                          Sample.football = true
  /\ needs24HourNotification 0 (Sample.kickoff - 21 * msPerHour)
                             Sample.football = false
  /\ needs24HourNotification 0 (Sample.kickoff - 27 * msPerHour - msPerMinute)
                             Sample.football = false.
Proof.
  split; [|split].
  - destruct (window24_is_21_exclusive_27_inclusive
                0 (Sample.kickoff - 27 * msPerHour) Sample.football)
      as (_ & Hat27 & _).
    apply Hat27. reflexivity.
  - destruct (window24_is_21_exclusive_27_inclusive
                0 (Sample.kickoff - 21 * msPerHour) Sample.football)
      as (_ & _ & Hat21 & _).
    apply Hat21. reflexivity.
  - destruct (window24_is_21_exclusive_27_inclusive
                0 (Sample.kickoff - 27 * msPerHour - msPerMinute)
                Sample.football)
      as (_ & _ & _ & Hpast27).
    apply Hpast27. reflexivity.
Defined.

(** C4, as the claim states it, fails at exactly 08:00: the game is today
    and the time of day is 08:00:00.000, yet the game is not eligible. *)
Lemma game_day_window_excludes_0800 :
  let now := 10 * msPerDay + 8 * msPerHour in
  ~ (needsMorningNotification 0 now Sample.football = true
     <-> Day (LocalTime 0 (gameDateTime 0 Sample.football))
         = Day (LocalTime 0 now)
         /\ 8 * msPerHour <= TimeWithinDay (LocalTime 0 now) < 9 * msPerHour).
Proof.
  intros now [_ Hclaim].
  assert (Hfalse : needsMorningNotification 0 now Sample.football = false)
    by reflexivity.
  rewrite Hclaim in Hfalse; [discriminate|].
  vm_compute. repeat split; congruence.
Qed.

(** C4, amended.  A game is eligible for the game-day reminder exactly when
    its start falls on today's local calendar day and the current local
    time of day lies strictly between 08:00 and 09:00. *)
Theorem game_day_window_is_open_0800_0900 :
  forall (tz now : Z) (game : Game),
    needsMorningNotification tz now game = true
    <-> Day (LocalTime tz (gameDateTime tz game)) = Day (LocalTime tz now)
        /\ 8 * msPerHour < TimeWithinDay (LocalTime tz now) < 9 * msPerHour.
Proof. intros. apply needsMorningNotification_spec. Qed.

(** C8.  At one evaluation time a game is never in both windows: a start
    on today's calendar day seen after 08:00 is less than 21 hours away. *)
Theorem windows_are_mutually_exclusive :
  forall (tz now : Z) (game : Game),
    (isSameDay tz (gameDateTime tz game) now = true ->
     isAfter now (morningStart tz now) = true ->
     gameDateTime tz game - now < 21 * msPerHour)
    /\ needs24HourNotification tz now game
       && needsMorningNotification tz now game = false.
Proof.
  intros tz now game.
  assert (Hnear : isSameDay tz (gameDateTime tz game) now = true ->
                  isAfter now (morningStart tz now) = true ->
                  gameDateTime tz game - now < 21 * msPerHour).
  { rewrite isSameDay_spec, isAfter_morningStart. intros Hday Hnow.
    pose proof (same_day_after_eight tz _ _ Hday Hnow) as H16.
    unfold msPerHour in *. lia. }
  split; [exact Hnear|].
  apply not_true_is_false. rewrite andb_true_iff.
  intros [H24 Hmorning].
  apply needs24HourNotification_spec in H24.
  unfold needsMorningNotification in Hmorning.
  rewrite !andb_true_iff in Hmorning.
  destruct Hmorning as [[Hday Hafter] _].
  specialize (Hnear Hday Hafter). lia.
Qed.

(** C8 on the sample game at 8:30 on the morning of the game. *)
Lemma windows_exclusive_on_sample :
  gameDateTime 0 Sample.football - Sample.gameMorning < 21 * msPerHour.
Proof.
  apply (windows_are_mutually_exclusive 0 Sample.gameMorning Sample.football);
    reflexivity.
Defined.

(* ------------------------------------------------------------------ *)
(** ** The ledger *)

Section SqlFacts.
Import Sql.

(** [returning] is non-empty exactly when some row meets the
    where-clause. *)
Lemma returned_some (p : SentNotification -> bool)
      (set : SentNotification -> SentNotification)
      (l : list SentNotification) :
  (0 <? List.length (map set (filter p l)))%nat = existsb p l.
Proof.
  induction l as [|r l IH]; simpl; [reflexivity|].
  destruct (p r); simpl; [reflexivity|exact IH].
Qed.

Lemma deleted_some (p : SentNotification -> bool)
      (l : list SentNotification) :
  (0 <? List.length (filter p l))%nat = existsb p l.
Proof.
  induction l as [|r l IH]; simpl; [reflexivity|].
  destruct (p r); simpl; [reflexivity|exact IH].
Qed.

Lemma select_head_in (p : SentNotification -> bool) (tb : Table)
      (record : SentNotification) (rest : list SentNotification) :
  selectWhere p tb = record :: rest ->
  In record (rows tb) /\ p record = true.
Proof.
  unfold selectWhere. intros Hsel.
  apply filter_In. rewrite Hsel. left. reflexivity.
Qed.

Lemma Status_eqb_eq (a b : Status) : Status_eqb a b = true <-> a = b.
Proof. destruct a, b; simpl; split; congruence. Qed.

Lemma Status_eqb_refl (a : Status) : Status_eqb a a = true.
Proof. destruct a; reflexivity. Qed.

Lemma insertPending_conflict (now : Z) (g s t : string) (tb : Table) :
  existsb (sameKey g s t) (rows tb) = true ->
  insertPending now g s t tb = None.
Proof. unfold insertPending. intros ->. reflexivity. Qed.

Lemma insertPending_free (now : Z) (g s t : string) (tb : Table) :
  existsb (sameKey g s t) (rows tb) = false ->
  exists tb', insertPending now g s t tb = Some tb'.
Proof. unfold insertPending. intros ->. eexists. reflexivity. Qed.

(** Under the stale guard of a pending record, refreshing [createdAt]
    and setting [Pending] with a fresh [createdAt] are the same update. *)
Lemma pending_refresh_is_reset (record : SentNotification)
      (threshold now : Z) (l : list SentNotification) :
  status record = Pending ->
  map (fun r => if DbStorage.staleGuard record threshold r
                then DbStorage.withCreatedAt now r else r) l
  = map (fun r => if DbStorage.staleGuard record threshold r
                  then DbStorage.withStatusAndCreatedAt Pending now r
                  else r) l.
Proof.
  intros Hpending. apply map_ext. intros r.
  destruct (DbStorage.staleGuard record threshold r) eqn:Hguard;
    [|reflexivity].
  unfold DbStorage.staleGuard in Hguard.
  rewrite !andb_true_iff, Status_eqb_eq in Hguard.
  destruct Hguard as [[_ Hstatus] _].
  unfold DbStorage.withCreatedAt. rewrite Hstatus, Hpending. reflexivity.
Qed.

End SqlFacts.

(** The answer of the stale branch, spelled out. *)
Lemma reclaim_answer (c : Conditions) (now : Z) (record : SentNotification)
      (set : SentNotification -> SentNotification) (tb : Table) :
  rejects c 2 = false ->
  DbStorage.reclaim c now record set tb
  = (Ok (existsb (DbStorage.staleGuard record (now - DbStorage.fiveMinutes))
                 (rows (concurrent c 2 tb))),
     {| rows := map (fun r =>
                       if DbStorage.staleGuard
                            record (now - DbStorage.fiveMinutes) r
                       then set r else r)
                    (rows (concurrent c 2 tb));
        nextId := nextId (concurrent c 2 tb) |}).
Proof.
  intros Hok. unfold DbStorage.reclaim, Sql.updateWhere. cbv zeta.
  rewrite Hok, returned_some. reflexivity.
Qed.



Section Monotone.
Import Sql.

Variable c : Conditions.
Hypothesis nobodyElse : forall n tb, concurrent c n tb = tb.
Variables (now : Z) (g s t : string) (tb : Table).

Lemma updated_rows_accounted (m : Method)
      (p : SentNotification -> bool)
      (set : SentNotification -> SentNotification) (r' : SentNotification) :
  (forall r, In r (rows tb) -> p r = true ->
           accountedFor now g s t tb m (set r)) ->
  In r' (map (fun r => if p r then set r else r) (rows tb)) ->
  accountedFor now g s t tb m r'.
Proof.
  intros Hset Hin. apply in_map_iff in Hin.
  destruct Hin as (r & Himage & Hr).
  destruct (p r) eqn:Hp; subst r'.
  - apply Hset; assumption.
  - left. exact Hr.
Qed.

Lemma reclaim_accounted (record : SentNotification) (st : Status)
      (r' : SentNotification) :
  status record = Sending /\ st = Pending
  \/ status record = Pending /\ st = Pending ->
  In r' (rows (snd (DbStorage.reclaim
                      c now record
                      (DbStorage.withStatusAndCreatedAt st now) tb))) ->
  accountedFor now g s t tb TryRecord r'.
Proof.
  intros Hcase. unfold DbStorage.reclaim. cbv zeta.
  rewrite nobodyElse. destruct (rejects c 2); simpl; [left; assumption|].
  apply updated_rows_accounted. intros r Hr Hguard.
  unfold DbStorage.staleGuard in Hguard.
  rewrite !andb_true_iff, Status_eqb_eq, Z.ltb_lt in Hguard.
  destruct Hguard as [[_ Hstatus] Hstale].
  right. right. exists r. simpl. repeat split; try assumption.
  destruct Hcase as [[Hrec ->]|[Hrec ->]]; rewrite Hrec in Hstatus.
  - right. repeat split; assumption.
  - left. rewrite Hstatus. simpl. lia.
Qed.

Lemma perform_accounted (m : Method) (r' : SentNotification) :
  In r' (rows (snd (perform m c now g s t tb))) ->
accountedFor now g s t tb m r'.
Proof.
  destruct m; simpl.
  - (* tryRecordNotificationAtomically *)
    unfold DbStorage.tryRecordNotificationAtomically. cbv zeta.
    rewrite !nobodyElse.
    destruct (rejects c 0); [left; assumption|].
    unfold insertPending.
    destruct (existsb (sameKey g s t) (rows tb)) eqn:Hkey.
    + destruct (rejects c 1); [left; assumption|].
      destruct (selectWhere (sameKey g s t) tb) as [|record more] eqn:Hsel;
        [left; assumption|].
      destruct (status record) eqn:Hstatus; [| |left; assumption].
      * destruct (createdAt record <? now - DbStorage.fiveMinutes);
          [|left; assumption].
        unfold DbStorage.withCreatedAt.
        intros Hin.
        apply (reclaim_accounted record Pending); [tauto|].
        unfold DbStorage.reclaim in *. cbv zeta in *.
        rewrite nobodyElse in *.
        destruct (rejects c 2); [exact Hin|].
        simpl in *.
        rewrite <- (pending_refresh_is_reset record _ now _ Hstatus).
        exact Hin.
      * destruct (createdAt record <? now - DbStorage.fiveMinutes);
          [|left; assumption].
        apply reclaim_accounted. tauto.
    + simpl. intros Hin. apply in_app_or in Hin.
      destruct Hin as [Hin|[<-|[]]]; [left; assumption|].
      right. left. split; [reflexivity|]. split; [exact Hkey|].
      unfold sameKey. simpl. rewrite !String.eqb_refl. repeat split.
  - (* markNotificationSending *)
    unfold DbStorage.markNotificationSending. cbv zeta.
    rewrite nobodyElse. destruct (rejects c 0); simpl; [left; assumption|].
    apply updated_rows_accounted. intros r Hr Hp.
    rewrite andb_true_iff, Status_eqb_eq in Hp. destruct Hp as [_ Hpending].
    right. right. exists r. simpl. repeat split; try assumption.
    left. rewrite Hpending. simpl. lia.
  - (* markNotificationSent *)
    unfold DbStorage.markNotificationSent. cbv zeta.
    rewrite nobodyElse. destruct (rejects c 0); simpl; [left; assumption|].
    apply updated_rows_accounted. intros r Hr _.
    right. right. exists r. simpl. repeat split; try assumption.
    left. destruct (status r); simpl; lia.
  - (* deleteNotificationRecord *)
    unfold DbStorage.deleteNotificationRecord. cbv zeta.
    rewrite nobodyElse. destruct (rejects c 0); simpl; [left; assumption|].
    intros Hin. apply filter_In in Hin. left. tauto.
Qed.

End Monotone.

Section Keys.
Import Sql.

Lemma ids_after_update (p : SentNotification -> bool)
      (set : SentNotification -> SentNotification)
      (l : list SentNotification) :
  (forall r, sn_id (set r) = sn_id r) ->
  map sn_id (map (fun r => if p r then set r else r) l) = map sn_id l.
Proof.
  intros Hset. rewrite map_map. apply map_ext. intros r.
  destruct (p r); [apply Hset|reflexivity].
Qed.

Lemma wellKeyed_by_ids (tb tb' : Table) :
  map sn_id (rows tb') = map sn_id (rows tb) ->
  nextId tb' = nextId tb ->
  wellKeyed tb -> wellKeyed tb'.
Proof.
  unfold wellKeyed. intros Hids Hnext [Hnodup Hbelow].
  rewrite Hids, Hnext. split; [exact Hnodup|].
  apply Forall_forall. intros r' Hr'.
  assert (Hid : In (sn_id r') (map sn_id (rows tb)))
    by (rewrite <- Hids; apply in_map; exact Hr').
  apply in_map_iff in Hid. destruct Hid as (r & Heq & Hr).
  rewrite Forall_forall in Hbelow. rewrite <- Heq. apply Hbelow, Hr.
Qed.

Lemma wellKeyed_update (p : SentNotification -> bool)
      (set : SentNotification -> SentNotification) (tb : Table) :
  (forall r, sn_id (set r) = sn_id r) ->
  wellKeyed tb -> wellKeyed (snd (updateWhere p set tb)).
Proof.
  intros Hset. apply wellKeyed_by_ids; simpl;
    [apply ids_after_update, Hset|reflexivity].
Qed.

Lemma NoDup_map_filter (p : SentNotification -> bool)
      (l : list SentNotification) :
  NoDup (map sn_id l) -> NoDup (map sn_id (filter p l)).
Proof.
  induction l as [|r l IH]; simpl; intros Hnodup; [constructor|].
  inversion Hnodup as [|? ? Hfresh Hrest]; subst.
  destruct (p r); simpl; [|apply IH, Hrest].
  constructor; [|apply IH, Hrest].
  intros Hin. apply Hfresh. apply in_map_iff in Hin.
  destruct Hin as (r0 & Heq & Hr0). apply filter_In in Hr0.
  rewrite <- Heq. apply in_map. tauto.
Qed.

Lemma wellKeyed_delete (p : SentNotification -> bool) (tb : Table) :
  wellKeyed tb -> wellKeyed (snd (deleteWhere p tb)).
Proof.
  unfold wellKeyed. simpl. intros [Hnodup Hbelow]. split.
  - apply NoDup_map_filter, Hnodup.
  - rewrite Forall_forall in *. intros r Hr. apply filter_In in Hr.
    apply Hbelow. tauto.
Qed.

Lemma wellKeyed_insert (now : Z) (g s t : string) (tb tb' : Table) :
  insertPending now g s t tb = Some tb' ->
  wellKeyed tb -> wellKeyed tb'.
Proof.
  unfold insertPending, wellKeyed.
  destruct (existsb (sameKey g s t) (rows tb)); [discriminate|].
  intros [= <-] [Hnodup Hbelow]. simpl.
  rewrite Forall_forall in Hbelow. split.
  - rewrite map_app. simpl. apply NoDup_app.
    + exact Hnodup.
    + constructor; [intros []|constructor].
    + intros i Hi [<-|[]]. apply in_map_iff in Hi.
      destruct Hi as (r & Heq & Hr). specialize (Hbelow r Hr). lia.
  - apply Forall_forall. intros r Hr. apply in_app_or in Hr.
    destruct Hr as [Hr|[<-|[]]]; simpl; [specialize (Hbelow r Hr)|]; lia.
Qed.

Lemma wellKeyed_perform (c : Conditions) (m : Method) (now : Z)
      (g s t : string) (tb : Table) :
  (forall n tb0, concurrent c n tb0 = tb0) ->
  wellKeyed tb -> wellKeyed (snd (perform m c now g s t tb)).
Proof.
  intros nobodyElse Hwell. destruct m; simpl.
  - unfold DbStorage.tryRecordNotificationAtomically. cbv zeta.
    rewrite !nobodyElse.
    destruct (rejects c 0); [exact Hwell|].
    destruct (insertPending now g s t tb) as [tb'|] eqn:Hinsert;
      [exact (wellKeyed_insert _ _ _ _ _ _ Hinsert Hwell)|].
    destruct (rejects c 1); [exact Hwell|].
    destruct (selectWhere (sameKey g s t) tb) as [|record more];
      [exact Hwell|].
    assert (Hreclaim : forall set,
               (forall r, sn_id (set r) = sn_id r) ->
               wellKeyed (snd (DbStorage.reclaim c now record set tb))).
    { intros set Hset. unfold DbStorage.reclaim. cbv zeta.
      rewrite nobodyElse. destruct (rejects c 2); [exact Hwell|].
      apply (wellKeyed_update _ set tb Hset Hwell). }
    destruct (status record); [| |exact Hwell];
      (destruct (createdAt record <? now - DbStorage.fiveMinutes);
       [apply Hreclaim; reflexivity|exact Hwell]).
  - unfold DbStorage.markNotificationSending. cbv zeta.
    rewrite nobodyElse. destruct (rejects c 0); [exact Hwell|].
    apply (wellKeyed_update _ _ tb); [reflexivity|exact Hwell].
  - unfold DbStorage.markNotificationSent. cbv zeta.
    rewrite nobodyElse. destruct (rejects c 0); [exact Hwell|].
    apply (wellKeyed_update _ _ tb); [reflexivity|exact Hwell].
  - unfold DbStorage.deleteNotificationRecord. cbv zeta.
    rewrite nobodyElse. destruct (rejects c 0); [exact Hwell|].
    apply wellKeyed_delete, Hwell.
Qed.

Lemma same_id_same_row (tb : Table) (r1 r2 : SentNotification) :
  wellKeyed tb -> In r1 (rows tb) -> In r2 (rows tb) ->
  sn_id r1 = sn_id r2 -> r1 = r2.
Proof.
  intros [Hnodup _]. revert Hnodup.
  induction (rows tb) as [|r l IH]; simpl; [intros _ []|].
  intros Hnodup H1 H2 Hid.
  inversion Hnodup as [|? ? Hfresh Hrest]; subst.
  destruct H1 as [<-|H1], H2 as [<-|H2].
  - reflexivity.
  - exfalso. apply Hfresh. rewrite Hid. apply in_map, H2.
  - exfalso. apply Hfresh. rewrite <- Hid. apply in_map, H1.
  - apply IH; assumption.
Qed.

End Keys.

(** C5.  Over the four ledger methods, run with no other worker in
    between, the row of a given primary key never moves backward in the
    order pending, sending, sent, with one exception: a [Sending] row
    older than five minutes that [tryRecordNotificationAtomically] resets
    to [Pending] with a fresh [createdAt] (a stale [Pending] row keeps its
    status and gets a fresh [createdAt]).  The methods keep primary keys
    unique, and the exception does occur. *)
Theorem status_moves_forward_except_stale_reclaim :
  (forall (c : Conditions) (m : Method) (now : Z) (g s t : string)
          (tb : Table) (r r' : SentNotification),
      (forall n tb0, concurrent c n tb0 = tb0) ->
      wellKeyed tb ->
      In r (rows tb) ->
      In r' (rows (snd (perform m c now g s t tb))) ->
      sn_id r' = sn_id r ->
      (rank (status r) <= rank (status r'))%nat
      \/ (m = TryRecord
          /\ status r = Sending /\ status r' = Pending
          /\ createdAt r < now - DbStorage.fiveMinutes
          /\ createdAt r' = now))
  /\ (forall (c : Conditions) (m : Method) (now : Z) (g s t : string)
             (tb : Table),
         (forall n tb0, concurrent c n tb0 = tb0) ->
         wellKeyed tb -> wellKeyed (snd (perform m c now g s t tb)))
  /\ (exists (now : Z) (g s t : string) (tb : Table)
             (r r' : SentNotification),
         wellKeyed tb
         /\ In r (rows tb)
         /\ In r' (rows (snd (perform TryRecord alone now g s t tb)))
         /\ sn_id r' = sn_id r
         /\ status r = Sending /\ status r' = Pending).
Proof.
  split; [|split].
  - intros c m now g s t tb r r' nobodyElse Hwell Hr Hr' Hid.
    destruct (perform_accounted c nobodyElse now g s t tb m r' Hr')
      as [Hsame|[Hfresh|Hnext]].
    + rewrite (same_id_same_row tb r' r Hwell Hsame Hr Hid). left. lia.
    + exfalso. destruct Hfresh as (_ & _ & _ & Hnew & _).
      destruct Hwell as [_ Hbelow]. rewrite Forall_forall in Hbelow.
      specialize (Hbelow r Hr). lia.
    + destruct Hnext as (r0 & Hr0 & Hid0 & _ & _ & _ & Hmove).
      assert (r0 = r) as ->
        by (apply (same_id_same_row tb); [assumption..|congruence]).
      exact Hmove.
  - intros c m now g s t tb nobodyElse. apply wellKeyed_perform, nobodyElse.
  - exists Sample.sixMinutes, "game-1", "sub-1", "24hour", Sample.stuckTable,
      Sample.stuckSending,
      (DbStorage.withStatusAndCreatedAt Pending Sample.sixMinutes
                                        Sample.stuckSending).
    split.
    { split; simpl.
      - constructor; [intros []|constructor].
      - repeat constructor. }
    repeat split; simpl; auto.
Qed.

(** C5 on the record stuck in [Sending]: marking it sent moves it
    forward. *)
Lemma mark_sent_moves_stuck_record_forward :
  (rank (status Sample.stuckSending)
   <= rank (status (DbStorage.withSent Sample.sixMinutes
                                       Sample.stuckSending)))%nat
  \/ (MarkSent = TryRecord
      /\ status Sample.stuckSending = Sending
      /\ status (DbStorage.withSent Sample.sixMinutes Sample.stuckSending)
         = Pending
      /\ createdAt Sample.stuckSending
         < Sample.sixMinutes - DbStorage.fiveMinutes
      /\ createdAt (DbStorage.withSent Sample.sixMinutes Sample.stuckSending)
         = Sample.sixMinutes).
Proof.
  apply (proj1 status_moves_forward_except_stale_reclaim
               alone MarkSent Sample.sixMinutes "game-1" "sub-1" "24hour"
               Sample.stuckTable).
  - reflexivity.
  - split; simpl.
    + constructor; [intros []|constructor].
    + repeat constructor.
  - simpl. left. reflexivity.
  - simpl. left. reflexivity.
  - reflexivity.
Defined.

(* ------------------------------------------------------------------ *)
(** ** The delivery paths *)

Section EmailPath.

Context {St : Type}.
Variable storage : IStorage St.
Variable kind : string.
Variable send : string -> Game -> string -> Result bool.
Variable game : Game.
Variable subscriber : Subscription.
Variable r : Run St.

Let g := game_id game.
Let s := sub_id subscriber.

Let opening := emailOpening kind game subscriber.


(** The calls of one email iteration: either no email is sent, or the
    claim succeeded and the iteration opens with claim, mark-sending,
    send. *)
Lemma email_calls_shape :
  exists added,
    calls (runOf (notifyByEmail storage kind send game subscriber r))
    = (calls r ++ added)%list
    /\ (existsb isSendEmail added = false
        \/ (fst (tryRecordNotificationAtomically storage g s kind (store r))
            = Ok true
            /\ exists rest, added = (opening ++ rest)%list)).
Proof.
  unfold notifyByEmail. fold g s.
  destruct (tryRecordNotificationAtomically storage g s kind (store r))
    as [[[|]|] st1]; cbn [store called].
  2,3: (eexists; split; [reflexivity|left; reflexivity]).
  destruct (markNotificationSending storage g s kind st1)
    as [[marked|] st2]; cbn [store called noted].
  2: (eexists; split; [simpl; rewrite <- app_assoc; reflexivity
                      |left; reflexivity]).
  destruct (send (email subscriber) game (unsubscribeToken subscriber))
    as [[|]|].
  - destruct (markNotificationSent storage g s kind st2) as [[sent|] st3];
      simpl; eexists;
      (split; [rewrite <- !app_assoc; simpl; reflexivity|]);
      right; (split; [reflexivity|]); eexists; reflexivity.
  - destruct (deleteNotificationRecord storage g s kind st2)
      as [[deleted|] st3];
      simpl; eexists;
      (split; [rewrite <- !app_assoc; simpl; reflexivity|]);
      right; (split; [reflexivity|]); eexists; reflexivity.
  - destruct (deleteNotificationRecord storage g s kind st2)
      as [[deleted|] st3];
      simpl; eexists;
      (split; [rewrite <- !app_assoc; simpl; reflexivity|]);
      right; (split; [reflexivity|]); eexists; reflexivity.
Qed.

End EmailPath.

Section PushPath.

Context {St : Type}.
Variable storage : IStorage St.
Variable messaging : string -> string -> string -> MessagingOutcome.
Variable needs24Hour : bool.
Variable game : Game.
Variable pushSub : PushSubscription.
Variable r : Run St.

Let g := game_id game.
Let s := push_id pushSub.
Let notifType := if needs24Hour then "24hour-push" else "gameday-push".

(** The calls of one push iteration: [markNotificationSending] is never
    among them, and a push that is sent comes straight after the
    successful claim. *)
Lemma push_calls_shape :
  exists added,
    calls (runOf (notifyByPush storage messaging needs24Hour game pushSub r))
    = (calls r ++ added)%list
    /\ existsb isMarkSending added = false
    /\ (existsb isSendPush added = false
        \/ (fst (tryRecordNotificationAtomically
                   storage g s notifType (store r)) = Ok true
            /\ exists title body rest,
                added
                = (CallTryRecord g s notifType
                   :: CallSendPush (fcmToken pushSub) title body
                   :: rest))).
Proof.
  unfold notifyByPush. fold g s notifType.
  destruct (tryRecordNotificationAtomically storage g s notifType (store r))
    as [[[|]|] st1]; cbn [store called noted].
  2,3: (eexists; split; [reflexivity|split; [reflexivity|left; reflexivity]]).
  match goal with
  | |- context [FirebaseAdmin.sendPushNotification ?m ?a ?b ?c] =>
      destruct (FirebaseAdmin.sendPushNotification m a b c)
  end.
  - destruct (markNotificationSent storage g s notifType st1)
      as [[sent|] st2];
      simpl; eexists;
      (split; [rewrite <- !app_assoc; simpl; reflexivity|]);
      (split; [reflexivity|]);
      right; (split; [reflexivity|]); do 3 eexists; reflexivity.
  - destruct (deleteNotificationRecord storage g s notifType st1)
      as [[deleted|] st2]; cbn [store called].
    + destruct (deletePushSubscriptionByToken storage (fcmToken pushSub) st2)
        as [[removed|] st3];
        simpl; eexists;
        (split; [rewrite <- !app_assoc; simpl; reflexivity|]);
        (split; [reflexivity|]);
        right; (split; [reflexivity|]); do 3 eexists; reflexivity.
    + simpl; eexists;
        (split; [rewrite <- !app_assoc; simpl; reflexivity|]);
        (split; [reflexivity|]);
        right; (split; [reflexivity|]); do 3 eexists; reflexivity.
Qed.

(** After a successful claim the push iteration makes no storage call
    before the send, and after the send it calls [markNotificationSent] or
    [deleteNotificationRecord] on the store as the claim left it. *)
Lemma push_after_claim (st1 : St) :
  tryRecordNotificationAtomically storage g s notifType (store r)
  = (Ok true, st1) ->
  exists title body,
    let after :=
      runOf (notifyByPush storage messaging needs24Hour game pushSub r) in
    if FirebaseAdmin.sendPushNotification messaging (fcmToken pushSub)
                                          title body
    then
      store after = snd (markNotificationSent storage g s notifType st1)
      /\ calls after
         = (calls r
            ++ [CallTryRecord g s notifType;
                CallSendPush (fcmToken pushSub) title body;
                CallMarkSent g s notifType])%list
    else
      exists rest,
        calls after
        = (calls r
           ++ CallTryRecord g s notifType
              :: CallSendPush (fcmToken pushSub) title body
              :: CallDeleteRecord g s notifType :: rest)%list
        /\ match deleteNotificationRecord storage g s notifType st1 with
           | (Threw, st2) => store after = st2 /\ rest = []
           | (Ok _, st2) =>
               store after
               = snd (deletePushSubscriptionByToken
                        storage (fcmToken pushSub) st2)
               /\ rest = [CallDeletePushSubscription (fcmToken pushSub)]
           end.
Proof.
  intros Hclaim. unfold notifyByPush. fold g s notifType.
  rewrite Hclaim. cbn [store called noted].
  match goal with
  | |- context [FirebaseAdmin.sendPushNotification ?m ?a ?b ?c] =>
      exists b, c; cbv zeta;
      destruct (FirebaseAdmin.sendPushNotification m a b c)
  end.
  - destruct (markNotificationSent storage g s notifType st1)
      as [[sent|] st2]; simpl;
      (split; [reflexivity|rewrite <- !app_assoc; reflexivity]).
  - destruct (deleteNotificationRecord storage g s notifType st1)
      as [[deleted|] st2]; cbn [store called].
    + destruct (deletePushSubscriptionByToken storage (fcmToken pushSub) st2)
        as [[removed|] st3]; simpl; eexists;
        (split; [rewrite <- !app_assoc; simpl; reflexivity|]);
        split; reflexivity.
    + simpl; eexists;
        (split; [rewrite <- !app_assoc; simpl; reflexivity|]);
        split; reflexivity.
Qed.

End PushPath.

(** [markNotificationSending] answers true exactly when its update is not
    rejected and some row of the key is [Pending]; the rows it reaches are
    those rows, which become [Sending] with [createdAt] refreshed. *)
Lemma markSending_spec (c : Conditions) (now : Z) (g s t : string)
      (tb : Table) :
  let before := concurrent c 0 tb in
  let pendingOfKey r := Sql.sameKey g s t r && Status_eqb (status r) Pending in
  (fst (DbStorage.markNotificationSending c now g s t tb) = Ok true
   <-> rejects c 0 = false
       /\ exists r, In r (rows before)
                    /\ Sql.sameKey g s t r = true /\ status r = Pending)
  /\ (rejects c 0 = false ->
      rows (snd (DbStorage.markNotificationSending c now g s t tb))
      = map (fun r => if pendingOfKey r
                      then DbStorage.withStatusAndCreatedAt Sending now r
                      else r)
            (rows before)).
Proof.
  intros before pendingOfKey.
  unfold DbStorage.markNotificationSending, Sql.updateWhere. cbv zeta.
  fold before. destruct (rejects c 0); simpl.
  - split; [|discriminate]. split; [discriminate|intros [? _]; discriminate].
  - split; [|reflexivity].
    rewrite returned_some. split.
    + intros [= Hsome]. split; [reflexivity|].
      apply existsb_exists in Hsome. destruct Hsome as (r & Hr & Hp).
      rewrite andb_true_iff, Status_eqb_eq in Hp. exists r. tauto.
    + intros [_ (r & Hr & Hkey & Hpending)]. f_equal.
      apply existsb_exists. exists r. split; [exact Hr|].
      rewrite Hkey, Hpending. reflexivity.
Qed.

(** *** The order of the calls of a whole pass *)

Lemma sendsInOrder_nil : sendsInOrder [].
Proof. intros [|x pre] c post Heq; discriminate. Qed.

Lemma sendsInOrder_app (l1 l2 : list Call) :
  sendsInOrder l1 -> sendsInOrder l2 -> sendsInOrder (l1 ++ l2).
Proof.
  intros H1 H2 pre c post Heq.
  apply app_eq_app in Heq. destruct Heq as [l [[Hl1 Hrest]|[Hpre Hl2]]].
  - destruct l as [|c' l].
    + simpl in Hrest. rewrite app_nil_r in Hl1. subst l1.
      specialize (H2 [] c post (eq_sym Hrest)).
      destruct c; try exact I.
      * destruct H2 as (pre' & s & Hnil).
        destruct pre'; discriminate.
      * destruct H2 as (pre' & g & s & t & Hnil).
        destruct pre'; discriminate.
    + injection Hrest as <- _. exact (H1 pre c l Hl1).
  - specialize (H2 l c post Hl2). subst pre.
    destruct c; try exact I.
    + destruct H2 as (pre' & s & ->). exists (l1 ++ pre')%list, s.
      apply app_assoc.
    + destruct H2 as (pre' & g & s & t & ->).
      exists (l1 ++ pre')%list, g, s, t. apply app_assoc.
Qed.

Lemma sendsInOrder_ledger (c : Call) :
  isLedgerCall c = true -> sendsInOrder [c].
Proof.
  intros Hc [|x [|y pre]] c' post Heq; try discriminate.
  injection Heq as <- _. destruct c; try exact I; discriminate.
Qed.

Lemma sendsInOrder_email (g s kind mail : string) :
  sendsInOrder [CallTryRecord g s kind; CallMarkSending g s kind;
                CallSendEmail kind mail g].
Proof.
  intros [|x1 [|x2 [|x3 [|x4 pre]]]] c post Heq; try discriminate;
    injection Heq as <-; intros; subst; try exact I.
  exists [], s. reflexivity.
Qed.

Lemma sendsInOrder_push (g s t token title body : string) :
  sendsInOrder [CallTryRecord g s t; CallSendPush token title body].
Proof.
  intros [|x1 [|x2 [|x3 pre]]] c post Heq; try discriminate;
    injection Heq as <-; intros; subst; try exact I.
  exists [], g, s, t. reflexivity.
Qed.

Lemma extendsInOrder_refl {St : Type} (r r' : Run St) :
  calls r' = calls r -> extendsInOrder r r'.
Proof.
  intros Heq. exists []. rewrite app_nil_r. split; [exact Heq|].
  apply sendsInOrder_nil.
Qed.

Lemma extendsInOrder_trans {St : Type} (r1 r2 r3 : Run St) :
  extendsInOrder r1 r2 -> extendsInOrder r2 r3 -> extendsInOrder r1 r3.
Proof.
  intros (a1 & H1 & Ho1) (a2 & H2 & Ho2). exists (a1 ++ a2)%list.
  split; [rewrite H2, H1; symmetry; apply app_assoc|].
  apply sendsInOrder_app; assumption.
Qed.

Lemma forEach_in_order {St A : Type} (body : A -> Run St -> Flow St)
      (l : list A) :
  (forall x r, extendsInOrder r (runOf (body x r))) ->
  forall r, extendsInOrder r (runOf (forEach body l r)).
Proof.
  intros Hbody. induction l as [|x l IH]; intros r; simpl.
  - apply extendsInOrder_refl. reflexivity.
  - specialize (Hbody x r). destruct (body x r) as [r'|r']; simpl in *.
    + eapply extendsInOrder_trans; [exact Hbody|apply IH].
    + exact Hbody.
Qed.

Ltac in_order_block :=
  simpl; eexists;
  (split; [rewrite <- ?app_assoc; simpl; reflexivity|]);
  repeat first
         [ apply sendsInOrder_nil
         | apply sendsInOrder_ledger; reflexivity
         | apply (sendsInOrder_app [_; _; _] _); [apply sendsInOrder_email|]
         | apply (sendsInOrder_app [_; _] _); [apply sendsInOrder_push|]
         | apply (sendsInOrder_app [_] _);
           [apply sendsInOrder_ledger; reflexivity|] ].

Section PassOrder.

Context {St : Type}.
Variable storage : IStorage St.
Variable emailService : EmailService.
Variable messaging : string -> string -> string -> MessagingOutcome.
Variables tz now : Z.

Lemma notifyByEmail_in_order (kind : string)
      (send : string -> Game -> string -> Result bool)
      (game : Game) (subscriber : Subscription) (r : Run St) :
  extendsInOrder r (runOf (notifyByEmail storage kind send game subscriber r)).
Proof.
  unfold notifyByEmail, extendsInOrder.
  destruct (tryRecordNotificationAtomically
              storage (game_id game) (sub_id subscriber) kind (store r))
    as [[[|]|] st1]; cbn [store called]; [|in_order_block..].
  destruct (markNotificationSending
              storage (game_id game) (sub_id subscriber) kind st1)
    as [[marked|] st2]; cbn [store called noted]; [|in_order_block].
  destruct (send (email subscriber) game (unsubscribeToken subscriber))
    as [[|]|].
  - destruct (markNotificationSent
                storage (game_id game) (sub_id subscriber) kind st2)
      as [[sent|] st3]; in_order_block.
  - destruct (deleteNotificationRecord
                storage (game_id game) (sub_id subscriber) kind st2)
      as [[deleted|] st3]; in_order_block.
  - destruct (deleteNotificationRecord
                storage (game_id game) (sub_id subscriber) kind st2)
      as [[deleted|] st3]; in_order_block.
Qed.

Lemma notifyByPush_in_order (needs24Hour : bool) (game : Game)
      (pushSub : PushSubscription) (r : Run St) :
  extendsInOrder
    r (runOf (notifyByPush storage messaging needs24Hour game pushSub r)).
Proof.
  unfold notifyByPush, extendsInOrder.
  match goal with
  | |- context [tryRecordNotificationAtomically ?a ?b ?c ?d ?e] =>
      destruct (tryRecordNotificationAtomically a b c d e) as [[[|]|] st1]
  end; cbn [store called noted]; [|in_order_block..].
  match goal with
  | |- context [FirebaseAdmin.sendPushNotification ?m ?a ?b ?c] =>
      destruct (FirebaseAdmin.sendPushNotification m a b c)
  end.
  - match goal with
    | |- context [markNotificationSent ?a ?b ?c ?d ?e] =>
        destruct (markNotificationSent a b c d e) as [[sent|] st2]
    end; in_order_block.
  - match goal with
    | |- context [deleteNotificationRecord ?a ?b ?c ?d ?e] =>
        destruct (deleteNotificationRecord a b c d e) as [[deleted|] st2]
    end; cbn [store called]; [|in_order_block].
    destruct (deletePushSubscriptionByToken storage (fcmToken pushSub) st2)
      as [[removed|] st3]; in_order_block.
Qed.

Lemma emailGame_in_order (subs : list Subscription) (game : Game)
      (r : Run St) :
  extendsInOrder
    r (runOf (emailGame storage emailService tz now subs game r)).
Proof.
  unfold emailGame.
  destruct (negb (needs24HourNotification tz now game)
            && negb (needsMorningNotification tz now game));
    [apply extendsInOrder_refl; reflexivity|].
  set (interested := filter _ subs).
  assert (H24 : extendsInOrder r
            (runOf (if needs24HourNotification tz now game
                    then forEach (notifyByEmail
                                    storage "24hour"
                                    (send24HourReminder emailService) game)
                                 interested (countGameIn24Hours r)
                    else Next r))).
  { destruct (needs24HourNotification tz now game);
      [|apply extendsInOrder_refl; reflexivity].
    eapply extendsInOrder_trans;
      [apply (extendsInOrder_refl r (countGameIn24Hours r)); reflexivity|].
    apply forEach_in_order. intros. apply notifyByEmail_in_order. }
  destruct (if needs24HourNotification tz now game then _ else _)
    as [r1|r1]; simpl in H24; [|exact H24].
  eapply extendsInOrder_trans; [exact H24|].
  destruct (needsMorningNotification tz now game);
    [|apply extendsInOrder_refl; reflexivity].
  eapply extendsInOrder_trans;
    [apply (extendsInOrder_refl r1 (countGameMorningOf r1)); reflexivity|].
  apply forEach_in_order. intros. apply notifyByEmail_in_order.
Qed.

Lemma pushGame_in_order (pushSubs : list PushSubscription) (game : Game)
      (r : Run St) :
  extendsInOrder
    r (runOf (pushGame storage messaging tz now pushSubs game r)).
Proof.
  unfold pushGame.
  destruct (negb (needs24HourNotification tz now game)
            && negb (needsMorningNotification tz now game));
    [apply extendsInOrder_refl; reflexivity|].
  apply forEach_in_order. intros. apply notifyByPush_in_order.
Qed.

Lemma pushPart_in_order (games : list Game) (r : Run St) :
  extendsInOrder r (pushPart storage messaging tz now games r).
Proof.
  unfold pushPart.
  destruct (getAllPushSubscriptions storage (store r)) as [[pushSubs|] st1];
    [|apply extendsInOrder_refl; reflexivity].
  destruct (0 <? List.length pushSubs)%nat;
    [|apply extendsInOrder_refl; reflexivity].
  pose proof (forEach_in_order
                (pushGame storage messaging tz now pushSubs) games
                (fun x r0 => pushGame_in_order pushSubs x r0)
                (withStore st1 r)) as Hloop.
  destruct (forEach _ games (withStore st1 r)) as [r1|r1]; simpl in Hloop;
    (eapply extendsInOrder_trans;
     [apply (extendsInOrder_refl r (withStore st1 r)); reflexivity|]).
  - exact Hloop.
  - eapply extendsInOrder_trans; [exact Hloop|].
    apply extendsInOrder_refl. reflexivity.
Qed.

Lemma pass_in_order (st : St) :
  sendsInOrder
    (calls (checkAndSendNotifications
              storage emailService messaging tz now st)).
Proof.
  assert (Hstart : forall r : Run St,
             calls r = [] -> forall r', extendsInOrder r r' ->
             sendsInOrder (calls r')).
  { intros r Hr r' (added & -> & Hadded). rewrite Hr. exact Hadded. }
  unfold checkAndSendNotifications. cbn [store].
  destruct (getAllGames storage st) as [[games|] st1];
    [|apply sendsInOrder_nil].
  cbn [store withStore].
  destruct (getAllSubscriptions storage st1) as [[subs|] st2];
    [|apply sendsInOrder_nil].
  destruct (List.length subs =? 0)%nat; [apply sendsInOrder_nil|].
  set (r0 := withStore st2 _).
  pose proof (forEach_in_order
                (emailGame storage emailService tz now subs) games
                (fun x r => emailGame_in_order subs x r) r0) as Hloop.
  destruct (forEach _ games r0) as [r1|r1]; simpl in Hloop.
  - apply (Hstart r0 eq_refl).
    eapply extendsInOrder_trans; [exact Hloop|apply pushPart_in_order].
  - apply (Hstart r0 eq_refl).
    eapply extendsInOrder_trans; [exact Hloop|].
    apply extendsInOrder_refl. reflexivity.
Qed.

End PassOrder.

(** C6, as the claim states it, fails on the push path: the push of the
    sample pass is sent and no call of [markNotificationSending] is made
    in the whole pass. *)
Lemma push_is_sent_without_markSending :
  let r := checkAndSendNotifications
             (Db.quiet Sample.dayBefore) Sample.emailWorks Sample.pushWorks
             0 Sample.dayBefore (Sample.database [Sample.bob] [Sample.phone]) in
  existsb isSendPush (calls r) = true
  /\ existsb isMarkSending (calls r) = false.
Proof. vm_compute. split; reflexivity. Qed.



(* ------------------------------------------------------------------ *)
(** ** Failed deliveries *)

Section QuietStorage.
Import Sql.

Variables (g s t : string) (d : Database).

Lemma quiet_markSending (now : Z) :
  exists marked d',
    markNotificationSending (Db.quiet now) g s t d = (Ok marked, d').
Proof. do 2 eexists. reflexivity. Qed.

Lemma quiet_markSent (now : Z) :
  exists sent d',
    markNotificationSent (Db.quiet now) g s t d = (Ok sent, d').
Proof. do 2 eexists. reflexivity. Qed.

(** After the delete no row of the key is left, and the other tables
    are as before. *)
Lemma quiet_delete (now : Z) :
  exists deleted d',
    deleteNotificationRecord (Db.quiet now) g s t d = (Ok deleted, d')
    /\ selectWhere (sameKey g s t) (sentNotifications d') = []
    /\ pushSubscriptions d' = pushSubscriptions d.
Proof.
  do 2 eexists. split; [reflexivity|]. split; [|reflexivity].
  simpl. unfold selectWhere. simpl.
  induction (rows (sentNotifications d)) as [|r l IH]; [reflexivity|].
  simpl. destruct (sameKey g s t r) eqn:Hkey; simpl;
    [exact IH|rewrite Hkey; exact IH].
Qed.

Lemma select_none_no_key (tb : Table) :
  selectWhere (sameKey g s t) tb = [] ->
  existsb (sameKey g s t) (rows tb) = false.
Proof.
  unfold selectWhere. intros Hnone.
  rewrite <- (deleted_some (sameKey g s t)), Hnone. reflexivity.
Qed.

(** With no record of the key, the claim is an insert and succeeds. *)
Lemma quiet_claim_free (now : Z) :
  selectWhere (sameKey g s t) (sentNotifications d) = [] ->
  fst (tryRecordNotificationAtomically (Db.quiet now) g s t d) = Ok true.
Proof.
  intros Hnone. apply select_none_no_key in Hnone.
  simpl. unfold Db.onTable, DbStorage.tryRecordNotificationAtomically.
  cbn [alone rejects concurrent]. unfold insertPending.
  rewrite Hnone. reflexivity.
Qed.

End QuietStorage.

Lemma quiet_deletePush (now : Z) (token : string) (d : Database) :
  exists removed d',
    deletePushSubscriptionByToken (Db.quiet now) token d = (Ok removed, d')
    /\ sentNotifications d' = sentNotifications d
    /\ (forall p, In p (pushSubscriptions d') -> fcmToken p <> token).
Proof.
  do 2 eexists. split; [reflexivity|]. split; [reflexivity|].
  simpl. intros p Hp Heq. apply filter_In in Hp.
  destruct Hp as [_ Hne]. rewrite Heq, String.eqb_refl in Hne. discriminate.
Qed.

Section FailedDelivery.

Variable now : Z.
Variable game : Game.
Variable r : Run Database.

Lemma failed_email_releases_claim (kind : string)
      (send : string -> Game -> string -> Result bool)
      (subscriber : Subscription) :
  fst (tryRecordNotificationAtomically
         (Db.quiet now) (game_id game) (sub_id subscriber) kind (store r))
  = Ok true ->
  send (email subscriber) game (unsubscribeToken subscriber) <> Ok true ->
  exists r' e,
    notifyByEmail (Db.quiet now) kind send game subscriber r = Next r'
    /\ errors (result r') = (errors (result r) ++ [e])%list
    /\ emailsSent (result r') = emailsSent (result r)
    /\ Sql.selectWhere (Sql.sameKey (game_id game) (sub_id subscriber) kind)
                       (sentNotifications (store r')) = []
    /\ forall later,
        fst (tryRecordNotificationAtomically
               (Db.quiet later) (game_id game) (sub_id subscriber) kind
               (store r')) = Ok true.
Proof.
  intros Hclaim Hfail. unfold notifyByEmail.
  destruct (tryRecordNotificationAtomically
              (Db.quiet now) (game_id game) (sub_id subscriber) kind
              (store r)) as [claimed d1].
  simpl in Hclaim. subst claimed. cbn [store called noted].
  destruct (quiet_markSending (game_id game) (sub_id subscriber) kind d1 now)
    as (marked & d2 & ->).
  cbn [store called noted].
  destruct (quiet_delete (game_id game) (sub_id subscriber) kind d2 now)
    as (deleted & d3 & Hdelete & Hgone & _).
  destruct (send (email subscriber) game (unsubscribeToken subscriber))
    as [[|]|]; [congruence| |];
    rewrite Hdelete; do 2 eexists;
    (split; [reflexivity|]); simpl;
    (split; [reflexivity|]); (split; [reflexivity|]);
    (split; [exact Hgone|]);
    intros later; apply quiet_claim_free, Hgone.
Qed.

Lemma failed_push_releases_claim
      (messaging : string -> string -> string -> MessagingOutcome)
      (needs24Hour : bool) (pushSub : PushSubscription) :
  let notifType := if needs24Hour then "24hour-push" else "gameday-push" in
  fst (tryRecordNotificationAtomically
         (Db.quiet now) (game_id game) (push_id pushSub) notifType (store r))
  = Ok true ->
  (forall title body, messaging (fcmToken pushSub) title body <> Accepted) ->
  exists r',
    notifyByPush (Db.quiet now) messaging needs24Hour game pushSub r
    = Next r'
    /\ errors (result r') = errors (result r)
    /\ emailsSent (result r') = emailsSent (result r)
    /\ Sql.selectWhere (Sql.sameKey (game_id game) (push_id pushSub)
                                    notifType)
                       (sentNotifications (store r')) = []
    /\ forall later,
        fst (tryRecordNotificationAtomically
               (Db.quiet later) (game_id game) (push_id pushSub) notifType
               (store r')) = Ok true.
Proof.
  intros notifType Hclaim Hfail. unfold notifyByPush. fold notifType.
  destruct (tryRecordNotificationAtomically
              (Db.quiet now) (game_id game) (push_id pushSub) notifType
              (store r)) as [claimed d1].
  simpl in Hclaim. subst claimed. cbn [store called noted].
  match goal with
  | |- context [FirebaseAdmin.sendPushNotification ?m ?a ?b ?c] =>
      assert (Hpush : FirebaseAdmin.sendPushNotification m a b c = false)
  end.
  { unfold FirebaseAdmin.sendPushNotification.
    match goal with
    | |- context [messaging ?a ?b ?c] =>
        pose proof (Hfail b c) as Hno; destruct (messaging a b c)
    end; [congruence|].
    match goal with |- (if ?b then _ else _) = _ => destruct b end;
      reflexivity. }
  rewrite Hpush.
  destruct (quiet_delete (game_id game) (push_id pushSub) notifType d1 now)
    as (deleted & d2 & -> & Hgone & _).
  cbn [store called].
  destruct (quiet_deletePush now (fcmToken pushSub) d2)
    as (removed & d3 & -> & Hsame & _).
  eexists. split; [reflexivity|]. simpl.
  split; [reflexivity|]. split; [reflexivity|].
  rewrite Hsame. split; [exact Hgone|].
  intros later. apply quiet_claim_free. rewrite Hsame. exact Hgone.
Qed.

End FailedDelivery.

(** C3, as the claim states it, fails for a push kind: the claim of the
    sample push succeeds, the push capability fails, the record is
    deleted, and the pass ends with an empty error list. *)
Lemma push_failure_leaves_no_error_entry :
  let d := Sample.database [Sample.bob] [Sample.phone] in
  let r := checkAndSendNotifications
             (Db.quiet Sample.dayBefore) Sample.emailWorks
             Sample.pushUnavailable 0 Sample.dayBefore d in
  fst (tryRecordNotificationAtomically
         (Db.quiet Sample.dayBefore) "game-1" "push-1" "24hour-push" d)
  = Ok true
  /\ FirebaseAdmin.sendPushNotification
       Sample.pushUnavailable "token-1" "Game Tomorrow: Football"
       "Lakers vs Essex at 7:00 PM | Home - Laker Field" = false
  /\ calls r
     = [CallTryRecord "game-1" "push-1" "24hour-push";
        CallSendPush "token-1" "Game Tomorrow: Football"
                     "Lakers vs Essex at 7:00 PM | Home - Laker Field";
        CallDeleteRecord "game-1" "push-1" "24hour-push";
        CallDeletePushSubscription "token-1"]
  /\ errors (result r) = [].
Proof. vm_compute. repeat split; reflexivity. Qed.

(** C3, amended.  With the ledger answering without storage errors: when
    the claim succeeded and the delivery capability then returns false or
    throws, the record of the key is deleted, so that a claim of the same
    key made right away succeeds, and the delivered count does not move.
    On the email paths one entry is added to the error list; on the push
    path the error list is left as it is. *)
Theorem failed_delivery_releases_claim :
  (forall (now : Z) (game : Game) (r : Run Database) (kind : string)
          (send : string -> Game -> string -> Result bool)
          (subscriber : Subscription),
      fst (tryRecordNotificationAtomically
             (Db.quiet now) (game_id game) (sub_id subscriber) kind (store r))
      = Ok true ->
      send (email subscriber) game (unsubscribeToken subscriber) <> Ok true ->
      exists r' e,
        notifyByEmail (Db.quiet now) kind send game subscriber r = Next r'
        /\ errors (result r') = (errors (result r) ++ [e])%list
        /\ emailsSent (result r') = emailsSent (result r)
        /\ Sql.selectWhere
             (Sql.sameKey (game_id game) (sub_id subscriber) kind)
             (sentNotifications (store r')) = []
        /\ forall later,
            fst (tryRecordNotificationAtomically
                   (Db.quiet later) (game_id game) (sub_id subscriber) kind
                   (store r')) = Ok true)
  /\ (forall (now : Z) (game : Game) (r : Run Database)
             (messaging : string -> string -> string -> MessagingOutcome)
             (needs24Hour : bool) (pushSub : PushSubscription),
         let notifType :=
           if needs24Hour then "24hour-push" else "gameday-push" in
         fst (tryRecordNotificationAtomically
                (Db.quiet now) (game_id game) (push_id pushSub) notifType
                (store r)) = Ok true ->
         (forall title body,
             messaging (fcmToken pushSub) title body <> Accepted) ->
         exists r',
           notifyByPush (Db.quiet now) messaging needs24Hour game pushSub r
           = Next r'
           /\ errors (result r') = errors (result r)
           /\ emailsSent (result r') = emailsSent (result r)
           /\ Sql.selectWhere
                (Sql.sameKey (game_id game) (push_id pushSub) notifType)
                (sentNotifications (store r')) = []
           /\ forall later,
               fst (tryRecordNotificationAtomically
                      (Db.quiet later) (game_id game) (push_id pushSub)
                      notifType (store r')) = Ok true).
Proof.
  split.
  - intros. apply failed_email_releases_claim; assumption.
  - intros. apply failed_push_releases_claim; assumption.
Qed.

(** C3 on the sample data: alice's email throws, the phone's push is
    rejected. *)
Lemma failed_delivery_on_sample :
  (exists r' e,
      notifyByEmail (Db.quiet Sample.dayBefore) "24hour"
                    (send24HourReminder Sample.emailThrows)
                    Sample.football Sample.alice
                    (Sample.start (Sample.database [Sample.alice] []))
      = Next r'
      /\ errors (result r') = [e]
      /\ emailsSent (result r') = 0%nat)
  /\ (exists r',
         notifyByPush (Db.quiet Sample.dayBefore) Sample.pushUnavailable true
                      Sample.football Sample.phone
                      (Sample.start (Sample.database [] [Sample.phone]))
         = Next r'
         /\ errors (result r') = []
         /\ emailsSent (result r') = 0%nat).
Proof.
  split.
  - destruct (proj1 failed_delivery_releases_claim
                    Sample.dayBefore Sample.football
                    (Sample.start (Sample.database [Sample.alice] []))
                    "24hour" (send24HourReminder Sample.emailThrows)
                    Sample.alice)
      as (r' & e & Hstep & Herrors & Hsent & _).
    + reflexivity.
    + simpl. discriminate.
    + exists r', e. repeat split; assumption.
  - destruct (proj2 failed_delivery_releases_claim
                    Sample.dayBefore Sample.football
                    (Sample.start (Sample.database [] [Sample.phone]))
                    Sample.pushUnavailable true Sample.phone)
      as (r' & Hstep & Herrors & Hsent & _).
    + reflexivity.
    + intros title body. discriminate.
    + exists r'. repeat split; assumption.
Defined.

(** Every rejection of a message, whatever its code, makes
    [sendPushNotification] return [false]. *)
Lemma sendPushNotification_rejected
      (messaging : string -> string -> string -> MessagingOutcome)
      (token title body : string) (code : option string) :
  messaging token title body = Rejected code ->
  FirebaseAdmin.sendPushNotification messaging token title body = false.
Proof.
  unfold FirebaseAdmin.sendPushNotification. intros ->.
  match goal with |- (if ?b then _ else _) = _ => destruct b end; reflexivity.
Qed.

(** C7: what the code does on a push failure that is not a token error.
    The message is rejected with a code that is neither of the two token
    codes; [sendPushNotification] returns the same [false] as for a token
    error, and the pass deletes the push target: the target registry ends
    up empty. *)
Theorem transient_push_failure_deletes_push_target :
  let r := checkAndSendNotifications
             (Db.quiet Sample.dayBefore) Sample.emailWorks
             Sample.pushUnavailable 0 Sample.dayBefore
             (Sample.database [Sample.bob] [Sample.phone]) in
  FirebaseAdmin.isCode "messaging/registration-token-not-registered"
                       (Some "messaging/server-unavailable") = false
  /\ FirebaseAdmin.isCode "messaging/invalid-registration-token"
                          (Some "messaging/server-unavailable") = false
  /\ FirebaseAdmin.sendPushNotification
       Sample.pushUnavailable "token-1" "Game Tomorrow: Football"
       "Lakers vs Essex at 7:00 PM | Home - Laker Field"
     = FirebaseAdmin.sendPushNotification
         Sample.pushTokenGone "token-1" "Game Tomorrow: Football"
         "Lakers vs Essex at 7:00 PM | Home - Laker Field"
  /\ In (CallDeletePushSubscription "token-1") (calls r)
  /\ pushSubscriptions (store r) = [].
Proof. vm_compute. repeat split; try reflexivity. tauto. Qed.

(** C9: what the code does when there is no email subscriber.  The sample
    game is in the 24-hour window and the phone is interested in its
    sport; with an empty email subscriber list the pass returns before the
    push part and makes no call at all, while with one email subscriber,
    interested in another sport, the push is sent. *)
Theorem no_email_subscriber_suppresses_push :
  let pass subs :=
    checkAndSendNotifications
      (Db.quiet Sample.dayBefore) Sample.emailWorks Sample.pushWorks
      0 Sample.dayBefore (Sample.database subs [Sample.phone]) in
  needs24HourNotification 0 Sample.dayBefore Sample.football = true
  /\ includes (push_sports Sample.phone) (sport Sample.football) = true
  /\ calls (pass []) = []
  /\ result (pass []) = emptyCheck
  /\ existsb isSendPush (calls (pass [Sample.bob])) = true.
Proof. vm_compute. repeat split; reflexivity. Qed.

(* ------------------------------------------------------------------ *)
(** ** The pass, attempt by attempt *)

Section Loops.

Context {St : Type}.

Lemma forEach_app {A : Type} (body : A -> Run St -> Flow St)
      (l1 l2 : list A) (r : Run St) :
  forEach body (l1 ++ l2) r
  = match forEach body l1 r with
    | Next r' => forEach body l2 r'
    | Raised r' => Raised r'
    end.
Proof.
  revert r. induction l1 as [|x l1 IH]; intros r; simpl; [reflexivity|].
  destruct (body x r); [apply IH|reflexivity].
Qed.

Lemma forEach_map {A B : Type} (f : A -> B) (body : B -> Run St -> Flow St)
      (l : list A) (r : Run St) :
  forEach body (map f l) r = forEach (fun x => body (f x)) l r.
Proof.
  revert r. induction l as [|x l IH]; intros r; simpl; [reflexivity|].
  destruct (body (f x) r); [apply IH|reflexivity].
Qed.

Lemma forEach_flat_map {A B : Type} (f : A -> list B)
      (body : B -> Run St -> Flow St) (l : list A) (r : Run St) :
  forEach body (flat_map f l) r = forEach (fun x => forEach body (f x)) l r.
Proof.
  revert r. induction l as [|x l IH]; intros r; simpl; [reflexivity|].
  rewrite forEach_app. destruct (forEach body (f x) r); [apply IH|reflexivity].
Qed.

Lemma forEach_ext {A : Type} (body body' : A -> Run St -> Flow St)
      (l : list A) (r : Run St) :
  (forall x r0, body x r0 = body' x r0) ->
  forEach body l r = forEach body' l r.
Proof.
  intros Hext. revert r. induction l as [|x l IH]; intros r; simpl;
    [reflexivity|].
  rewrite Hext. destruct (body' x r); [apply IH|reflexivity].
Qed.

Variable storage : IStorage St.
Variable emailService : EmailService.
Variable messaging : string -> string -> string -> MessagingOutcome.
Variables tz now : Z.

Let run := runAttempt storage emailService messaging.

Lemma run_email24 (game : Game) (l : list Subscription) (r : Run St) :
  forEach run (map (Email24Hour game) l) r
  = forEach (notifyByEmail storage "24hour"
                           (send24HourReminder emailService) game) l r.
Proof. rewrite forEach_map. reflexivity. Qed.

Lemma run_emailGameDay (game : Game) (l : list Subscription) (r : Run St) :
  forEach run (map (EmailGameDay game) l) r
  = forEach (notifyByEmail storage "gameday"
                           (sendGameDayReminder emailService) game) l r.
Proof. rewrite forEach_map. reflexivity. Qed.

Lemma emailGame_attempts (subs : list Subscription) (game : Game)
      (r : Run St) :
  emailGame storage emailService tz now subs game r
  = forEach run (emailAttempts tz now subs game) r.
Proof.
  unfold emailGame, emailAttempts. cbv zeta.
  rewrite forEach_app.
  destruct (needs24HourNotification tz now game),
    (needsMorningNotification tz now game); simpl;
    rewrite ?run_email24, ?run_emailGameDay; try reflexivity.
  - destruct (forEach _ _ (countGameIn24Hours r)) as [r1|r1];
      [|reflexivity].
    simpl. rewrite run_emailGameDay. reflexivity.
Qed.

Lemma pushGame_attempts (pushSubs : list PushSubscription) (game : Game)
      (r : Run St) :
  pushGame storage messaging tz now pushSubs game r
  = forEach run (pushAttempts tz now pushSubs game) r.
Proof.
  unfold pushGame, pushAttempts. cbv zeta.
  destruct (needs24HourNotification tz now game),
    (needsMorningNotification tz now game); simpl;
    rewrite ?forEach_map; reflexivity.
Qed.

Lemma email_loop_plan (subs : list Subscription) (games : list Game)
      (r : Run St) :
  forEach (emailGame storage emailService tz now subs) games r
  = forEach run (emailPlan tz now subs games) r.
Proof.
  unfold emailPlan. rewrite forEach_flat_map.
  apply forEach_ext. intros. apply emailGame_attempts.
Qed.

Lemma push_loop_plan (pushSubs : list PushSubscription) (games : list Game)
      (r : Run St) :
  forEach (pushGame storage messaging tz now pushSubs) games r
  = forEach run (pushPlan tz now pushSubs games) r.
Proof.
  unfold pushPlan. rewrite forEach_flat_map.
  apply forEach_ext. intros. apply pushGame_attempts.
Qed.

(** A relation between the run before and the run after that every
    attempt and every bookkeeping step keeps holds across a whole loop. *)
Lemma forEach_keeps {A : Type} (R : Run St -> Run St -> Prop)
      (body : A -> Run St -> Flow St) (l : list A) :
  (forall r, R r r) ->
  (forall r1 r2 r3, R r1 r2 -> R r2 r3 -> R r1 r3) ->
  (forall x r, R r (runOf (body x r))) ->
  forall r, R r (runOf (forEach body l r)).
Proof.
  intros Hrefl Htrans Hbody. induction l as [|x l IH]; intros r; simpl.
  - apply Hrefl.
  - specialize (Hbody x r). destruct (body x r) as [r'|r']; simpl in *.
    + eapply Htrans; [exact Hbody|apply IH].
    + exact Hbody.
Qed.

End Loops.

Section StoreRelations.

Context {St : Type}.
Variable storage : IStorage St.
Variable emailService : EmailService.
Variable messaging : string -> string -> string -> MessagingOutcome.
Variables tz now : Z.

(** A relation between stores that every storage call keeps. *)
Variable Q : St -> St -> Prop.
Hypothesis Q_refl : forall st, Q st st.
Hypothesis Q_trans : forall st1 st2 st3, Q st1 st2 -> Q st2 st3 -> Q st1 st3.
Hypothesis Q_ledger :
  forall m g s t st, Q st (snd (ledgerCall storage m g s t st)).
Hypothesis Q_deletePush :
  forall token st, Q st (snd (deletePushSubscriptionByToken storage token st)).
Hypothesis Q_games : forall st, Q st (snd (getAllGames storage st)).
Hypothesis Q_subscriptions :
  forall st, Q st (snd (getAllSubscriptions storage st)).
Hypothesis Q_pushSubscriptions :
  forall st, Q st (snd (getAllPushSubscriptions storage st)).

Ltac after_call :=
  match goal with
  | |- context [tryRecordNotificationAtomically storage ?g ?s ?t ?st] =>
      let H := fresh "Hcall" in
      pose proof (Q_ledger TryRecord g s t st) as H; simpl in H;
      destruct (tryRecordNotificationAtomically storage g s t st)
        as [[[|]|] ?after]
  | |- context [markNotificationSending storage ?g ?s ?t ?st] =>
      let H := fresh "Hcall" in
      pose proof (Q_ledger MarkSending g s t st) as H; simpl in H;
      destruct (markNotificationSending storage g s t st) as [[?b|] ?after]
  | |- context [markNotificationSent storage ?g ?s ?t ?st] =>
      let H := fresh "Hcall" in
      pose proof (Q_ledger MarkSent g s t st) as H; simpl in H;
      destruct (markNotificationSent storage g s t st) as [[?b|] ?after]
  | |- context [deleteNotificationRecord storage ?g ?s ?t ?st] =>
      let H := fresh "Hcall" in
      pose proof (Q_ledger DeleteRecord g s t st) as H; simpl in H;
      destruct (deleteNotificationRecord storage g s t st) as [[?b|] ?after]
  | |- context [deletePushSubscriptionByToken storage ?tok ?st] =>
      let H := fresh "Hcall" in
      pose proof (Q_deletePush tok st) as H; simpl in H;
      destruct (deletePushSubscriptionByToken storage tok st) as [[?b|] ?after]
  end; cbn [store called noted runOf onResult pushError countEmailSent
            countSkippedDuplicate] in *.

Lemma notifyByEmail_keeps_store (kind : string)
      (send : string -> Game -> string -> Result bool)
      (game : Game) (subscriber : Subscription) (r : Run St) :
  Q (store r)
    (store (runOf (notifyByEmail storage kind send game subscriber r))).
Proof.
  unfold notifyByEmail. cbv zeta. after_call; try assumption.
  after_call; [|eauto].
  destruct (send (email subscriber) game (unsubscribeToken subscriber))
    as [[|]|]; after_call; eauto.
Qed.

Lemma notifyByPush_keeps_store (needs24Hour : bool) (game : Game)
      (pushSub : PushSubscription) (r : Run St) :
  Q (store r)
    (store (runOf (notifyByPush storage messaging needs24Hour game pushSub r))).
Proof.
  unfold notifyByPush. cbv zeta. after_call; try assumption.
  match goal with
  | |- context [FirebaseAdmin.sendPushNotification ?m ?a ?b ?c] =>
      destruct (FirebaseAdmin.sendPushNotification m a b c)
  end.
  - after_call; eauto.
  - after_call; [|eauto]. after_call; eauto.
Qed.

Lemma attempt_keeps_store (a : Attempt) (r : Run St) :
  Q (store r)
    (store (runOf (runAttempt storage emailService messaging a r))).
Proof.
  destruct a; simpl; try apply Q_refl.
  - apply notifyByEmail_keeps_store.
  - apply notifyByEmail_keeps_store.
  - apply notifyByPush_keeps_store.
Qed.

Lemma plan_keeps_store (plan : list Attempt) (r : Run St) :
  Q (store r)
    (store (runOf (forEach (runAttempt storage emailService messaging)
                           plan r))).
Proof.
  revert r.
  apply (forEach_keeps (fun r r' => Q (store r) (store r'))).
  - intros. apply Q_refl.
  - intros. eapply Q_trans; eassumption.
  - intros. apply attempt_keeps_store.
Qed.

Lemma pass_keeps_store (st : St) :
  Q st (store (checkAndSendNotifications
                 storage emailService messaging tz now st)).
Proof.
  unfold checkAndSendNotifications. cbn [store].
  pose proof (Q_games st) as Hgames.
  destruct (getAllGames storage st) as [[games|] st1]; simpl in Hgames;
    [|exact Hgames].
  cbn [store withStore].
  pose proof (Q_subscriptions st1) as Hsubs.
  destruct (getAllSubscriptions storage st1) as [[subs|] st2];
    simpl in Hsubs; [|simpl; eauto].
  assert (Hst2 : Q st st2) by eauto.
  destruct (List.length subs =? 0)%nat; [exact Hst2|].
  rewrite (email_loop_plan storage emailService messaging).
  match goal with
  | |- context [forEach ?body ?plan ?r0] =>
      pose proof (plan_keeps_store plan r0) as Hemail;
      destruct (forEach body plan r0) as [r1|r1]
  end; simpl in Hemail; [|simpl; eauto].
  assert (Hr1 : Q st (store r1)) by eauto.
  unfold pushPart.
  pose proof (Q_pushSubscriptions (store r1)) as Hpush.
  destruct (getAllPushSubscriptions storage (store r1))
    as [[pushSubs|] st3]; simpl in Hpush; [|simpl; eauto].
  destruct (0 <? List.length pushSubs)%nat; [|simpl; eauto].
  rewrite (push_loop_plan storage emailService messaging).
  match goal with
  | |- context [forEach ?body ?plan ?r0] =>
      pose proof (plan_keeps_store plan r0) as Hloop;
      destruct (forEach body plan r0) as [r2|r2]
  end; simpl in Hloop; simpl; eauto.
Qed.

End StoreRelations.

Section RunRelations.

Context {St : Type}.
Variable storage : IStorage St.
Variable emailService : EmailService.
Variable messaging : string -> string -> string -> MessagingOutcome.
Variables tz now : Z.

(** A relation between runs that every attempt, every change of the
    counters or the error list and every load keeps. *)
Variable R : Run St -> Run St -> Prop.
Hypothesis R_refl : forall r, R r r.
Hypothesis R_trans : forall r1 r2 r3, R r1 r2 -> R r2 r3 -> R r1 r3.
Hypothesis R_result : forall f r, R r (onResult f r).
Hypothesis R_store :
  forall r st,
    st = snd (getAllGames storage (store r))
    \/ st = snd (getAllSubscriptions storage (store r))
    \/ st = snd (getAllPushSubscriptions storage (store r)) ->
    R r (withStore st r).
Hypothesis R_attempt :
  forall a r, R r (runOf (runAttempt storage emailService messaging a r)).

Lemma plan_keeps_run (plan : list Attempt) (r : Run St) :
  R r (runOf (forEach (runAttempt storage emailService messaging) plan r)).
Proof. revert r. apply forEach_keeps; assumption. Qed.

Lemma pass_keeps_run (st : St) :
  R {| result := emptyCheck; store := st; calls := [] |}
    (checkAndSendNotifications storage emailService messaging tz now st).
Proof.
  unfold checkAndSendNotifications.
  set (r0 := {| result := emptyCheck; store := st; calls := [] |}).
  pose proof (R_store r0 _ (or_introl eq_refl)) as Hgames.
  destruct (getAllGames storage (store r0)) as [[games|] st1];
    simpl in Hgames;
    [|eapply R_trans; [exact Hgames|apply (R_result _ (withStore st1 r0))]].
  set (r1 := withStore st1 r0) in *.
  pose proof (R_store r1 _ (or_intror (or_introl eq_refl))) as Hsubs.
  destruct (getAllSubscriptions storage (store r1)) as [[subs|] st2];
    simpl in Hsubs;
    [|eapply R_trans; [exact Hgames|];
      eapply R_trans; [exact Hsubs|apply (R_result _ (withStore st2 r1))]].
  set (r2 := withStore st2 r1) in *.
  assert (H2 : R r0 r2) by (eapply R_trans; eassumption).
  destruct (List.length subs =? 0)%nat; [exact H2|].
  rewrite (email_loop_plan storage emailService messaging).
  pose proof (plan_keeps_run (emailPlan tz now subs games) r2) as Hemail.
  destruct (forEach _ (emailPlan tz now subs games) r2) as [r3|r3];
    simpl in Hemail;
    [|eapply R_trans; [exact H2|];
      eapply R_trans; [exact Hemail|apply (R_result _ r3)]].
  assert (H3 : R r0 r3) by (eapply R_trans; eassumption).
  unfold pushPart.
  pose proof (R_store r3 _ (or_intror (or_intror eq_refl))) as Hpush.
  destruct (getAllPushSubscriptions storage (store r3))
    as [[pushSubs|] st4]; simpl in Hpush;
    [|eapply R_trans; [exact H3|];
      eapply R_trans; [exact Hpush|apply (R_result _ (withStore st4 r3))]].
  set (r4 := withStore st4 r3) in *.
  assert (H4 : R r0 r4) by (eapply R_trans; eassumption).
  destruct (0 <? List.length pushSubs)%nat; [|exact H4].
  rewrite (push_loop_plan storage emailService messaging).
  pose proof (plan_keeps_run (pushPlan tz now pushSubs games) r4) as Hloop.
  destruct (forEach _ (pushPlan tz now pushSubs games) r4) as [r5|r5];
    simpl in Hloop.
  - eapply R_trans; eassumption.
  - eapply R_trans; [exact H4|].
    eapply R_trans; [exact Hloop|apply (R_result _ r5)].
Qed.

End RunRelations.

(* ------------------------------------------------------------------ *)
(** ** The record of a key under the ledger methods *)

Section KeyRecords.
Import Sql.

Lemma sameKey_keyOf (g s t : string) (r : SentNotification) :
  sameKey g s t r = true <-> keyOf r = (g, s, t).
Proof.
  unfold sameKey, keyOf. rewrite !andb_true_iff, !String.eqb_eq.
  split; [intros [[-> ->] ->]; reflexivity|intros [= -> -> ->]; auto].
Qed.

Lemma sameKey_by_key (g s t : string) (r r' : SentNotification) :
  keyOf r' = keyOf r -> sameKey g s t r' = sameKey g s t r.
Proof.
  unfold keyOf, sameKey. intros [= -> -> ->]. reflexivity.
Qed.

Lemma select_after_map (g s t : string)
      (f : SentNotification -> SentNotification)
      (l : list SentNotification) :
  (forall r, keyOf (f r) = keyOf r) ->
  filter (sameKey g s t) (map f l) = map f (filter (sameKey g s t) l).
Proof.
  intros Hkey. induction l as [|r l IH]; simpl; [reflexivity|].
  rewrite (sameKey_by_key g s t r (f r) (Hkey r)).
  destruct (sameKey g s t r); simpl; rewrite IH; reflexivity.
Qed.

Lemma keyOf_withStatusAndCreatedAt (st : Status) (now : Z)
      (r : SentNotification) :
  keyOf (DbStorage.withStatusAndCreatedAt st now r) = keyOf r.
Proof. reflexivity. Qed.

Lemma keyOf_withSent (now : Z) (r : SentNotification) :
  keyOf (DbStorage.withSent now r) = keyOf r.
Proof. reflexivity. Qed.

(** The first record of a key after an update that keeps keys. *)
Lemma firstOfKey_update (g s t : string) (p : SentNotification -> bool)
      (set : SentNotification -> SentNotification) (tb : Table) :
  (forall r, keyOf (set r) = keyOf r) ->
  firstOfKey g s t (snd (updateWhere p set tb))
  = option_map (fun r => if p r then set r else r) (firstOfKey g s t tb).
Proof.
  intros Hkey. unfold firstOfKey, selectWhere, updateWhere. simpl.
  rewrite select_after_map.
  - destruct (filter (sameKey g s t) (rows tb)); reflexivity.
  - intros r. destruct (p r); [apply Hkey|reflexivity].
Qed.

Lemma firstOfKey_insert (now : Z) (g s t g' s' t' : string)
      (tb tb' : Table) (record : SentNotification) :
  insertPending now g' s' t' tb = Some tb' ->
  firstOfKey g s t tb = Some record ->
  firstOfKey g s t tb' = Some record.
Proof.
  unfold insertPending, firstOfKey, selectWhere.
  destruct (existsb (sameKey g' s' t') (rows tb)); [discriminate|].
  intros [= <-]. simpl. rewrite filter_app.
  destruct (filter (sameKey g s t) (rows tb)); [discriminate|].
  intros Hfirst. exact Hfirst.
Qed.

Lemma firstOfKey_delete (g s t g' s' t' : string) (tb : Table) :
  (g', s', t') <> (g, s, t) ->
  firstOfKey g s t (snd (deleteWhere (sameKey g' s' t') tb))
  = firstOfKey g s t tb.
Proof.
  intros Hother. unfold firstOfKey, selectWhere, deleteWhere. simpl.
  f_equal. induction (rows tb) as [|r l IH]; simpl; [reflexivity|].
  destruct (sameKey g' s' t' r) eqn:Hk'; simpl.
  - destruct (sameKey g s t r) eqn:Hk; [|exact IH].
    exfalso. apply Hother.
    apply sameKey_keyOf in Hk, Hk'. congruence.
  - destruct (sameKey g s t r); rewrite IH; reflexivity.
Qed.

Lemma firstOfKey_some (g s t : string) (tb : Table) :
  existsb (sameKey g s t) (rows tb) = true
  <-> exists record, firstOfKey g s t tb = Some record.
Proof.
  unfold firstOfKey, selectWhere.
  rewrite <- (deleted_some (sameKey g s t)).
  destruct (filter (sameKey g s t) (rows tb)) as [|record more]; simpl.
  - split; [discriminate|intros [? ?]; discriminate].
  - split; [eauto|reflexivity].
Qed.

Lemma firstOfKey_in (g s t : string) (tb : Table)
      (record : SentNotification) :
  firstOfKey g s t tb = Some record ->
  In record (rows tb) /\ sameKey g s t record = true.
Proof.
  unfold firstOfKey, selectWhere. intros Hfirst.
  apply filter_In.
  destruct (filter (sameKey g s t) (rows tb)); [discriminate|].
  injection Hfirst as ->. left. reflexivity.
Qed.

Section Kept.

(** A property of records that the updates made at clock [now] keep. *)
Variable now : Z.
Variable P : SentNotification -> Prop.
Hypothesis P_reset :
  forall r st, P r -> status r <> Sent ->
               P (DbStorage.withStatusAndCreatedAt st now r).
Hypothesis P_sent : forall r, P r -> P (DbStorage.withSent now r).

Variable c : Conditions.
Hypothesis nobodyElse : undisturbed c.
Variables g s t : string.

Let firstIs (tb : Table) : Prop :=
  exists record, firstOfKey g s t tb = Some record /\ P record.

Lemma firstIs_update (p : SentNotification -> bool)
      (set : SentNotification -> SentNotification) (tb : Table) :
  (forall r, keyOf (set r) = keyOf r) ->
  (forall r, P r -> p r = true -> P (set r)) ->
  firstIs tb -> firstIs (snd (updateWhere p set tb)).
Proof.
  intros Hkey Hset (record & Hfirst & HP). unfold firstIs.
  rewrite firstOfKey_update, Hfirst by exact Hkey. simpl.
  eexists. split; [reflexivity|].
  destruct (p record) eqn:Hp; [apply Hset; assumption|exact HP].
Qed.

Lemma firstIs_reclaim (record' : SentNotification) (st : Status)
      (tb : Table) :
  status record' <> Sent ->
  firstIs tb ->
  firstIs (snd (DbStorage.reclaim
                  c now record' (DbStorage.withStatusAndCreatedAt st now) tb)).
Proof.
  intros Hlive Hfirst. unfold DbStorage.reclaim. cbv zeta.
  rewrite nobodyElse. destruct (rejects c 2); [exact Hfirst|].
  apply (firstIs_update _ _ tb); [reflexivity| |exact Hfirst].
  intros r HP Hguard. apply P_reset; [exact HP|].
  unfold DbStorage.staleGuard in Hguard.
  rewrite !andb_true_iff, Status_eqb_eq in Hguard.
  destruct Hguard as [[_ ->] _]. exact Hlive.
Qed.

(** Every ledger method keeps the property of the first record of the
    key, a delete of another key included. *)
Lemma perform_keeps_first (m : Method) (g' s' t' : string) (tb : Table) :
  (m = DeleteRecord -> (g', s', t') <> (g, s, t)) ->
  firstIs tb -> firstIs (snd (perform m c now g' s' t' tb)).
Proof.
  intros Hother Hfirst. destruct m; simpl.
  - unfold DbStorage.tryRecordNotificationAtomically. cbv zeta.
    rewrite !nobodyElse. destruct (rejects c 0); [exact Hfirst|].
    destruct (insertPending now g' s' t' tb) as [tb'|] eqn:Hinsert.
    { destruct Hfirst as (record & Hrec & HP). exists record.
      split; [|exact HP].
      eapply firstOfKey_insert; eassumption. }
    destruct (rejects c 1); [exact Hfirst|].
    destruct (selectWhere (sameKey g' s' t') tb) as [|record' more];
      [exact Hfirst|].
    destruct (status record') eqn:Hstatus; [| |exact Hfirst];
      (destruct (createdAt record' <? now - DbStorage.fiveMinutes);
       [|exact Hfirst]).
    + unfold DbStorage.withCreatedAt.
      unfold DbStorage.reclaim. cbv zeta. rewrite nobodyElse.
      destruct (rejects c 2); [exact Hfirst|].
      apply (firstIs_update _ _ tb); [reflexivity| |exact Hfirst].
      intros r HP Hguard.
      unfold DbStorage.staleGuard in Hguard.
      rewrite !andb_true_iff, Status_eqb_eq in Hguard.
      destruct Hguard as [[_ Hst] _].
      apply P_reset; [exact HP|]. rewrite Hst, Hstatus. discriminate.
    + apply firstIs_reclaim; [rewrite Hstatus; discriminate|exact Hfirst].
  - unfold DbStorage.markNotificationSending. cbv zeta.
    rewrite nobodyElse. destruct (rejects c 0); [exact Hfirst|].
    apply (firstIs_update _ _ tb); [reflexivity| |exact Hfirst].
    intros r HP Hp. rewrite andb_true_iff, Status_eqb_eq in Hp.
    apply P_reset; [exact HP|]. destruct Hp as [_ ->]. discriminate.
  - unfold DbStorage.markNotificationSent. cbv zeta.
    rewrite nobodyElse. destruct (rejects c 0); [exact Hfirst|].
    apply (firstIs_update _ _ tb); [reflexivity| |exact Hfirst].
    intros r HP _. apply P_sent, HP.
  - unfold DbStorage.deleteNotificationRecord. cbv zeta.
    rewrite nobodyElse. destruct (rejects c 0); [exact Hfirst|].
    pose proof (firstOfKey_delete g s t g' s' t' tb (Hother eq_refl))
      as Hsame.
    destruct (deleteWhere (sameKey g' s' t') tb) as [result tb'].
    simpl in *. unfold firstIs. rewrite Hsame. exact Hfirst.
Qed.

End Kept.

(** A claim on a key whose record is out of reach answers false, or is
    rejected, and leaves the table as it is. *)
Lemma claim_out_of_reach (c : Conditions) (now : Z) (g s t : string)
      (tb : Table) :
  undisturbed c ->
  settled now g s t tb ->
  DbStorage.tryRecordNotificationAtomically c now g s t tb = (Ok false, tb)
  \/ DbStorage.tryRecordNotificationAtomically c now g s t tb = (Threw, tb).
Proof.
  intros nobodyElse (record & Hfirst & Hout).
  unfold DbStorage.tryRecordNotificationAtomically. cbv zeta.
  rewrite !nobodyElse. destruct (rejects c 0); [right; reflexivity|].
  assert (Hkey : existsb (sameKey g s t) (rows tb) = true)
    by (apply firstOfKey_some; eauto).
  rewrite (insertPending_conflict now g s t tb Hkey).
  destruct (rejects c 1); [right; reflexivity|].
  unfold firstOfKey in Hfirst.
  destruct (selectWhere (sameKey g s t) tb) as [|record' more];
    [discriminate|].
  injection Hfirst as ->. left.
  destruct Hout as [->|Hfresh]; [reflexivity|].
  assert (Hnot : (createdAt record <? now - DbStorage.fiveMinutes) = false)
    by (apply Z.ltb_ge; lia).
  rewrite Hnot. destruct (status record); reflexivity.
Qed.

Lemma delivered_settled (now : Z) (g s t : string) (tb : Table) :
  delivered g s t tb -> settled now g s t tb.
Proof.
  intros (record & Hfirst & Hsent). exists record.
  split; [exact Hfirst|left; exact Hsent].
Qed.

End KeyRecords.

(** A claim that succeeds, with no other worker in between, leaves the
    record of the key pending and created at the clock of the claim. *)
Lemma claimed_is_pending (c : Conditions) (now : Z) (g s t : string)
      (tb : Table) :
  undisturbed c ->
  fst (DbStorage.tryRecordNotificationAtomically c now g s t tb)
  = Ok true ->
  exists record,
    firstOfKey g s t
               (snd (DbStorage.tryRecordNotificationAtomically
                       c now g s t tb)) = Some record
    /\ status record = Pending /\ createdAt record = now.
Proof.
  intros nobodyElse.
  unfold DbStorage.tryRecordNotificationAtomically. cbv zeta.
  rewrite !nobodyElse. destruct (rejects c 0); [discriminate|].
  unfold Sql.insertPending.
  destruct (existsb (Sql.sameKey g s t) (rows tb)) eqn:Hkey.
  - destruct (rejects c 1); [discriminate|].
    destruct (Sql.selectWhere (Sql.sameKey g s t) tb)
      as [|record more] eqn:Hsel; [discriminate|].
    assert (Hfirst : firstOfKey g s t tb = Some record)
      by (unfold firstOfKey; rewrite Hsel; reflexivity).
    assert (Hreclaimed :
              forall set,
                (forall r, keyOf (set r) = keyOf r) ->
                status (set record) = Pending ->
                createdAt (set record) = now ->
                (createdAt record <? now - DbStorage.fiveMinutes) = true ->
                fst (DbStorage.reclaim c now record set tb) = Ok true ->
                exists record',
                  firstOfKey g s t
                             (snd (DbStorage.reclaim c now record set tb))
                  = Some record'
                  /\ status record' = Pending /\ createdAt record' = now).
    { intros set Hset Hpending Hcreated Hold.
      destruct (rejects c 2) eqn:Hrejects.
      - unfold DbStorage.reclaim. cbv zeta. rewrite Hrejects.
        discriminate.
      - intros _.
        rewrite (reclaim_answer c now record set tb Hrejects).
        rewrite nobodyElse. cbn [snd].
        change (exists record',
                   firstOfKey
                     g s t
                     (snd (Sql.updateWhere
                             (DbStorage.staleGuard
                                record (now - DbStorage.fiveMinutes))
                             set tb)) = Some record'
                   /\ status record' = Pending /\ createdAt record' = now).
        rewrite firstOfKey_update, Hfirst by exact Hset. simpl.
        unfold DbStorage.staleGuard at 1.
        rewrite Nat.eqb_refl, Status_eqb_refl, Hold. simpl.
        eexists. split; [reflexivity|]. split; assumption. }
    destruct (status record) eqn:Hstatus.
    + destruct (createdAt record <? now - DbStorage.fiveMinutes) eqn:Hold;
        [|discriminate].
      apply Hreclaimed; try reflexivity.
      unfold DbStorage.withCreatedAt. simpl. exact Hstatus.
    + destruct (createdAt record <? now - DbStorage.fiveMinutes) eqn:Hold;
        [|discriminate].
      apply Hreclaimed; reflexivity.
    + discriminate.
  - intros _. simpl. unfold firstOfKey, Sql.selectWhere. simpl.
    rewrite filter_app.
    assert (Hnone : filter (Sql.sameKey g s t) (rows tb) = []).
    { destruct (filter (Sql.sameKey g s t) (rows tb)) eqn:Hf;
        [reflexivity|].
      rewrite <- (deleted_some (Sql.sameKey g s t)), Hf in Hkey.
      discriminate. }
    rewrite Hnone. simpl. unfold Sql.sameKey at 1. simpl.
    rewrite !String.eqb_refl. simpl.
    eexists. split; [reflexivity|]. split; reflexivity.
Qed.

(* ------------------------------------------------------------------ *)
(** ** The ledger methods of the storage object *)

Section DbPass.

Variable conditions : Method -> Conditions.
Variable clock : Method -> Z.

Let storage := Db.storage conditions clock.

Lemma db_ledgerCall (m : Method) (g s t : string) (d : Database) :
  ledgerCall storage m g s t d
  = (fst (perform m (conditions m) (clock m) g s t (sentNotifications d)),
     Db.withTable
       d (snd (perform m (conditions m) (clock m) g s t
                       (sentNotifications d)))).
Proof.
  destruct m; simpl; unfold Db.onTable;
    match goal with
    | |- (let (_, _) := ?x in _) = _ => destruct x; reflexivity
    end.
Qed.

Lemma db_try (g s t : string) (d : Database) :
  tryRecordNotificationAtomically storage g s t d
  = (fst (perform TryRecord (conditions TryRecord) (clock TryRecord) g s t
                  (sentNotifications d)),
     Db.withTable
       d (snd (perform TryRecord (conditions TryRecord) (clock TryRecord)
                       g s t (sentNotifications d)))).
Proof. exact (db_ledgerCall TryRecord g s t d). Qed.

Lemma db_markSending (g s t : string) (d : Database) :
  markNotificationSending storage g s t d
  = (fst (perform MarkSending (conditions MarkSending) (clock MarkSending)
                  g s t (sentNotifications d)),
     Db.withTable
       d (snd (perform MarkSending (conditions MarkSending)
                       (clock MarkSending) g s t (sentNotifications d)))).
Proof. exact (db_ledgerCall MarkSending g s t d). Qed.

Lemma db_markSent (g s t : string) (d : Database) :
  markNotificationSent storage g s t d
  = (fst (perform MarkSent (conditions MarkSent) (clock MarkSent)
                  g s t (sentNotifications d)),
     Db.withTable
       d (snd (perform MarkSent (conditions MarkSent) (clock MarkSent)
                       g s t (sentNotifications d)))).
Proof. exact (db_ledgerCall MarkSent g s t d). Qed.

Lemma db_delete (g s t : string) (d : Database) :
  deleteNotificationRecord storage g s t d
  = (fst (perform DeleteRecord (conditions DeleteRecord)
                  (clock DeleteRecord) g s t (sentNotifications d)),
     Db.withTable
       d (snd (perform DeleteRecord (conditions DeleteRecord)
                       (clock DeleteRecord) g s t (sentNotifications d)))).
Proof. exact (db_ledgerCall DeleteRecord g s t d). Qed.

Lemma triple_dec (k k' : string * string * string) : {k = k'} + {k <> k'}.
Proof. repeat decide equality; apply string_dec. Qed.

Lemma touches_other (g s t g' s' t' : string) :
  (g', s', t') <> (g, s, t) ->
  ((g' =? g)%string && (s' =? s)%string && (t' =? t)%string) = false.
Proof.
  intros Hother. apply not_true_is_false. intros Hsame.
  rewrite !andb_true_iff, !String.eqb_eq in Hsame.
  destruct Hsame as [[-> ->] ->]. apply Hother. reflexivity.
Qed.

End DbPass.

(** On the push path over the storage object, after a successful claim
    made with no other worker in between: the record of the key is
    pending in the ledger that the claim leaves, and that ledger is the
    one on which the path then runs [markNotificationSent] or
    [deleteNotificationRecord]. *)
Lemma push_record_stays_pending
      (conditions : Method -> Conditions) (clock : Method -> Z)
      (messaging : string -> string -> string -> MessagingOutcome)
      (needs24Hour : bool) (game : Game) (pushSub : PushSubscription)
      (r : Run Database) (d1 : Database) :
  let g := game_id game in
  let s := push_id pushSub in
  let notifType := if needs24Hour then "24hour-push" else "gameday-push" in
  undisturbed (conditions TryRecord) ->
  tryRecordNotificationAtomically
    (Db.storage conditions clock) g s notifType (store r)
  = (Ok true, d1) ->
  (exists record,
      hd_error (Sql.selectWhere (Sql.sameKey g s notifType)
                                (sentNotifications d1)) = Some record
      /\ status record = Pending
      /\ createdAt record = clock TryRecord)
  /\ exists title body,
      let after :=
        runOf (notifyByPush (Db.storage conditions clock) messaging
                            needs24Hour game pushSub r) in
      sentNotifications (store after)
      = if FirebaseAdmin.sendPushNotification
             messaging (fcmToken pushSub) title body
        then snd (DbStorage.markNotificationSent
                    (conditions MarkSent) (clock MarkSent) g s notifType
                    (sentNotifications d1))
        else snd (DbStorage.deleteNotificationRecord
                    (conditions DeleteRecord) g s notifType
                    (sentNotifications d1)).
Proof.
  intros g s notifType nobodyElse Hclaim. split.
  - rewrite db_try in Hclaim. injection Hclaim as Htrue Hstore.
    destruct (claimed_is_pending
                (conditions TryRecord) (clock TryRecord) g s notifType
                (sentNotifications (store r)) nobodyElse Htrue)
      as (record & Hfirst & Hpending & Hcreated).
    exists record. rewrite <- Hstore. auto.
  - destruct (push_after_claim
                (Db.storage conditions clock) messaging needs24Hour game
                pushSub r d1 Hclaim) as (title & body & Hafter).
    exists title, body. cbv zeta in *. fold g s notifType in Hafter.
    destruct (FirebaseAdmin.sendPushNotification
                messaging (fcmToken pushSub) title body).
    + destruct Hafter as [-> _]. rewrite db_markSent. reflexivity.
    + destruct Hafter as (rest & _ & Hstore).
      rewrite db_delete in Hstore. cbn [perform] in Hstore.
      destruct (fst (DbStorage.deleteNotificationRecord
                       (conditions DeleteRecord) g s notifType
                       (sentNotifications d1)));
        destruct Hstore as [-> _]; reflexivity.
Qed.

(** C6, amended.  [markNotificationSending] succeeds only on a record that
    is [Pending], which it turns to [Sending] with a fresh [createdAt].
    On the email paths it is called after the successful claim and right
    before the email capability.  The push path never calls it: a push is
    sent straight after the successful claim.  The claim leaves the record
    of the key [Pending], and the push path makes no storage call between
    the claim and the [markNotificationSent] or [deleteNotificationRecord]
    that follows the send, which works on the store as the claim left it:
    the record stays [Pending] until then, which is also stated for the
    ledger of the storage object.  In the calls of a whole pass,
    every email sent comes right after the mark-sending and the claim of
    its game and kind, and every push right after a claim. *)
Theorem markSending_guards_email_paths_only :
  (forall (c : Conditions) (now : Z) (g s t : string) (tb : Table),
      (fst (DbStorage.markNotificationSending c now g s t tb) = Ok true
       <-> rejects c 0 = false
           /\ exists r, In r (rows (concurrent c 0 tb))
                        /\ Sql.sameKey g s t r = true /\ status r = Pending)
      /\ (rejects c 0 = false ->
          rows (snd (DbStorage.markNotificationSending c now g s t tb))
          = map (fun r =>
                   if Sql.sameKey g s t r && Status_eqb (status r) Pending
                   then {| sn_id := sn_id r; gameId := gameId r;
                           subscriptionId := subscriptionId r;
                           notificationType := notificationType r;
                           status := Sending; createdAt := now;
                           sentAt := sentAt r |}
                   else r)
                (rows (concurrent c 0 tb))))
  /\ (forall (St : Type) (storage : IStorage St) (kind : string)
             (send : string -> Game -> string -> Result bool)
             (game : Game) (subscriber : Subscription) (r : Run St),
         exists added,
           calls (runOf (notifyByEmail storage kind send game subscriber r))
           = (calls r ++ added)%list
           /\ (existsb isSendEmail added = false
               \/ (fst (tryRecordNotificationAtomically
                          storage (game_id game) (sub_id subscriber) kind
                          (store r)) = Ok true
                   /\ exists rest,
                       added
                       = (emailOpening kind game subscriber ++ rest)%list)))
  /\ (forall (St : Type) (storage : IStorage St)
             (messaging : string -> string -> string -> MessagingOutcome)
             (needs24Hour : bool) (game : Game) (pushSub : PushSubscription)
             (r : Run St),
         let notifType :=
           if needs24Hour then "24hour-push" else "gameday-push" in
         exists added,
           calls (runOf (notifyByPush storage messaging needs24Hour game
                                      pushSub r))
           = (calls r ++ added)%list
           /\ existsb isMarkSending added = false
           /\ (existsb isSendPush added = false
               \/ (fst (tryRecordNotificationAtomically
                          storage (game_id game) (push_id pushSub) notifType
                          (store r)) = Ok true
                   /\ exists title body rest,
                       added
                       = (CallTryRecord (game_id game) (push_id pushSub)
                                        notifType
                          :: CallSendPush (fcmToken pushSub) title body
                          :: rest))))
  /\ (forall (c : Conditions) (now : Z) (g s t : string) (tb : Table),
         undisturbed c ->
         fst (DbStorage.tryRecordNotificationAtomically c now g s t tb)
         = Ok true ->
         exists record,
           hd_error
             (Sql.selectWhere
                (Sql.sameKey g s t)
                (snd (DbStorage.tryRecordNotificationAtomically
                        c now g s t tb)))
           = Some record
           /\ status record = Pending /\ createdAt record = now)
  /\ (forall (St : Type) (storage : IStorage St)
             (messaging : string -> string -> string -> MessagingOutcome)
             (needs24Hour : bool) (game : Game) (pushSub : PushSubscription)
             (r : Run St) (st1 : St),
         let g := game_id game in
         let s := push_id pushSub in
         let notifType :=
           if needs24Hour then "24hour-push" else "gameday-push" in
         tryRecordNotificationAtomically storage g s notifType (store r)
         = (Ok true, st1) ->
         exists title body,
           let after :=
             runOf (notifyByPush storage messaging needs24Hour game
                                 pushSub r) in
           if FirebaseAdmin.sendPushNotification
                messaging (fcmToken pushSub) title body
           then
             store after
             = snd (markNotificationSent storage g s notifType st1)
             /\ calls after
                = (calls r
                   ++ [CallTryRecord g s notifType;
                       CallSendPush (fcmToken pushSub) title body;
                       CallMarkSent g s notifType])%list
           else
             exists rest,
               calls after
               = (calls r
                  ++ CallTryRecord g s notifType
                     :: CallSendPush (fcmToken pushSub) title body
                     :: CallDeleteRecord g s notifType :: rest)%list
               /\ match deleteNotificationRecord storage g s notifType st1
                  with
                  | (Threw, st2) => store after = st2 /\ rest = []
                  | (Ok _, st2) =>
                      store after
                      = snd (deletePushSubscriptionByToken
                               storage (fcmToken pushSub) st2)
                      /\ rest
                         = [CallDeletePushSubscription (fcmToken pushSub)]
                  end)
  /\ (forall (conditions : Method -> Conditions) (clock : Method -> Z)
             (messaging : string -> string -> string -> MessagingOutcome)
             (needs24Hour : bool) (game : Game) (pushSub : PushSubscription)
             (r : Run Database) (d1 : Database),
         let g := game_id game in
         let s := push_id pushSub in
         let notifType :=
           if needs24Hour then "24hour-push" else "gameday-push" in
         undisturbed (conditions TryRecord) ->
         tryRecordNotificationAtomically
           (Db.storage conditions clock) g s notifType (store r)
         = (Ok true, d1) ->
         (exists record,
             hd_error (Sql.selectWhere (Sql.sameKey g s notifType)
                                       (sentNotifications d1))
             = Some record
             /\ status record = Pending
             /\ createdAt record = clock TryRecord)
         /\ exists title body,
             let after :=
               runOf (notifyByPush (Db.storage conditions clock) messaging
                                   needs24Hour game pushSub r) in
             sentNotifications (store after)
             = if FirebaseAdmin.sendPushNotification
                    messaging (fcmToken pushSub) title body
               then snd (DbStorage.markNotificationSent
                           (conditions MarkSent) (clock MarkSent)
                           g s notifType (sentNotifications d1))
               else snd (DbStorage.deleteNotificationRecord
                           (conditions DeleteRecord) g s notifType
                           (sentNotifications d1)))
  /\ (forall (St : Type) (storage : IStorage St)
             (emailService : EmailService)
             (messaging : string -> string -> string -> MessagingOutcome)
             (tz now : Z) (st : St),
         sendsInOrder
           (calls (checkAndSendNotifications
                     storage emailService messaging tz now st))).
Proof.
  split; [|split; [|split; [|split; [|split; [|split]]]]].
  - intros. apply markSending_spec.
  - intros. apply email_calls_shape.
  - intros. apply push_calls_shape.
  - intros c now g s t tb. apply claimed_is_pending.
  - intros St storage messaging needs24Hour game pushSub r st1.
    apply push_after_claim.
  - intros conditions clock messaging needs24Hour game pushSub r d1.
    apply push_record_stays_pending.
  - intros. apply pass_in_order.
Qed.

(* ------------------------------------------------------------------ *)
(** ** Two passes in a row *)

Section Claims.
Import Sql.

Variables (now : Z) (g s t : string).

Lemma key_kept_by_update (p : SentNotification -> bool)
      (set : SentNotification -> SentNotification)
      (l : list SentNotification) :
  (forall r, keyOf (set r) = keyOf r) ->
  existsb (sameKey g s t) (map (fun r => if p r then set r else r) l)
  = existsb (sameKey g s t) l.
Proof.
  intros Hkey. induction l as [|r l IH]; simpl; [reflexivity|].
  rewrite IH. f_equal. apply sameKey_by_key.
  destruct (p r); [apply Hkey|reflexivity].
Qed.

(** What a claim made alone answers: false on a record out of reach,
    with the table unchanged; true otherwise, and then the key has a
    record. *)
Lemma claim_alone (tb : Table) :
  (DbStorage.tryRecordNotificationAtomically alone now g s t tb
   = (Ok false, tb)
   /\ settled now g s t tb)
  \/ (exists tb',
         DbStorage.tryRecordNotificationAtomically alone now g s t tb
         = (Ok true, tb')
         /\ existsb (sameKey g s t) (rows tb') = true).
Proof.
  unfold DbStorage.tryRecordNotificationAtomically.
  cbn [alone rejects concurrent].
  unfold insertPending.
  destruct (existsb (sameKey g s t) (rows tb)) eqn:Hkey.
  - destruct (proj1 (firstOfKey_some g s t tb) Hkey) as [record Hfirst].
    destruct (firstOfKey_in g s t tb record Hfirst) as [Hin _].
    unfold firstOfKey in Hfirst.
    destruct (selectWhere (sameKey g s t) tb) as [|record' more] eqn:Hsel;
      [discriminate|].
    injection Hfirst as ->.
    assert (Hfirst : firstOfKey g s t tb = Some record)
      by (unfold firstOfKey; rewrite Hsel; reflexivity).
    assert (Hreclaim :
              forall set,
                (forall r, keyOf (set r) = keyOf r) ->
                createdAt record < now - DbStorage.fiveMinutes ->
                exists tb',
                  DbStorage.reclaim alone now record set tb = (Ok true, tb')
                  /\ existsb (sameKey g s t) (rows tb') = true).
    { intros set Hset Hstale.
      rewrite (reclaim_answer alone now record set tb eq_refl).
      cbn [alone concurrent]. eexists. split.
      - f_equal. f_equal. apply existsb_exists. exists record.
        split; [exact Hin|]. unfold DbStorage.staleGuard.
        rewrite Nat.eqb_refl, Status_eqb_refl. simpl.
        apply Z.ltb_lt. exact Hstale.
      - simpl. rewrite key_kept_by_update; assumption. }
    destruct (status record) eqn:Hstatus.
    + destruct (createdAt record <? now - DbStorage.fiveMinutes) eqn:Hold.
      * right. apply Hreclaim; [reflexivity|apply Z.ltb_lt; exact Hold].
      * left. split; [reflexivity|]. exists record.
        split; [exact Hfirst|]. right. apply Z.ltb_ge. exact Hold.
    + destruct (createdAt record <? now - DbStorage.fiveMinutes) eqn:Hold.
      * right. apply Hreclaim; [reflexivity|apply Z.ltb_lt; exact Hold].
      * left. split; [reflexivity|]. exists record.
        split; [exact Hfirst|]. right. apply Z.ltb_ge. exact Hold.
    + left. split; [reflexivity|]. exists record.
      split; [exact Hfirst|]. left. exact Hstatus.
  - right. eexists. split; [reflexivity|]. simpl.
    rewrite existsb_app. simpl. unfold sameKey at 2. simpl.
    rewrite !String.eqb_refl. apply orb_true_r.
Qed.

Lemma markSending_alone (tb : Table) :
  exists marked tb',
    DbStorage.markNotificationSending alone now g s t tb = (Ok marked, tb')
    /\ existsb (sameKey g s t) (rows tb')
       = existsb (sameKey g s t) (rows tb).
Proof.
  do 2 eexists. split; [reflexivity|].
  simpl. apply key_kept_by_update. reflexivity.
Qed.

(** After [markNotificationSent] a key that had a record is delivered. *)
Lemma markSent_alone (tb : Table) :
  existsb (sameKey g s t) (rows tb) = true ->
  exists sent tb',
    DbStorage.markNotificationSent alone now g s t tb = (Ok sent, tb')
    /\ delivered g s t tb'.
Proof.
  intros Hkey. do 2 eexists. split; [reflexivity|].
  destruct (proj1 (firstOfKey_some g s t tb) Hkey) as [record Hfirst].
  destruct (firstOfKey_in g s t tb record Hfirst) as [_ Hsame].
  exists (DbStorage.withSent now record). split; [|reflexivity].
  change (firstOfKey g s t
            (snd (updateWhere (sameKey g s t) (DbStorage.withSent now) tb))
          = Some (DbStorage.withSent now record)).
  rewrite firstOfKey_update, Hfirst by reflexivity.
  simpl. rewrite Hsame. reflexivity.
Qed.

End Claims.

(** The updates made at clock [now] leave a record out of reach out of
    reach. *)
Lemma settled_after (now : Z) (g s t : string) (m : Method)
      (g' s' t' : string) (tb : Table) :
  m <> DeleteRecord ->
  settled now g s t tb ->
  settled now g s t (snd (perform m alone now g' s' t' tb)).
Proof.
  intros Hm Hsettled.
  apply (perform_keeps_first now (outOfReach now)); try assumption.
  - intros r st _ _. right. simpl. unfold DbStorage.fiveMinutes. lia.
  - intros r _. left. reflexivity.
  - intros n tb0. reflexivity.
  - intros ->. contradiction.
Qed.

Section TwoPasses.

Variables tz now : Z.
Variable emailService : EmailService.
Variable messaging : string -> string -> string -> MessagingOutcome.
Hypothesis works : deliveryWorks emailService messaging.

Let storage := Db.quiet now.
Let run := runAttempt storage emailService messaging.
Let table (r : Run Database) : Table := sentNotifications (store r).

Lemma quiet_try (g s t : string) (d : Database) :
  tryRecordNotificationAtomically storage g s t d
  = (fst (DbStorage.tryRecordNotificationAtomically
            alone now g s t (sentNotifications d)),
     Db.withTable
       d (snd (DbStorage.tryRecordNotificationAtomically
                 alone now g s t (sentNotifications d)))).
Proof. exact (db_try (fun _ => alone) (fun _ => now) g s t d). Qed.

Lemma quiet_mark (g s t : string) (d : Database) :
  markNotificationSending storage g s t d
  = (fst (DbStorage.markNotificationSending
            alone now g s t (sentNotifications d)),
     Db.withTable
       d (snd (DbStorage.markNotificationSending
                 alone now g s t (sentNotifications d)))).
Proof. exact (db_markSending (fun _ => alone) (fun _ => now) g s t d). Qed.

Lemma quiet_sent (g s t : string) (d : Database) :
  markNotificationSent storage g s t d
  = (fst (DbStorage.markNotificationSent
            alone now g s t (sentNotifications d)),
     Db.withTable
       d (snd (DbStorage.markNotificationSent
                 alone now g s t (sentNotifications d)))).
Proof. exact (db_markSent (fun _ => alone) (fun _ => now) g s t d). Qed.

Lemma withTable_same (d : Database) :
  Db.withTable d (sentNotifications d) = d.
Proof. destruct d. reflexivity. Qed.

(** What an attempt leaves behind when every delivery succeeds. *)
Let settles (a : Attempt) (r r' : Run Database) : Prop :=
  games (store r') = games (store r)
  /\ subscriptions (store r') = subscriptions (store r)
  /\ pushSubscriptions (store r') = pushSubscriptions (store r)
  /\ (forall g s t, settled now g s t (table r) ->
                    settled now g s t (table r'))
  /\ (forall g s t, attemptKey a = Some (g, s, t) ->
                    settled now g s t (table r')).

(** A claim and the two marks, made alone at clock [now], keep settled
    keys settled. *)
Lemma settled_through (g s t g' s' t' : string) (tb : Table) :
  settled now g s t tb ->
  settled now g s t
    (snd (DbStorage.tryRecordNotificationAtomically alone now g' s' t' tb))
  /\ settled now g s t
       (snd (DbStorage.markNotificationSending alone now g' s' t' tb))
  /\ settled now g s t
       (snd (DbStorage.markNotificationSent alone now g' s' t' tb)).
Proof.
  intros Hsettled. repeat split.
  - apply (settled_after now g s t TryRecord); [discriminate|assumption].
  - apply (settled_after now g s t MarkSending); [discriminate|assumption].
  - apply (settled_after now g s t MarkSent); [discriminate|assumption].
Qed.

Lemma deliver_alone (g s t : string) (tb : Table) :
  exists b tb1 marked tb2 sent tb3,
    DbStorage.tryRecordNotificationAtomically alone now g s t tb = (Ok b, tb1)
    /\ DbStorage.markNotificationSending alone now g s t tb1
       = (Ok marked, tb2)
    /\ DbStorage.markNotificationSent alone now g s t tb2 = (Ok sent, tb3)
    /\ (b = false -> tb1 = tb /\ settled now g s t tb)
    /\ (b = true -> delivered g s t tb3)
    /\ (forall g0 s0 t0, settled now g0 s0 t0 tb ->
                         settled now g0 s0 t0 tb1
                         /\ settled now g0 s0 t0 tb3).
Proof.
  destruct (claim_alone now g s t tb) as [[Hclaim Hset]|(tb1 & Hclaim & Hrow)].
  - destruct (markSending_alone now g s t tb) as (marked & tb2 & Hmark & _).
    exists false, tb, marked, tb2. do 2 eexists.
    split; [exact Hclaim|]. split; [exact Hmark|]. split; [reflexivity|].
    split; [auto|]. split; [discriminate|].
    intros g0 s0 t0 H0. split; [exact H0|].
    destruct (settled_through g0 s0 t0 g s t tb H0) as (_ & H2 & _).
    rewrite Hmark in H2. simpl in H2.
    apply (settled_through g0 s0 t0 g s t tb2 H2).
  - destruct (markSending_alone now g s t tb1)
      as (marked & tb2 & Hmark & Hrow2).
    rewrite Hrow in Hrow2.
    destruct (markSent_alone now g s t tb2 Hrow2)
      as (sent & tb3 & Hsent & Hdelivered).
    exists true, tb1, marked, tb2, sent, tb3.
    split; [exact Hclaim|]. split; [exact Hmark|]. split; [exact Hsent|].
    split; [discriminate|]. split; [auto|].
    intros g0 s0 t0 H0.
    destruct (settled_through g0 s0 t0 g s t tb H0) as (H1 & _ & _).
    rewrite Hclaim in H1. simpl in H1. split; [exact H1|].
    destruct (settled_through g0 s0 t0 g s t tb1 H1) as (_ & H2 & _).
    rewrite Hmark in H2. simpl in H2.
    destruct (settled_through g0 s0 t0 g s t tb2 H2) as (_ & _ & H3).
    rewrite Hsent in H3. exact H3.
Qed.

Lemma email_settles (kind : string)
      (send : string -> Game -> string -> Result bool)
      (game : Game) (subscriber : Subscription) (r : Run Database) :
  (forall mail gm token, send mail gm token = Ok true) ->
  exists r',
    notifyByEmail storage kind send game subscriber r = Next r'
    /\ games (store r') = games (store r)
    /\ subscriptions (store r') = subscriptions (store r)
    /\ pushSubscriptions (store r') = pushSubscriptions (store r)
    /\ (forall g s t, settled now g s t (table r) ->
                      settled now g s t (table r'))
    /\ settled now (game_id game) (sub_id subscriber) kind (table r').
Proof.
  intros Hsend. unfold notifyByEmail. cbv zeta. rewrite quiet_try.
  destruct (deliver_alone (game_id game) (sub_id subscriber) kind (table r))
    as (b & tb1 & marked & tb2 & sent & tb3
        & Hclaim & Hmark & Hsent & Hfalse & Htrue & Hkeep).
  unfold table in *. rewrite Hclaim. cbn [fst snd store called].
  destruct b.
  - rewrite quiet_mark. cbn [sentNotifications Db.withTable].
    rewrite Hmark. cbn [fst snd store called noted].
    rewrite Hsend. rewrite quiet_sent. cbn [sentNotifications Db.withTable].
    rewrite Hsent. cbn [fst snd store called noted].
    eexists. split; [reflexivity|]. cbn.
    repeat split; try reflexivity.
    + intros g s t H0. apply Hkeep, H0.
    + apply delivered_settled, Htrue. reflexivity.
  - destruct (Hfalse eq_refl) as [-> Hset].
    eexists. split; [reflexivity|]. cbn.
    repeat split; try reflexivity.
    + intros g s t H0. exact H0.
    + exact Hset.
Qed.

Lemma push_settles (needs24Hour : bool) (game : Game)
      (pushSub : PushSubscription) (r : Run Database) :
  exists r',
    notifyByPush storage messaging needs24Hour game pushSub r = Next r'
    /\ games (store r') = games (store r)
    /\ subscriptions (store r') = subscriptions (store r)
    /\ pushSubscriptions (store r') = pushSubscriptions (store r)
    /\ (forall g s t, settled now g s t (table r) ->
                      settled now g s t (table r'))
    /\ settled now (game_id game) (push_id pushSub)
               (if needs24Hour then "24hour-push" else "gameday-push")
               (table r').
Proof.
  unfold notifyByPush. cbv zeta. rewrite quiet_try.
  set (notifType := if needs24Hour then "24hour-push" else "gameday-push").
  destruct (claim_alone now (game_id game) (push_id pushSub) notifType
                        (table r))
    as [[Hclaim Hset]|(tb1 & Hclaim & Hrow)];
    unfold table in *; rewrite Hclaim; cbn [fst snd store called noted].
  - eexists. split; [reflexivity|]. cbn.
    repeat split; try reflexivity; auto.
  - unfold FirebaseAdmin.sendPushNotification.
    rewrite (proj2 (proj2 works)).
    rewrite quiet_sent. cbn [sentNotifications Db.withTable].
    destruct (markSent_alone now (game_id game) (push_id pushSub) notifType
                             tb1 Hrow)
      as (sent & tb3 & Hsent & Hdelivered).
    rewrite Hsent. cbn [fst snd store called noted].
    eexists. split; [reflexivity|]. cbn.
    repeat split; try reflexivity.
    + intros g s t H0.
      destruct (settled_through
                  g s t (game_id game) (push_id pushSub) notifType
                  (sentNotifications (store r)) H0) as (H1 & _ & _).
      rewrite Hclaim in H1. simpl in H1.
      destruct (settled_through
                  g s t (game_id game) (push_id pushSub) notifType tb1 H1)
        as (_ & _ & H3).
      rewrite Hsent in H3. exact H3.
    + apply delivered_settled, Hdelivered.
Qed.

Lemma attempt_settles (a : Attempt) (r : Run Database) :
  exists r', run a r = Next r' /\ settles a r r'.
Proof.
  destruct works as (H24 & Hday & _).
  destruct a as [| |game subscriber|game subscriber|needs24 game pushSub];
    unfold run, settles; simpl.
  - eexists. split; [reflexivity|]. cbn. repeat split; auto; discriminate.
  - eexists. split; [reflexivity|]. cbn. repeat split; auto; discriminate.
  - destruct (email_settles "24hour" (send24HourReminder emailService)
                            game subscriber r H24)
      as (r' & Hrun & Hg & Hs & Hp & Hkeep & Hkey).
    exists r'. repeat split; try assumption.
    intros g s t [= <- <- <-]. exact Hkey.
  - destruct (email_settles "gameday" (sendGameDayReminder emailService)
                            game subscriber r Hday)
      as (r' & Hrun & Hg & Hs & Hp & Hkeep & Hkey).
    exists r'. repeat split; try assumption.
    intros g s t [= <- <- <-]. exact Hkey.
  - destruct (push_settles needs24 game pushSub r)
      as (r' & Hrun & Hg & Hs & Hp & Hkeep & Hkey).
    exists r'. repeat split; try assumption.
    intros g s t [= <- <- <-]. exact Hkey.
Qed.

(** After a plan has run, all its keys are settled. *)
Lemma plan_settles (plan : list Attempt) (r : Run Database) :
  exists r',
    forEach run plan r = Next r'
    /\ games (store r') = games (store r)
    /\ subscriptions (store r') = subscriptions (store r)
    /\ pushSubscriptions (store r') = pushSubscriptions (store r)
    /\ (forall g s t, settled now g s t (table r) ->
                      settled now g s t (table r'))
    /\ planSettled now plan (table r').
Proof.
  revert r. induction plan as [|a plan IH]; intros r; simpl.
  - exists r. repeat split; auto. intros a g s t [].
  - destruct (attempt_settles a r)
      as (r1 & -> & Hg1 & Hs1 & Hp1 & Hkeep1 & Hkey1).
    destruct (IH r1) as (r' & -> & Hg & Hs & Hp & Hkeep & Hplan).
    exists r'. split; [reflexivity|].
    repeat split; try congruence.
    + intros g s t H0. apply Hkeep, Hkeep1, H0.
    + intros a0 g s t [<-|Hin] Hkey.
      * apply Hkeep, Hkey1, Hkey.
      * eapply Hplan; eassumption.
Qed.

Lemma claim_settled (g s t : string) (tb : Table) :
  settled now g s t tb ->
  DbStorage.tryRecordNotificationAtomically alone now g s t tb
  = (Ok false, tb).
Proof.
  intros Hsettled.
  destruct (claim_out_of_reach alone now g s t tb (fun _ _ => eq_refl)
                               Hsettled) as [Heq|Heq]; [exact Heq|].
  destruct (claim_alone now g s t tb) as [[Hfalse _]|(tb' & Htrue & _)];
    congruence.
Qed.

(** What a run [r'] adds to [r] when every claim is refused: nothing in
    the store, nothing delivered. *)
Let skipped (r r' : Run Database) : Prop :=
  store r' = store r
  /\ emailsSent (result r') = emailsSent (result r)
  /\ exists added,
      calls r' = (calls r ++ added)%list
      /\ existsb isSendEmail added = false
      /\ existsb isSendPush added = false.

Lemma skipped_refl (r r' : Run Database) :
  store r' = store r -> emailsSent (result r') = emailsSent (result r) ->
  calls r' = calls r -> skipped r r'.
Proof.
  intros Hstore Hsent Hcalls. repeat split; try assumption.
  exists []. rewrite app_nil_r. repeat split. exact Hcalls.
Qed.

Lemma skipped_trans (r1 r2 r3 : Run Database) :
  skipped r1 r2 -> skipped r2 r3 -> skipped r1 r3.
Proof.
  intros (Hs1 & He1 & a1 & Hc1 & Hm1 & Hp1)
         (Hs2 & He2 & a2 & Hc2 & Hm2 & Hp2).
  repeat split; try congruence.
  exists (a1 ++ a2)%list. rewrite Hc2, Hc1, app_assoc, !existsb_app.
  rewrite Hm1, Hm2, Hp1, Hp2. repeat split.
Qed.

Lemma attempt_skips (a : Attempt) (r : Run Database) :
  (forall g s t, attemptKey a = Some (g, s, t) ->
                 settled now g s t (table r)) ->
  exists r', run a r = Next r' /\ skipped r r'.
Proof.
  intros Hkey.
  destruct a as [| |game subscriber|game subscriber|needs24 game pushSub];
    unfold run; simpl.
  - eexists. split; [reflexivity|]. apply skipped_refl; reflexivity.
  - eexists. split; [reflexivity|]. apply skipped_refl; reflexivity.
  - unfold notifyByEmail. cbv zeta. rewrite quiet_try.
    pose proof (claim_settled _ _ _ _ (Hkey _ _ _ eq_refl)) as Hclaim.
    unfold table in Hclaim. rewrite Hclaim.
    cbn [fst snd store called]. rewrite withTable_same.
    eexists. split; [reflexivity|].
    repeat split. eexists. repeat split.
  - unfold notifyByEmail. cbv zeta. rewrite quiet_try.
    pose proof (claim_settled _ _ _ _ (Hkey _ _ _ eq_refl)) as Hclaim.
    unfold table in Hclaim. rewrite Hclaim.
    cbn [fst snd store called]. rewrite withTable_same.
    eexists. split; [reflexivity|].
    repeat split. eexists. repeat split.
  - unfold notifyByPush. cbv zeta. rewrite quiet_try.
    pose proof (claim_settled _ _ _ _ (Hkey _ _ _ eq_refl)) as Hclaim.
    unfold table in Hclaim. rewrite Hclaim.
    cbn [fst snd store called]. rewrite withTable_same.
    eexists. split; [reflexivity|].
    repeat split. eexists. repeat split.
Qed.

Lemma plan_skips (plan : list Attempt) (r : Run Database) :
  planSettled now plan (table r) ->
  exists r', forEach run plan r = Next r' /\ skipped r r'.
Proof.
  revert r. induction plan as [|a plan IH]; intros r Hplan; simpl.
  - exists r. split; [reflexivity|]. apply skipped_refl; reflexivity.
  - destruct (attempt_skips a r) as (r1 & -> & Hskip1).
    { intros g s t Hkey. apply (Hplan a); [left; reflexivity|exact Hkey]. }
    destruct (IH r1) as (r' & -> & Hskip).
    { intros a0 g s t Hin Hkey. unfold table.
      destruct Hskip1 as (-> & _). apply (Hplan a0); [right|]; assumption. }
    exists r'. split; [reflexivity|].
    eapply skipped_trans; eassumption.
Qed.

Lemma withStore_same (r : Run Database) : withStore (store r) r = r.
Proof. destruct r. reflexivity. Qed.

(** The pass over the quiet storage, in terms of its two plans. *)
Lemma pass_by_plans (d : Database) :
  checkAndSendNotifications storage emailService messaging tz now d
  = let r0 := {| result := emptyCheck; store := d; calls := [] |} in
    if (List.length (subscriptions d) =? 0)%nat then r0
    else
      match forEach run (emailPlan tz now (subscriptions d) (games d)) r0 with
      | Raised r => pushError SystemError r
      | Next r =>
          if (0 <? List.length (pushSubscriptions (store r)))%nat
          then
            match forEach run (pushPlan tz now (pushSubscriptions (store r))
                                        (games d)) r with
            | Raised r' => pushError PushNotificationError r'
            | Next r' => r'
            end
          else r
      end.
Proof.
  unfold checkAndSendNotifications. cbn [store].
  change (getAllGames storage d) with (Ok (games d), d).
  cbn [store withStore result calls].
  change (getAllSubscriptions storage d) with (Ok (subscriptions d), d).
  cbn [store withStore result calls].
  destruct (List.length (subscriptions d) =? 0)%nat; [reflexivity|].
  rewrite (email_loop_plan storage emailService messaging).
  fold run.
  destruct (forEach run (emailPlan tz now (subscriptions d) (games d)) _)
    as [r|r]; [|reflexivity].
  unfold pushPart.
  change (getAllPushSubscriptions storage (store r))
    with (Ok (pushSubscriptions (store r)), store r).
  cbv beta iota zeta. rewrite withStore_same.
  destruct (0 <? List.length (pushSubscriptions (store r)))%nat;
    [|reflexivity].
  rewrite (push_loop_plan storage emailService messaging). reflexivity.
Qed.

(** The first pass settles the keys of both its plans and changes neither
    the games nor the subscribers. *)
Lemma first_pass_settles (d : Database) :
  let r1 := checkAndSendNotifications
              storage emailService messaging tz now d in
  games (store r1) = games d
  /\ subscriptions (store r1) = subscriptions d
  /\ pushSubscriptions (store r1) = pushSubscriptions d
  /\ ((List.length (subscriptions d) =? 0)%nat = false ->
      planSettled now (emailPlan tz now (subscriptions d) (games d))
                  (table r1)
      /\ ((0 <? List.length (pushSubscriptions d))%nat = true ->
          planSettled now (pushPlan tz now (pushSubscriptions d) (games d))
                      (table r1))).
Proof.
  intros r1. subst r1. rewrite pass_by_plans. cbv zeta.
  destruct (List.length (subscriptions d) =? 0)%nat;
    [repeat split; discriminate|].
  destruct (plan_settles (emailPlan tz now (subscriptions d) (games d))
                         {| result := emptyCheck; store := d; calls := [] |})
    as (r & -> & Hg & Hs & Hp & _ & Hemail).
  simpl in Hg, Hs, Hp. rewrite Hp.
  destruct (0 <? List.length (pushSubscriptions d))%nat.
  - destruct (plan_settles (pushPlan tz now (pushSubscriptions d) (games d))
                           r)
      as (r' & -> & Hg' & Hs' & Hp' & Hkeep & Hpush).
    split; [congruence|]. split; [congruence|]. split; [congruence|].
    intros _. split; [|intros _; exact Hpush].
    intros a g s t Hin Hkey. apply Hkeep. eapply Hemail; eassumption.
  - split; [exact Hg|]. split; [exact Hs|]. split; [exact Hp|].
    intros _. split; [exact Hemail|discriminate].
Qed.

Lemma second_pass_skips (d : Database) :
  let r1 := checkAndSendNotifications
              storage emailService messaging tz now d in
  let r2 := checkAndSendNotifications
              storage emailService messaging tz now (store r1) in
  store r2 = store r1
  /\ emailsSent (result r2) = 0%nat
  /\ existsb isSendEmail (calls r2) = false
  /\ existsb isSendPush (calls r2) = false.
Proof.
  intros r1 r2.
  destruct (first_pass_settles d) as (Hg & Hs & Hp & Hplans).
  fold r1 in Hg, Hs, Hp, Hplans.
  subst r2. rewrite pass_by_plans. cbv zeta. rewrite Hg, Hs.
  destruct (List.length (subscriptions d) =? 0)%nat eqn:Hnone;
    [repeat split|].
  destruct (Hplans eq_refl) as [Hemail Hpush].
  destruct (plan_skips (emailPlan tz now (subscriptions d) (games d))
                       {| result := emptyCheck; store := store r1;
                          calls := [] |} Hemail)
    as (r & -> & Hstore & Hsent & added & Hcalls & Hm & Hpu).
  simpl in Hstore, Hsent, Hcalls. rewrite Hstore, Hp.
  destruct (0 <? List.length (pushSubscriptions d))%nat eqn:Hsome.
  - destruct (plan_skips (pushPlan tz now (pushSubscriptions d) (games d)) r)
      as (r' & -> & Hstore' & Hsent' & added' & Hcalls' & Hm' & Hpu').
    { unfold table. rewrite Hstore. apply Hpush. reflexivity. }
    split; [congruence|]. split; [congruence|].
    rewrite Hcalls', Hcalls. simpl. rewrite !existsb_app, Hm, Hm', Hpu, Hpu'.
    split; reflexivity.
  - split; [exact Hstore|]. split; [exact Hsent|].
    rewrite Hcalls. simpl. split; assumption.
Qed.

End TwoPasses.

(* ------------------------------------------------------------------ *)
(** ** What a pass leaves alone *)

Section Integrity.
Import Sql.

Lemma keys_after_update (p : SentNotification -> bool)
      (set : SentNotification -> SentNotification)
      (l : list SentNotification) :
  (forall r, keyOf (set r) = keyOf r) ->
  map keyOf (map (fun r => if p r then set r else r) l) = map keyOf l.
Proof.
  intros Hset. rewrite map_map. apply map_ext. intros r.
  destruct (p r); [apply Hset|reflexivity].
Qed.

Lemma NoDup_keys_filter (p : SentNotification -> bool)
      (l : list SentNotification) :
  NoDup (map keyOf l) -> NoDup (map keyOf (filter p l)).
Proof.
  induction l as [|r l IH]; simpl; intros Hnodup; [constructor|].
  inversion Hnodup as [|? ? Hfresh Hrest]; subst.
  destruct (p r); simpl; [|apply IH, Hrest].
  constructor; [|apply IH, Hrest].
  intros Hin. apply Hfresh. apply in_map_iff in Hin.
  destruct Hin as (r0 & Heq & Hr0). apply filter_In in Hr0.
  rewrite <- Heq. apply in_map. tauto.
Qed.

Lemma uniqueKeys_update (p : SentNotification -> bool)
      (set : SentNotification -> SentNotification) (tb : Table) :
  (forall r, keyOf (set r) = keyOf r) ->
  uniqueKeys tb -> uniqueKeys (snd (updateWhere p set tb)).
Proof.
  unfold uniqueKeys. simpl. intros Hset Hunique.
  rewrite keys_after_update; assumption.
Qed.

Lemma uniqueKeys_insert (now : Z) (g s t : string) (tb tb' : Table) :
  insertPending now g s t tb = Some tb' ->
  uniqueKeys tb -> uniqueKeys tb'.
Proof.
  unfold insertPending, uniqueKeys.
  destruct (existsb (sameKey g s t) (rows tb)) eqn:Hkey; [discriminate|].
  intros [= <-] Hunique. simpl. rewrite map_app. simpl.
  apply NoDup_app.
  - exact Hunique.
  - constructor; [intros []|constructor].
  - intros k Hk [<-|[]]. apply in_map_iff in Hk.
    destruct Hk as (r & Hr & Hin).
    assert (Hsame : existsb (sameKey g s t) (rows tb) = true).
    { apply existsb_exists. exists r. split; [exact Hin|].
      apply sameKey_keyOf. exact Hr. }
    congruence.
Qed.

(** No method of the ledger, run with no other worker in between, gives
    two records the same key. *)
Lemma uniqueKeys_perform (c : Conditions) (m : Method) (now : Z)
      (g s t : string) (tb : Table) :
  undisturbed c ->
  uniqueKeys tb -> uniqueKeys (snd (perform m c now g s t tb)).
Proof.
  intros nobodyElse Hunique. destruct m; simpl.
  - unfold DbStorage.tryRecordNotificationAtomically. cbv zeta.
    rewrite !nobodyElse.
    destruct (rejects c 0); [exact Hunique|].
    destruct (insertPending now g s t tb) as [tb'|] eqn:Hinsert;
      [exact (uniqueKeys_insert _ _ _ _ _ _ Hinsert Hunique)|].
    destruct (rejects c 1); [exact Hunique|].
    destruct (selectWhere (sameKey g s t) tb) as [|record more];
      [exact Hunique|].
    assert (Hreclaim : forall set,
               (forall r, keyOf (set r) = keyOf r) ->
               uniqueKeys (snd (DbStorage.reclaim c now record set tb))).
    { intros set Hset. unfold DbStorage.reclaim. cbv zeta.
      rewrite nobodyElse. destruct (rejects c 2); [exact Hunique|].
      apply (uniqueKeys_update _ set tb Hset Hunique). }
    destruct (status record); [| |exact Hunique];
      (destruct (createdAt record <? now - DbStorage.fiveMinutes);
       [apply Hreclaim; reflexivity|exact Hunique]).
  - unfold DbStorage.markNotificationSending. cbv zeta.
    rewrite nobodyElse. destruct (rejects c 0); [exact Hunique|].
    apply (uniqueKeys_update _ _ tb); [reflexivity|exact Hunique].
  - unfold DbStorage.markNotificationSent. cbv zeta.
    rewrite nobodyElse. destruct (rejects c 0); [exact Hunique|].
    apply (uniqueKeys_update _ _ tb); [reflexivity|exact Hunique].
  - unfold DbStorage.deleteNotificationRecord. cbv zeta.
    rewrite nobodyElse. destruct (rejects c 0); [exact Hunique|].
    unfold uniqueKeys. simpl. apply NoDup_keys_filter, Hunique.
Qed.

End Integrity.

(* ------------------------------------------------------------------ *)
(** ** A pass over a storage whose ledger nobody else writes *)

Section LedgerPass.

Context {St : Type}.
Variable storage : IStorage St.

(** The [sent_notifications] table of a store.  Every ledger method acts
    on it as the method of [DbStorage] does under some circumstances
    without another worker and at some clock, both of which may change
    from call to call; the other methods leave it as it is. *)
Variable ledger : St -> Table.
Hypothesis ledger_call :
  forall m g s t w,
    exists c now,
      undisturbed c
      /\ fst (ledgerCall storage m g s t w)
         = fst (perform m c now g s t (ledger w))
      /\ ledger (snd (ledgerCall storage m g s t w))
         = snd (perform m c now g s t (ledger w)).
Hypothesis ledger_games :
  forall w, ledger (snd (getAllGames storage w)) = ledger w.
Hypothesis ledger_subscriptions :
  forall w, ledger (snd (getAllSubscriptions storage w)) = ledger w.
Hypothesis ledger_pushSubscriptions :
  forall w, ledger (snd (getAllPushSubscriptions storage w)) = ledger w.
Hypothesis ledger_deletePush :
  forall token w,
    ledger (snd (deletePushSubscriptionByToken storage token w)) = ledger w.

Variable emailService : EmailService.
Variable messaging : string -> string -> string -> MessagingOutcome.
Variables tz now : Z.

(** A relation between tables that every ledger method keeps is kept by
    a pass. *)
Lemma pass_keeps_ledger (Q : Table -> Table -> Prop) (w : St) :
  (forall tb, Q tb tb) ->
  (forall tb1 tb2 tb3, Q tb1 tb2 -> Q tb2 tb3 -> Q tb1 tb3) ->
  (forall m c now' g s t tb,
      undisturbed c -> Q tb (snd (perform m c now' g s t tb))) ->
  Q (ledger w)
    (ledger (store (checkAndSendNotifications
                      storage emailService messaging tz now w))).
Proof.
  intros Hrefl Htrans Hperform.
  apply (pass_keeps_store storage emailService messaging tz now
                          (fun w1 w2 => Q (ledger w1) (ledger w2))).
  - intros st. apply Hrefl.
  - intros st1 st2 st3. apply Htrans.
  - intros m g s t st.
    destruct (ledger_call m g s t st) as (c & now' & Hc & _ & ->).
    apply Hperform, Hc.
  - intros token st. rewrite ledger_deletePush. apply Hrefl.
  - intros st. rewrite ledger_games. apply Hrefl.
  - intros st. rewrite ledger_subscriptions. apply Hrefl.
  - intros st. rewrite ledger_pushSubscriptions. apply Hrefl.
Qed.

Section Tombstone.

Variables g s t : string.

Let keeps (r r' : Run St) : Prop :=
  delivered g s t (ledger (store r)) ->
  delivered g s t (ledger (store r'))
  /\ exists added,
      calls r' = (calls r ++ added)%list
      /\ existsb (touches g s t) added = false.

Lemma delivered_after (c : Conditions) (now' : Z) (m : Method)
      (g' s' t' : string) (tb : Table) :
  undisturbed c ->
  (m = DeleteRecord -> (g', s', t') <> (g, s, t)) ->
  delivered g s t tb ->
  delivered g s t (snd (perform m c now' g' s' t' tb)).
Proof.
  intros nobodyElse Hother Hdelivered.
  apply (perform_keeps_first now' (fun r => status r = Sent));
    try assumption.
  - intros r st Hsent Hlive. contradiction.
  - reflexivity.
Qed.

(** A successful claim is a claim of another key. *)
Lemma claimed_is_other (c : Conditions) (now' : Z) (g' s' t' : string)
      (tb : Table) :
  undisturbed c ->
  delivered g s t tb ->
  fst (perform TryRecord c now' g' s' t' tb) = Ok true ->
  (g', s', t') <> (g, s, t).
Proof.
  intros nobodyElse Hdelivered Htrue [= -> -> ->]. simpl in Htrue.
  destruct (claim_out_of_reach c now' g s t tb nobodyElse
                               (delivered_settled _ g s t tb Hdelivered))
    as [Heq|Heq]; rewrite Heq in Htrue; discriminate.
Qed.

(** One call of a ledger method on a store whose key is delivered. *)
Lemma tombstone_step (m : Method) (g' s' t' : string) (w : St) :
  delivered g s t (ledger w) ->
  (m = TryRecord -> fst (ledgerCall storage m g' s' t' w) = Ok true ->
   (g', s', t') <> (g, s, t))
  /\ ((m = DeleteRecord -> (g', s', t') <> (g, s, t)) ->
      delivered g s t (ledger (snd (ledgerCall storage m g' s' t' w)))).
Proof.
  intros Hd.
  destruct (ledger_call m g' s' t' w) as (c & now' & Hc & Hfst & Hsnd).
  split.
  - intros -> Htrue. rewrite Hfst in Htrue.
    exact (claimed_is_other c now' g' s' t' (ledger w) Hc Hd Htrue).
  - intros Hother. rewrite Hsnd. apply delivered_after; assumption.
Qed.

Ltac ledger_step m w Hd Hother Hd' :=
  match goal with
  | |- context [?call storage ?g' ?s' ?t' w] =>
      let ans := fresh "answer" in
      let w' := fresh "w" in
      destruct (tombstone_step m g' s' t' w Hd) as [Hother Hd'];
      cbn [ledgerCall] in Hother, Hd';
      destruct (call storage g' s' t' w) as [ans w'];
      cbn [fst snd store called noted] in *
  end.

Ltac finish_tombstone :=
  split;
  [ first [ assumption | cbn; auto ]
  | eexists; split;
    [ cbn; rewrite <- ?app_assoc; simpl; reflexivity
    | simpl; rewrite ?touches_other by assumption; reflexivity ] ].

Lemma notifyByEmail_tombstone (kind : string)
      (send : string -> Game -> string -> Result bool)
      (game : Game) (subscriber : Subscription) (r : Run St) :
  keeps r (runOf (notifyByEmail storage kind send game subscriber r)).
Proof.
  intros Hd. unfold notifyByEmail. cbv zeta.
  ledger_step TryRecord (store r) Hd Hother Hd1.
  specialize (Hd1 ltac:(discriminate)).
  destruct answer as [[|]|]; [|finish_tombstone..].
  specialize (Hother eq_refl eq_refl).
  ledger_step MarkSending w Hd1 Hskip Hd2.
  specialize (Hd2 ltac:(discriminate)).
  destruct answer as [marked|]; [|finish_tombstone].
  destruct (send (email subscriber) game (unsubscribeToken subscriber))
    as [[|]|].
  - ledger_step MarkSent w0 Hd2 Hskip' Hd3.
    specialize (Hd3 ltac:(discriminate)).
    destruct answer as [sent|]; finish_tombstone.
  - ledger_step DeleteRecord w0 Hd2 Hskip' Hd3.
    specialize (Hd3 (fun _ => Hother)).
    destruct answer as [deleted|]; finish_tombstone.
  - ledger_step DeleteRecord w0 Hd2 Hskip' Hd3.
    specialize (Hd3 (fun _ => Hother)).
    destruct answer as [deleted|]; finish_tombstone.
Qed.

Lemma notifyByPush_tombstone (needs24Hour : bool) (game : Game)
      (pushSub : PushSubscription) (r : Run St) :
  keeps r (runOf (notifyByPush storage messaging needs24Hour game pushSub r)).
Proof.
  intros Hd. unfold notifyByPush. cbv zeta.
  ledger_step TryRecord (store r) Hd Hother Hd1.
  specialize (Hd1 ltac:(discriminate)).
  destruct answer as [[|]|]; [|finish_tombstone..].
  specialize (Hother eq_refl eq_refl).
  match goal with
  | |- context [FirebaseAdmin.sendPushNotification ?m ?a ?b ?c] =>
      destruct (FirebaseAdmin.sendPushNotification m a b c)
  end.
  - ledger_step MarkSent w Hd1 Hskip Hd2.
    specialize (Hd2 ltac:(discriminate)).
    destruct answer as [sent|]; finish_tombstone.
  - ledger_step DeleteRecord w Hd1 Hskip Hd2.
    specialize (Hd2 (fun _ => Hother)).
    destruct answer as [deleted|]; [|finish_tombstone].
    pose proof (ledger_deletePush (fcmToken pushSub) w0) as Hsame.
    destruct (deletePushSubscriptionByToken storage (fcmToken pushSub) w0)
      as [[removed|] w1]; cbn [fst snd store called noted] in *;
      rewrite <- Hsame in Hd2; finish_tombstone.
Qed.

Lemma pass_tombstone (w : St) :
  delivered g s t (ledger w) ->
  let r := checkAndSendNotifications
             storage emailService messaging tz now w in
  delivered g s t (ledger (store r))
  /\ existsb (touches g s t) (calls r) = false.
Proof.
  intros Hd r.
  destruct (pass_keeps_run storage emailService messaging tz now keeps)
    with (st := w) as (Hafter & added & Hcalls & Hnone).
  - intros r0 Hd0. split; [exact Hd0|]. exists [].
    rewrite app_nil_r. split; reflexivity.
  - intros r1 r2 r3 H12 H23 Hd1.
    destruct (H12 Hd1) as (Hd2 & a1 & Hc1 & Hn1).
    destruct (H23 Hd2) as (Hd3 & a2 & Hc2 & Hn2).
    split; [exact Hd3|]. exists (a1 ++ a2)%list.
    rewrite Hc2, Hc1, app_assoc, existsb_app, Hn1, Hn2.
    split; reflexivity.
  - intros f r0 Hd0. split; [exact Hd0|]. exists [].
    rewrite app_nil_r. split; reflexivity.
  - intros r0 st Hst Hd0.
    assert (Hsame : ledger st = ledger (store r0)).
    { destruct Hst as [->|[->| ->]];
        [apply ledger_games|apply ledger_subscriptions
        |apply ledger_pushSubscriptions]. }
    split; [cbn [store withStore]; rewrite Hsame; exact Hd0|].
    exists []. rewrite app_nil_r. split; reflexivity.
  - intros a r0. destruct a; simpl.
    + intros Hd0. split; [exact Hd0|]. exists [].
      rewrite app_nil_r. split; reflexivity.
    + intros Hd0. split; [exact Hd0|]. exists [].
      rewrite app_nil_r. split; reflexivity.
    + apply notifyByEmail_tombstone.
    + apply notifyByEmail_tombstone.
    + apply notifyByPush_tombstone.
  - exact Hd.
  - split; [exact Hafter|]. subst r. rewrite Hcalls. exact Hnone.
Qed.

End Tombstone.

End LedgerPass.

(* ------------------------------------------------------------------ *)
(** ** The storage of a pass, call by call *)

Section SessionStorage.
Import DbSession.

Variable k : Circumstances.

Let ledger (w : Session) : Table := sentNotifications (database w).
Let targets (w : Session) : list PushSubscription :=
  pushSubscriptions (database w).

Lemma session_ledgerCall (m : Method) (g s t : string) (w : Session) :
  ledgerCall (storage k) m g s t w
  = (fst (perform m (conditionsAt k (callNo w)) (clockAt k (callNo w))
                  g s t (sentNotifications (arrive k w))),
     leave (Db.withTable
              (arrive k w)
              (snd (perform m (conditionsAt k (callNo w))
                            (clockAt k (callNo w)) g s t
                            (sentNotifications (arrive k w))))) w).
Proof.
  destruct m; simpl; unfold onLedger; cbv zeta;
    match goal with
    | |- (let (_, _) := ?x in _) = _ => destruct x; reflexivity
    end.
Qed.

Lemma session_load {A : Type} (read : Database -> A) (w : Session) :
  database (snd (load k read w)) = arrive k w.
Proof.
  unfold load. cbv zeta.
  destruct (rejects (conditionsAt k (callNo w)) 0); reflexivity.
Qed.

Section Ledger.

Hypothesis quiet : ledgerUndisturbed k.

Lemma session_ledger (m : Method) (g s t : string) (w : Session) :
  exists c now,
    undisturbed c
    /\ fst (ledgerCall (storage k) m g s t w)
       = fst (perform m c now g s t (ledger w))
    /\ ledger (snd (ledgerCall (storage k) m g s t w))
       = snd (perform m c now g s t (ledger w)).
Proof.
  exists (conditionsAt k (callNo w)), (clockAt k (callNo w)).
  rewrite session_ledgerCall. unfold ledger, arrive.
  destruct (quiet (callNo w)) as [Hc Hothers]. rewrite Hothers.
  split; [exact Hc|]. split; reflexivity.
Qed.

Lemma session_load_ledger {A : Type} (read : Database -> A) (w : Session) :
  ledger (snd (load k read w)) = ledger w.
Proof.
  unfold ledger. rewrite session_load. apply quiet.
Qed.

Lemma session_deletePush_ledger (token : string) (w : Session) :
  ledger (snd (deletePushSubscriptionByToken (storage k) token w))
  = ledger w.
Proof.
  unfold ledger. simpl. cbv zeta.
  destruct (rejects (conditionsAt k (callNo w)) 0); simpl; apply quiet.
Qed.

End Ledger.

Section Targets.

Hypothesis quiet : pushTargetsUndisturbed k.

Lemma session_ledger_targets (m : Method) (g s t : string) (w : Session) :
  targets (snd (ledgerCall (storage k) m g s t w)) = targets w.
Proof.
  rewrite session_ledgerCall. unfold targets. simpl. apply quiet.
Qed.

Lemma session_load_targets {A : Type} (read : Database -> A) (w : Session) :
  targets (snd (load k read w)) = targets w.
Proof.
  unfold targets. rewrite session_load. apply quiet.
Qed.

(** [deletePushSubscriptionByToken] is rejected, or removes the targets
    of the token and no other. *)
Lemma session_deletePush_targets (token : string) (w : Session) :
  let after :=
    targets (snd (deletePushSubscriptionByToken (storage k) token w)) in
  after = targets w
  \/ after = filter (fun p => negb (fcmToken p =? token)%string) (targets w).
Proof.
  unfold targets. simpl. cbv zeta.
  destruct (rejects (conditionsAt k (callNo w)) 0); simpl.
  - left. apply quiet.
  - right. unfold arrive. rewrite quiet. reflexivity.
Qed.

Variable emailService : EmailService.
Variable messaging : string -> string -> string -> MessagingOutcome.
Variables tz now : Z.

(** A push to the token of the target was sent and not accepted. *)
Let refused (p : PushSubscription) (l : list Call) : Prop :=
  exists title body,
    In (CallSendPush (fcmToken p) title body) l
    /\ FirebaseAdmin.sendPushNotification messaging (fcmToken p) title body
       = false.

Let shrinks (r r' : Run Session) : Prop :=
  (exists added, calls r' = (calls r ++ added)%list)
  /\ incl (targets (store r')) (targets (store r))
  /\ forall p, In p (targets (store r)) ->
               In p (targets (store r')) \/ refused p (calls r').

Lemma shrinks_same (r r' : Run Session) (added : list Call) :
  calls r' = (calls r ++ added)%list ->
  targets (store r') = targets (store r) ->
  shrinks r r'.
Proof.
  intros Hcalls Hsame. split; [exists added; exact Hcalls|].
  rewrite Hsame. split; [apply incl_refl|]. intros p Hp. left. exact Hp.
Qed.

Lemma shrinks_refl (r : Run Session) : shrinks r r.
Proof.
  apply (shrinks_same r r []); [rewrite app_nil_r|]; reflexivity.
Qed.

Lemma shrinks_trans (r1 r2 r3 : Run Session) :
  shrinks r1 r2 -> shrinks r2 r3 -> shrinks r1 r3.
Proof.
  intros ([a1 Hc1] & Hi1 & Hp1) ([a2 Hc2] & Hi2 & Hp2).
  split; [exists (a1 ++ a2)%list; rewrite Hc2, Hc1, app_assoc; reflexivity|].
  split; [eapply incl_tran; eassumption|].
  intros p Hp. destruct (Hp1 p Hp) as [Hin|(title & body & Hin & Hno)].
  - apply Hp2, Hin.
  - right. exists title, body. split; [|exact Hno].
    rewrite Hc2. apply in_or_app. left. exact Hin.
Qed.

Ltac targets_step m w :=
  match goal with
  | |- context [?call (storage k) ?g' ?s' ?t' w] =>
      let ans := fresh "answer" in
      let w' := fresh "w" in
      let H := fresh "Hsame" in
      pose proof (session_ledger_targets m g' s' t' w) as H;
      cbn [ledgerCall] in H;
      destruct (call (storage k) g' s' t' w) as [ans w'];
      cbn [fst snd store called noted] in *
  end.

Ltac same_targets :=
  eapply shrinks_same;
  [ cbn [calls called noted runOf onResult pushError countEmailSent
         countSkippedDuplicate store result];
    rewrite <- ?app_assoc; reflexivity
  | cbn [calls called noted runOf onResult pushError countEmailSent
         countSkippedDuplicate store result]; congruence ].

Lemma notifyByEmail_shrinks (kind : string)
      (send : string -> Game -> string -> Result bool)
      (game : Game) (subscriber : Subscription) (r : Run Session) :
  shrinks r (runOf (notifyByEmail (storage k) kind send game subscriber r)).
Proof.
  unfold notifyByEmail. cbv zeta.
  targets_step TryRecord (store r).
  destruct answer as [[|]|]; [|same_targets..].
  targets_step MarkSending w.
  destruct answer as [marked|]; [|same_targets].
  destruct (send (email subscriber) game (unsubscribeToken subscriber))
    as [[|]|].
  - targets_step MarkSent w0. destruct answer as [sent|]; same_targets.
  - targets_step DeleteRecord w0.
    destruct answer as [deleted|]; same_targets.
  - targets_step DeleteRecord w0.
    destruct answer as [deleted|]; same_targets.
Qed.

Lemma notifyByPush_shrinks (needs24Hour : bool) (game : Game)
      (pushSub : PushSubscription) (r : Run Session) :
  shrinks r (runOf (notifyByPush (storage k) messaging needs24Hour game
                                 pushSub r)).
Proof.
  unfold notifyByPush. cbv zeta.
  targets_step TryRecord (store r).
  destruct answer as [[|]|]; [|same_targets..].
  match goal with
  | |- context [FirebaseAdmin.sendPushNotification ?m ?a ?b ?c] =>
      set (title := b); set (body := c);
      destruct (FirebaseAdmin.sendPushNotification m a title body)
        eqn:Hsend
  end.
  - targets_step MarkSent w. destruct answer as [sent|]; same_targets.
  - targets_step DeleteRecord w.
    destruct answer as [deleted|]; [|same_targets].
    pose proof (session_deletePush_targets (fcmToken pushSub) w0) as Hleft.
    cbv zeta in Hleft.
    destruct (deletePushSubscriptionByToken (storage k) (fcmToken pushSub)
                                            w0) as [removed w1].
    cbn [fst snd] in Hleft.
    assert (Hrun :
              shrinks r
                      (called (CallDeletePushSubscription (fcmToken pushSub))
                              w1
                              (called (CallDeleteRecord
                                         (game_id game) (push_id pushSub)
                                         (if needs24Hour then "24hour-push"
                                          else "gameday-push"))
                                      w0
                                      (called (CallSendPush
                                                 (fcmToken pushSub)
                                                 title body)
                                              w
                                              (called (CallTryRecord
                                                         (game_id game)
                                                         (push_id pushSub)
                                                         (if needs24Hour
                                                          then "24hour-push"
                                                          else "gameday-push"))
                                                      w r))))).
    { destruct Hleft as [Hleft|Hleft].
      - eapply shrinks_same;
          [cbn [calls called]; rewrite <- !app_assoc; reflexivity|].
        cbn [store called]. congruence.
      - split; [eexists; cbn [calls called]; rewrite <- !app_assoc;
                reflexivity|].
        cbn [store called calls]. rewrite Hleft.
        assert (Hw0 : targets w0 = targets (store r)) by congruence.
        rewrite Hw0. split; [apply incl_filter|].
        intros p Hp.
        destruct (fcmToken p =? fcmToken pushSub)%string eqn:Htoken.
        + right. apply String.eqb_eq in Htoken. exists title, body.
          rewrite Htoken. split; [|exact Hsend].
          rewrite !in_app_iff. simpl. tauto.
        + left. apply filter_In. split; [exact Hp|].
          rewrite Htoken. reflexivity. }
    destruct removed as [removed|]; exact Hrun.
Qed.

Lemma pass_shrinks (w : Session) :
  shrinks {| result := emptyCheck; store := w; calls := [] |}
          (checkAndSendNotifications
             (storage k) emailService messaging tz now w).
Proof.
  apply (pass_keeps_run (storage k) emailService messaging tz now shrinks).
  - apply shrinks_refl.
  - apply shrinks_trans.
  - intros f r. apply (shrinks_same _ _ []);
      [rewrite app_nil_r|]; reflexivity.
  - intros r st Hst. apply (shrinks_same _ _ []);
      [rewrite app_nil_r; reflexivity|].
    cbn [store withStore].
    destruct Hst as [->|[->| ->]]; apply session_load_targets.
  - intros a r. destruct a; simpl.
    + apply (shrinks_same _ _ []); [rewrite app_nil_r|]; reflexivity.
    + apply (shrinks_same _ _ []); [rewrite app_nil_r|]; reflexivity.
    + apply notifyByEmail_shrinks.
    + apply notifyByEmail_shrinks.
    + apply notifyByPush_shrinks.
Qed.

End Targets.

End SessionStorage.

(** X1.  A key whose record is [Sent] is never delivered again.  As long
    as nobody else writes the ledger, a pass leaves the record [Sent] and
    makes no call that marks or deletes the record of that key.  This
    holds whichever storage calls are rejected, call by call (a call may
    fail and the next one succeed, the loads and the removal of a push
    subscription included), whatever clock each call reads, whatever the
    deliveries do, and whatever others write to the other tables. *)
Theorem sent_record_is_never_delivered_again :
  forall (k : DbSession.Circumstances) (emailService : EmailService)
         (messaging : string -> string -> string -> MessagingOutcome)
         (tz now : Z) (w : DbSession.Session) (g s t : string),
    DbSession.ledgerUndisturbed k ->
    delivered g s t (sentNotifications (DbSession.database w)) ->
    let r := checkAndSendNotifications
               (DbSession.storage k) emailService messaging tz now w in
    delivered g s t (sentNotifications (DbSession.database (store r)))
    /\ existsb (touches g s t) (calls r) = false.
Proof.
  intros k emailService messaging tz now w g s t quiet Hd.
  apply (pass_tombstone
           (DbSession.storage k)
           (fun w0 => sentNotifications (DbSession.database w0))).
  - intros m g' s' t' w0. apply session_ledger, quiet.
  - intros w0. apply (session_load_ledger k quiet).
  - intros w0. apply (session_load_ledger k quiet).
  - intros w0. apply (session_load_ledger k quiet).
  - intros token w0. apply (session_deletePush_ledger k quiet).
  - exact Hd.
Qed.

(** X1 on the sample data: alice's reminder has been sent, and a pass
    over a storage that rejects every fourth call, with a failing email
    capability, does not touch her record. *)
Lemma sent_record_on_sample :
  existsb (touches "game-1" "sub-1" "24hour")
          (calls (checkAndSendNotifications
                    (DbSession.storage Flaky.circumstances)
                    Sample.emailThrows Sample.pushWorks 0 Sample.dayBefore
                    (Flaky.start Archive.afterDelivery)))
  = false.
Proof.
  apply (sent_record_is_never_delivered_again
           Flaky.circumstances Sample.emailThrows Sample.pushWorks
           0 Sample.dayBefore (Flaky.start Archive.afterDelivery)
           "game-1" "sub-1" "24hour").
  - intros n. split; [intros q tb; reflexivity|reflexivity].
  - exists Archive.sentToAlice. split; reflexivity.
Defined.

(** X3.  As long as nobody else writes [push_subscriptions], a pass adds
    no push subscription, and it removes one only if a push sent to its
    token during this pass was not accepted: a subscription of before the
    pass is still there after it, or the calls of the pass contain a push
    to its token that [sendPushNotification] answered with false.  This
    holds whichever storage calls are rejected, call by call, and
    whatever other workers do to the ledger. *)
Theorem pass_removes_only_refused_push_targets :
  forall (k : DbSession.Circumstances) (emailService : EmailService)
         (messaging : string -> string -> string -> MessagingOutcome)
         (tz now : Z) (w : DbSession.Session),
    DbSession.pushTargetsUndisturbed k ->
    let r := checkAndSendNotifications
               (DbSession.storage k) emailService messaging tz now w in
    incl (pushSubscriptions (DbSession.database (store r)))
         (pushSubscriptions (DbSession.database w))
    /\ forall p,
        In p (pushSubscriptions (DbSession.database w)) ->
        In p (pushSubscriptions (DbSession.database (store r)))
        \/ exists title body,
            In (CallSendPush (fcmToken p) title body) (calls r)
            /\ FirebaseAdmin.sendPushNotification
                 messaging (fcmToken p) title body = false.
Proof.
  intros k emailService messaging tz now w quiet r.
  destruct (pass_shrinks k quiet emailService messaging tz now w)
    as (_ & Hincl & Hgone).
  split; [exact Hincl|exact Hgone].
Qed.

(** X3 on the sample data: every push is refused and every storage call
    succeeds, so the phone is removed, after a push to its token. *)
Lemma refused_push_target_on_sample :
  let r := checkAndSendNotifications
             (DbSession.storage Flaky.steady)
             Sample.emailWorks Sample.pushTokenGone 0 Sample.dayBefore
             (Flaky.start (Sample.database [Sample.bob] [Sample.phone])) in
  pushSubscriptions (DbSession.database (store r)) = []
  /\ exists title body,
      In (CallSendPush "token-1" title body) (calls r).
Proof.
  cbv zeta. split; [reflexivity|].
  destruct (pass_removes_only_refused_push_targets
              Flaky.steady Sample.emailWorks Sample.pushTokenGone
              0 Sample.dayBefore
              (Flaky.start (Sample.database [Sample.bob] [Sample.phone]))
              (fun _ _ => eq_refl)) as [_ Hgone].
  destruct (Hgone Sample.phone (or_introl eq_refl))
    as [Hstill|(title & body & Hsent & _)].
  - destruct Hstill.
  - exists title, body. exact Hsent.
Defined.

(** X4.  As long as nobody else writes the ledger, a pass keeps its
    records apart: from a table whose primary keys are distinct (and
    below the next id of the generator, which makes a new id fresh) and
    in which no two records have the same (game, subscriber, kind), it
    leads to a table with distinct primary keys and no two records of the
    same (game, subscriber, kind).  This holds whichever deliveries fail
    and whichever storage calls are rejected, call by call, and whatever
    clock each call reads. *)
Theorem pass_keeps_ledger_keys_unique :
  forall (k : DbSession.Circumstances) (emailService : EmailService)
         (messaging : string -> string -> string -> MessagingOutcome)
         (tz now : Z) (w : DbSession.Session),
    DbSession.ledgerUndisturbed k ->
    wellKeyed (sentNotifications (DbSession.database w)) ->
    uniqueKeys (sentNotifications (DbSession.database w)) ->
    let r := checkAndSendNotifications
               (DbSession.storage k) emailService messaging tz now w in
    NoDup (map sn_id
               (rows (sentNotifications (DbSession.database (store r)))))
    /\ uniqueKeys (sentNotifications (DbSession.database (store r))).
Proof.
  intros k emailService messaging tz now w quiet Hwell Hunique r.
  assert (Hkept :
            wellKeyed (sentNotifications (DbSession.database (store r)))
            /\ uniqueKeys (sentNotifications
                             (DbSession.database (store r)))).
  { apply (pass_keeps_ledger
             (DbSession.storage k)
             (fun w0 => sentNotifications (DbSession.database w0))
             (fun m g s t w0 => session_ledger k quiet m g s t w0)
             (session_load_ledger k quiet _)
             (session_load_ledger k quiet _)
             (session_load_ledger k quiet _)
             (session_deletePush_ledger k quiet)
             emailService messaging tz now
             (fun tb tb' =>
                wellKeyed tb /\ uniqueKeys tb ->
                wellKeyed tb' /\ uniqueKeys tb')).
    - intros tb H0. exact H0.
    - intros tb1 tb2 tb3 H12 H23 H1. apply H23, H12, H1.
    - intros m c now' g s t tb Hc [Hw Hu]. split.
      + apply wellKeyed_perform; [apply Hc|exact Hw].
      + apply uniqueKeys_perform; [apply Hc|exact Hu].
    - split; assumption. }
  destruct Hkept as [[Hids _] Hkeys]. split; assumption.
Qed.

(** X4 on the sample data, starting from an empty ledger, over a storage
    that rejects every fourth call. *)
Lemma ledger_keys_on_sample :
  let r := checkAndSendNotifications
             (DbSession.storage Flaky.circumstances)
             Sample.emailWorks Sample.pushWorks 0 Sample.dayBefore
             (Flaky.start (Sample.database [Sample.alice] [Sample.phone])) in
  NoDup (map sn_id
             (rows (sentNotifications (DbSession.database (store r)))))
  /\ uniqueKeys (sentNotifications (DbSession.database (store r))).
Proof.
  apply (pass_keeps_ledger_keys_unique
           Flaky.circumstances Sample.emailWorks Sample.pushWorks
           0 Sample.dayBefore
           (Flaky.start (Sample.database [Sample.alice] [Sample.phone]))).
  - intros n. split; [intros q tb; reflexivity|reflexivity].
  - split; simpl; constructor.
  - unfold uniqueKeys. simpl. constructor.
Defined.

(* ------------------------------------------------------------------ *)
(** ** Two workers and one stale record *)

Section Race.
Import Sql.

Variables (g s t : string) (tb : Table).
Variables (record : SentNotification) (more : list SentNotification).
Hypothesis wellFormed : wellKeyed tb.
Hypothesis read : selectWhere (sameKey g s t) tb = record :: more.
Hypothesis live : status record <> Sent.

Lemma stale_claim_alone (now : Z) :
  createdAt record < now - DbStorage.fiveMinutes ->
  DbStorage.tryRecordNotificationAtomically alone now g s t tb
  = (Ok true,
     {| rows := map (fun r =>
                       if DbStorage.staleGuard
                            record (now - DbStorage.fiveMinutes) r
                       then DbStorage.withStatusAndCreatedAt Pending now r
                       else r)
                    (rows tb);
        nextId := nextId tb |}).
Proof.
  intros Hstale.
  destruct (select_head_in _ _ _ _ read) as [Hin Hkey].
  assert (Hexists : existsb (sameKey g s t) (rows tb) = true)
    by (apply existsb_exists; eauto).
  assert (Hold : (createdAt record <? now - DbStorage.fiveMinutes) = true)
    by (apply Z.ltb_lt; exact Hstale).
  assert (Hguard : existsb (DbStorage.staleGuard
                              record (now - DbStorage.fiveMinutes))
                           (rows tb) = true).
  { apply existsb_exists. exists record. split; [exact Hin|].
    unfold DbStorage.staleGuard.
    rewrite Nat.eqb_refl, Status_eqb_refl, Hold. reflexivity. }
  unfold DbStorage.tryRecordNotificationAtomically.
  cbn [alone rejects concurrent].
  rewrite (insertPending_conflict now g s t tb Hexists), read, Hold.
  destruct (status record) eqn:Hstatus; [| |congruence];
    rewrite (reclaim_answer alone now record _ tb eq_refl);
    cbn [alone concurrent]; rewrite Hguard.
  - rewrite (pending_refresh_is_reset record _ now _ Hstatus). reflexivity.
  - reflexivity.
Qed.

(** After one worker has taken the stale record over at [nowFirst], the
    guard of a worker that had read the same record finds no row. *)
Lemma guard_after_reclaim (nowFirst nowSecond : Z) :
  createdAt record < nowFirst - DbStorage.fiveMinutes ->
  nowSecond - DbStorage.fiveMinutes <= nowFirst ->
  existsb (DbStorage.staleGuard record (nowSecond - DbStorage.fiveMinutes))
          (map (fun r =>
                  if DbStorage.staleGuard
                       record (nowFirst - DbStorage.fiveMinutes) r
                  then DbStorage.withStatusAndCreatedAt Pending nowFirst r
                  else r)
               (rows tb))
  = false.
Proof.
  intros Hstale Hclose.
  destruct (select_head_in _ _ _ _ read) as [Hin _].
  apply not_true_is_false. intros Hsome.
  apply existsb_exists in Hsome. destruct Hsome as (r' & Hr' & Hguard').
  apply in_map_iff in Hr'. destruct Hr' as (r & Himage & Hr).
  unfold DbStorage.staleGuard in Hguard'.
  rewrite !andb_true_iff, Nat.eqb_eq, Status_eqb_eq, Z.ltb_lt in Hguard'.
  destruct Hguard' as [[Hid Hstatus] Hold'].
  destruct (DbStorage.staleGuard record (nowFirst - DbStorage.fiveMinutes) r)
    eqn:Hguard; subst r'.
  - simpl in Hold'. lia.
  - assert (r = record) as ->
      by (apply (same_id_same_row tb); assumption).
    unfold DbStorage.staleGuard in Hguard.
    rewrite Nat.eqb_refl, Status_eqb_refl in Hguard. simpl in Hguard.
    apply Z.ltb_ge in Hguard. lia.
Qed.

End Race.

(** X5.  Two workers find the same record of a key stale.  The one whose
    conditional update runs first gets true; the other, which read the
    record before that update and updates after it, gets false, provided
    its own clock is no more than five minutes past the first claim.
    Afterwards any claim of the key made within five minutes of the first
    one is refused as well. *)
Theorem stale_record_is_taken_over_once :
  forall (g s t : string) (tb : Table) (record : SentNotification)
         (more : list SentNotification) (nowFirst nowSecond : Z),
    wellKeyed tb ->
    Sql.selectWhere (Sql.sameKey g s t) tb = record :: more ->
    status record <> Sent ->
    createdAt record < nowFirst - DbStorage.fiveMinutes ->
    createdAt record < nowSecond - DbStorage.fiveMinutes ->
    nowSecond - DbStorage.fiveMinutes <= nowFirst ->
    let first :=
      DbStorage.tryRecordNotificationAtomically alone nowFirst g s t tb in
    fst first = Ok true
    /\ fst (DbStorage.tryRecordNotificationAtomically
              (overtakenAtUpdate nowFirst g s t) nowSecond g s t tb)
       = Ok false
    /\ (forall (c : Conditions) (later : Z),
           undisturbed c ->
           later - DbStorage.fiveMinutes <= nowFirst ->
           fst (DbStorage.tryRecordNotificationAtomically
                  c later g s t (snd first)) <> Ok true).
Proof.
  intros g s t tb record more nowFirst nowSecond Hwell Hread Hlive
         Hstale1 Hstale2 Hclose first.
  pose proof (stale_claim_alone g s t tb record more Hread Hlive nowFirst
                                Hstale1) as Hfirst.
  fold first in Hfirst.
  destruct (select_head_in _ _ _ _ Hread) as [Hin Hkey].
  split; [rewrite Hfirst; reflexivity|]. split.
  - unfold DbStorage.tryRecordNotificationAtomically.
    cbn [overtakenAtUpdate rejects concurrent].
    rewrite (insertPending_conflict nowSecond g s t tb)
      by (apply existsb_exists; eauto).
    rewrite Hread.
    assert (Hold : (createdAt record <? nowSecond - DbStorage.fiveMinutes)
                   = true) by (apply Z.ltb_lt; exact Hstale2).
    rewrite Hold.
    assert (Hnone :
              forall set,
                fst (DbStorage.reclaim (overtakenAtUpdate nowFirst g s t)
                                       nowSecond record set tb)
                = Ok false).
    { intros set. rewrite reclaim_answer by reflexivity.
      cbn [overtakenAtUpdate concurrent fst].
      fold first. rewrite Hfirst. cbn [snd rows].
      rewrite (guard_after_reclaim g s t tb record more Hwell Hread
                                   nowFirst nowSecond Hstale1 Hclose).
      reflexivity. }
    destruct (status record); [apply Hnone|apply Hnone|congruence].
  - intros c later Hquiet Hlater Htrue.
    assert (Hsettled : settled later g s t (snd first)).
    { exists (DbStorage.withStatusAndCreatedAt Pending nowFirst record).
      split; [|right; simpl; exact Hlater].
      rewrite Hfirst. cbn [snd].
      change (firstOfKey
                g s t
                (snd (Sql.updateWhere
                        (DbStorage.staleGuard
                           record (nowFirst - DbStorage.fiveMinutes))
                        (DbStorage.withStatusAndCreatedAt Pending nowFirst)
                        tb))
              = Some (DbStorage.withStatusAndCreatedAt
                        Pending nowFirst record)).
      rewrite firstOfKey_update by reflexivity.
      unfold firstOfKey. rewrite Hread. simpl.
      unfold DbStorage.staleGuard.
      rewrite Nat.eqb_refl, Status_eqb_refl. simpl.
      replace (createdAt record <? nowFirst - DbStorage.fiveMinutes)
        with true by (symmetry; apply Z.ltb_lt; exact Hstale1).
      reflexivity. }
    destruct (claim_out_of_reach c later g s t (snd first) Hquiet Hsettled)
      as [Heq|Heq]; rewrite Heq in Htrue; discriminate.
Qed.

(* ------------------------------------------------------------------ *)
(** ** The counters of the result *)

Section Counters.

Variables tz now : Z.
Variable emailService : EmailService.
Variable messaging : string -> string -> string -> MessagingOutcome.

Let storage := Db.quiet now.
Let run := runAttempt storage emailService messaging.

Lemma count_app {A : Type} (p : A -> bool) (l1 l2 : list A) :
  count p (l1 ++ l2) = (count p l1 + count p l2)%nat.
Proof. unfold count. rewrite filter_app, length_app. reflexivity. Qed.

(** What an attempt adds to the counters. *)
Let counted (a : Attempt) (r r' : Run Database) : Prop :=
  gamesIn24Hours (result r')
  = (gamesIn24Hours (result r) + count isCount24Hours [a])%nat
  /\ gamesMorningOf (result r')
     = (gamesMorningOf (result r) + count isCountMorningOf [a])%nat
  /\ exists added,
      calls r' = (calls r ++ added)%list
      /\ emailsSent (result r')
         = (emailsSent (result r) + count isMarkSent added)%nat.

Ltac counted_done :=
  eexists; split; [reflexivity|]; unfold counted; cbn -[count];
  split; [first [lia|unfold count; simpl; lia]|];
  split; [first [lia|unfold count; simpl; lia]|];
  eexists; split; [rewrite <- ?app_assoc; simpl; reflexivity|];
  unfold count; simpl; lia.

Lemma email_counted (a : Attempt) (kind : string)
      (send : string -> Game -> string -> Result bool)
      (game : Game) (subscriber : Subscription) (r : Run Database) :
  count isCount24Hours [a] = 0%nat -> count isCountMorningOf [a] = 0%nat ->
  exists r',
    notifyByEmail storage kind send game subscriber r = Next r'
    /\ counted a r r'.
Proof.
  intros H24 Hmorning. unfold notifyByEmail. cbv zeta.
  unfold storage. rewrite quiet_try.
  destruct (DbStorage.tryRecordNotificationAtomically
              alone now (game_id game) (sub_id subscriber) kind
              (sentNotifications (store r))) as [[[|]|] tb1];
    cbn [fst snd store called]; [|counted_done..].
  rewrite quiet_mark. cbn [sentNotifications Db.withTable].
  destruct (DbStorage.markNotificationSending
              alone now (game_id game) (sub_id subscriber) kind tb1)
    as [[marked|] tb2];
    cbn [fst snd store called noted]; [|counted_done].
  destruct (send (email subscriber) game (unsubscribeToken subscriber))
    as [[|]|].
  - rewrite quiet_sent. cbn [sentNotifications Db.withTable].
    destruct (DbStorage.markNotificationSent
                alone now (game_id game) (sub_id subscriber) kind tb2)
      as [[sent|] tb3];
      cbn [fst snd store called noted]; counted_done.
  - counted_done.
  - counted_done.
Qed.

Lemma push_counted (needs24Hour : bool) (game : Game)
      (pushSub : PushSubscription) (r : Run Database) :
  exists r',
    notifyByPush storage messaging needs24Hour game pushSub r = Next r'
    /\ counted (Push needs24Hour game pushSub) r r'.
Proof.
  unfold notifyByPush. cbv zeta. unfold storage. rewrite quiet_try.
  match goal with
  | |- context [DbStorage.tryRecordNotificationAtomically ?c ?n ?g ?s ?t ?tb]
    => destruct (DbStorage.tryRecordNotificationAtomically c n g s t tb)
      as [[[|]|] tb1]
  end; cbn [fst snd store called noted]; [|counted_done..].
  match goal with
  | |- context [FirebaseAdmin.sendPushNotification ?m ?a ?b ?c] =>
      destruct (FirebaseAdmin.sendPushNotification m a b c)
  end; counted_done.
Qed.

Lemma attempt_counted (a : Attempt) (r : Run Database) :
  exists r', run a r = Next r' /\ counted a r r'.
Proof.
  destruct a as [| |game subscriber|game subscriber|needs24 game pushSub];
    unfold run; simpl.
  - eexists. split; [reflexivity|]. unfold counted, count. simpl.
    split; [lia|]. split; [lia|]. exists []. rewrite app_nil_r.
    split; [reflexivity|simpl; lia].
  - eexists. split; [reflexivity|]. unfold counted, count. simpl.
    split; [lia|]. split; [lia|]. exists []. rewrite app_nil_r.
    split; [reflexivity|simpl; lia].
  - apply email_counted; reflexivity.
  - apply email_counted; reflexivity.
  - apply push_counted.
Qed.

Lemma plan_counted (plan : list Attempt) (r : Run Database) :
  exists r',
    forEach run plan r = Next r'
    /\ gamesIn24Hours (result r')
       = (gamesIn24Hours (result r) + count isCount24Hours plan)%nat
    /\ gamesMorningOf (result r')
       = (gamesMorningOf (result r) + count isCountMorningOf plan)%nat
    /\ exists added,
        calls r' = (calls r ++ added)%list
        /\ emailsSent (result r')
           = (emailsSent (result r) + count isMarkSent added)%nat.
Proof.
  revert r. induction plan as [|a plan IH]; intros r; simpl.
  - exists r. unfold count. simpl. repeat split; try lia.
    exists []. rewrite app_nil_r. split; [reflexivity|simpl; lia].
  - destruct (attempt_counted a r)
      as (r1 & -> & H24 & Hm & a1 & Hc1 & He1).
    destruct (IH r1) as (r' & -> & H24' & Hm' & a2 & Hc2 & He2).
    exists r'. split; [reflexivity|].
    change (a :: plan) with ([a] ++ plan)%list. rewrite !count_app.
    split; [lia|]. split; [lia|].
    exists (a1 ++ a2)%list. rewrite Hc2, Hc1, app_assoc, count_app.
    split; [reflexivity|lia].
Qed.

Lemma count_flat_map {A B : Type} (p : B -> bool) (f : A -> list B)
      (l : list A) (q : A -> bool) :
  (forall x, count p (f x) = if q x then 1%nat else 0%nat) ->
  count p (flat_map f l) = count q l.
Proof.
  intros Hone. induction l as [|x l IH]; simpl; [reflexivity|].
  rewrite count_app, IH, Hone. unfold count. simpl.
  destruct (q x); reflexivity.
Qed.

Lemma count_map_none {A B : Type} (p : B -> bool) (f : A -> B)
      (l : list A) :
  (forall x, p (f x) = false) -> count p (map f l) = 0%nat.
Proof.
  intros Hnone. unfold count.
  induction l as [|x l IH]; simpl; [reflexivity|].
  rewrite Hnone. exact IH.
Qed.

Lemma emailPlan_count24 (subs : list Subscription) (games : list Game) :
  count isCount24Hours (emailPlan tz now subs games)
  = count (needs24HourNotification tz now) games.
Proof.
  apply count_flat_map. intros game. unfold emailAttempts. cbv zeta.
  rewrite count_app.
  destruct (needs24HourNotification tz now game),
    (needsMorningNotification tz now game);
    change (?x :: ?l) with ([x] ++ l)%list;
    rewrite ?count_app, ?count_map_none by reflexivity; reflexivity.
Qed.

Lemma emailPlan_countMorning (subs : list Subscription)
      (games : list Game) :
  count isCountMorningOf (emailPlan tz now subs games)
  = count (needsMorningNotification tz now) games.
Proof.
  apply count_flat_map. intros game. unfold emailAttempts. cbv zeta.
  rewrite count_app.
  destruct (needs24HourNotification tz now game),
    (needsMorningNotification tz now game);
    change (?x :: ?l) with ([x] ++ l)%list;
    rewrite ?count_app, ?count_map_none by reflexivity; reflexivity.
Qed.

Lemma pushPlan_counts (pushSubs : list PushSubscription)
      (games : list Game) :
  count isCount24Hours (pushPlan tz now pushSubs games) = 0%nat
  /\ count isCountMorningOf (pushPlan tz now pushSubs games) = 0%nat.
Proof.
  unfold pushPlan. split.
  - rewrite (count_flat_map _ _ _ (fun _ => false)).
    + unfold count. induction games; simpl; auto.
    + intros game. unfold pushAttempts.
      destruct (_ || _); [apply count_map_none|]; reflexivity.
  - rewrite (count_flat_map _ _ _ (fun _ => false)).
    + unfold count. induction games; simpl; auto.
    + intros game. unfold pushAttempts.
      destruct (_ || _); [apply count_map_none|]; reflexivity.
Qed.

Lemma pass_counted (d : Database) :
  (List.length (subscriptions d) =? 0)%nat = false ->
  let r := checkAndSendNotifications
             storage emailService messaging tz now d in
  gamesIn24Hours (result r)
  = count (needs24HourNotification tz now) (games d)
  /\ gamesMorningOf (result r)
     = count (needsMorningNotification tz now) (games d)
  /\ emailsSent (result r) = count isMarkSent (calls r).
Proof.
  intros Hsome r. subst r. unfold storage.
  rewrite pass_by_plans. cbv zeta. rewrite Hsome.
  destruct (plan_counted (emailPlan tz now (subscriptions d) (games d))
                         {| result := emptyCheck; store := d; calls := [] |})
    as (r1 & Hrun & H24 & Hm & a1 & Hc1 & He1).
  unfold run, storage in Hrun. rewrite Hrun.
  rewrite emailPlan_count24 in H24. rewrite emailPlan_countMorning in Hm.
  simpl in H24, Hm, Hc1, He1.
  destruct (0 <? List.length (pushSubscriptions (store r1)))%nat.
  - destruct (plan_counted
                (pushPlan tz now (pushSubscriptions (store r1)) (games d)) r1)
      as (r2 & Hrun2 & H24' & Hm' & a2 & Hc2 & He2).
    unfold run, storage in Hrun2. rewrite Hrun2.
    destruct (pushPlan_counts (pushSubscriptions (store r1)) (games d))
      as [Hp24 Hpm].
    rewrite Hp24 in H24'. rewrite Hpm in Hm'.
    split; [lia|]. split; [lia|].
    rewrite Hc2, Hc1. simpl. rewrite count_app. lia.
  - split; [exact H24|]. split; [exact Hm|].
    rewrite Hc1. simpl. exact He1.
Qed.

Lemma pass_without_subscribers (d : Database) :
  (List.length (subscriptions d) =? 0)%nat = true ->
  result (checkAndSendNotifications
            storage emailService messaging tz now d)
  = emptyCheck.
Proof.
  intros Hnone. unfold storage. rewrite pass_by_plans. cbv zeta.
  rewrite Hnone. reflexivity.
Qed.

End Counters.

(** X2.  When every delivery succeeds, a second pass run right after the
    first one, at the same clock reading and with no other worker, sends
    nothing: it leaves the store as the first pass left it, counts no
    delivery, and calls neither the email nor the push capability. *)
Theorem second_pass_delivers_nothing :
  forall (tz now : Z) (emailService : EmailService)
         (messaging : string -> string -> string -> MessagingOutcome)
         (d : Database),
    deliveryWorks emailService messaging ->
    let r1 := checkAndSendNotifications
                (Db.quiet now) emailService messaging tz now d in
    let r2 := checkAndSendNotifications
                (Db.quiet now) emailService messaging tz now (store r1) in
    store r2 = store r1
    /\ emailsSent (result r2) = 0%nat
    /\ existsb isSendEmail (calls r2) = false
    /\ existsb isSendPush (calls r2) = false.
Proof.
  intros tz now emailService messaging d works.
  apply second_pass_skips. exact works.
Qed.

(** X2 on the sample data, the day before the game. *)
Lemma second_pass_on_sample :
  let r1 := checkAndSendNotifications
              (Db.quiet Sample.dayBefore) Sample.emailWorks Sample.pushWorks
              0 Sample.dayBefore
              (Sample.database [Sample.alice] [Sample.phone]) in
  emailsSent (result r1) = 2%nat
  /\ emailsSent
       (result (checkAndSendNotifications
                  (Db.quiet Sample.dayBefore) Sample.emailWorks
                  Sample.pushWorks 0 Sample.dayBefore (store r1)))
     = 0%nat.
Proof.
  split; [reflexivity|].
  apply (second_pass_delivers_nothing
           0 Sample.dayBefore Sample.emailWorks Sample.pushWorks
           (Sample.database [Sample.alice] [Sample.phone])).
  repeat split.
Defined.

(** X5 on the record stuck in [Sending]: of two workers that read it six
    minutes later, the one that updates second is refused. *)
Lemma stale_record_race_on_sample :
  fst (DbStorage.tryRecordNotificationAtomically
         alone Sample.sixMinutes "game-1" "sub-1" "24hour" Sample.stuckTable)
  = Ok true
  /\ fst (DbStorage.tryRecordNotificationAtomically
            (overtakenAtUpdate Sample.sixMinutes "game-1" "sub-1" "24hour")
            Sample.sixMinutes "game-1" "sub-1" "24hour" Sample.stuckTable)
     = Ok false.
Proof.
  destruct (stale_record_is_taken_over_once
              "game-1" "sub-1" "24hour" Sample.stuckTable
              Sample.stuckSending [] Sample.sixMinutes Sample.sixMinutes)
    as (Hfirst & Hsecond & _).
  - split; simpl; repeat constructor. intros [].
  - reflexivity.
  - discriminate.
  - reflexivity.
  - reflexivity.
  - vm_compute. discriminate.
  - split; assumption.
Defined.

(** X6.  With at least one email subscriber and the storage answering
    without failure, the result of a pass counts every game that is in the
    24-hour window and every game that is in the game-day window, whether
    or not anyone is interested in it, and its count of deliveries is the
    number of calls of [markNotificationSent]. *)
Theorem pass_counters_are_exact :
  forall (tz now : Z) (emailService : EmailService)
         (messaging : string -> string -> string -> MessagingOutcome)
         (d : Database),
    subscriptions d <> [] ->
    let r := checkAndSendNotifications
               (Db.quiet now) emailService messaging tz now d in
    gamesIn24Hours (result r)
    = count (needs24HourNotification tz now) (games d)
    /\ gamesMorningOf (result r)
       = count (needsMorningNotification tz now) (games d)
    /\ emailsSent (result r) = count isMarkSent (calls r).
Proof.
  intros tz now emailService messaging d Hsome.
  apply pass_counted.
  destruct (subscriptions d); [contradiction|reflexivity].
Qed.

(** X6 on the sample data: one game in the 24-hour window, although the
    only email subscriber follows another sport. *)
Lemma pass_counters_on_sample :
  gamesIn24Hours
    (result (checkAndSendNotifications
               (Db.quiet Sample.dayBefore) Sample.emailWorks Sample.pushWorks
               0 Sample.dayBefore
               (Sample.database [Sample.bob] [Sample.phone])))
  = 1%nat.
Proof.
  apply (pass_counters_are_exact
           0 Sample.dayBefore Sample.emailWorks Sample.pushWorks
           (Sample.database [Sample.bob] [Sample.phone])).
  discriminate.
Defined.

(* ------------------------------------------------------------------ *)
(** ** Looking a notification up *)

Section Lookup.
Import Sql.

Variables (now : Z) (g s t : string).

Lemma has_alone (tb : Table) :
  DbNotifications.hasNotificationBeenSent alone g s t tb
  = (Ok (existsb (sameKey g s t) (rows tb)), tb).
Proof.
  unfold DbNotifications.hasNotificationBeenSent.
  cbn [alone rejects concurrent]. unfold selectWhere.
  rewrite deleted_some. reflexivity.
Qed.

Lemma no_key_after_delete (tb : Table) :
  existsb (sameKey g s t)
          (rows (snd (DbStorage.deleteNotificationRecord alone g s t tb)))
  = false.
Proof.
  simpl. induction (rows tb) as [|r l IH]; [reflexivity|].
  simpl. destruct (sameKey g s t r) eqn:Hkey; simpl;
    [exact IH|rewrite Hkey; exact IH].
Qed.

End Lookup.

(** X7.  [hasNotificationBeenSent] tells whether the key has a record,
    not whether the notification was sent: it answers true right after a
    successful claim, when the record is pending, and it answers false
    after [deleteNotificationRecord]. *)
Theorem hasNotificationBeenSent_means_claimed :
  forall (now : Z) (g s t : string) (tb : Table),
    (fst (DbNotifications.hasNotificationBeenSent alone g s t tb) = Ok true
     <-> exists record, In record (rows tb)
                        /\ Sql.sameKey g s t record = true)
    /\ (fst (DbStorage.tryRecordNotificationAtomically alone now g s t tb)
        = Ok true ->
        let claimed :=
          snd (DbStorage.tryRecordNotificationAtomically
                 alone now g s t tb) in
        fst (DbNotifications.hasNotificationBeenSent alone g s t claimed)
        = Ok true
        /\ exists record, firstOfKey g s t claimed = Some record
                          /\ status record = Pending)
    /\ fst (DbNotifications.hasNotificationBeenSent
              alone g s t
              (snd (DbStorage.deleteNotificationRecord alone g s t tb)))
       = Ok false.
Proof.
  intros now g s t tb. split; [|split].
  - rewrite has_alone. simpl. split.
    + intros [= Hsome]. apply existsb_exists. exact Hsome.
    + intros Hsome. f_equal. apply existsb_exists. exact Hsome.
  - intros Htrue claimed.
    destruct (claimed_is_pending alone now g s t tb
                                 (fun _ _ => eq_refl) Htrue)
      as (record & Hfirst & Hpending & _).
    fold claimed in Hfirst. split; [|eauto].
    rewrite has_alone. simpl. f_equal.
    apply firstOfKey_some. eauto.
  - rewrite has_alone. cbn [fst]. rewrite no_key_after_delete. reflexivity.
Qed.

(** X7 on an empty ledger: alice's claim makes the lookup answer true
    while nothing has been sent. *)
Lemma hasNotificationBeenSent_on_sample :
  fst (DbNotifications.hasNotificationBeenSent
         alone "game-1" "sub-1" "24hour"
         (snd (DbStorage.tryRecordNotificationAtomically
                 alone 0 "game-1" "sub-1" "24hour" Sample.emptyTable)))
  = Ok true.
Proof.
  destruct (hasNotificationBeenSent_means_claimed
              0 "game-1" "sub-1" "24hour" Sample.emptyTable)
    as (_ & Hclaimed & _).
  apply Hclaimed. reflexivity.
Defined.

(** X8.  [recordSentNotification] answers [null] exactly when the key
    already has a record, and then changes nothing; otherwise it inserts
    a record with the status given, ['pending'] by default, which
    [hasNotificationBeenSent] then finds, and a second call with the same
    key answers [null]. *)
Theorem recordSentNotification_inserts_once :
  forall (now : Z) (notification : InsertSentNotification) (tb : Table),
    let g := new_gameId notification in
    let s := new_subscriptionId notification in
    let t := new_notificationType notification in
    let outcome :=
      DbNotifications.recordSentNotification alone now notification tb in
    (fst (DbNotifications.hasNotificationBeenSent alone g s t tb) = Ok true
     -> outcome = (Ok None, tb))
    /\ (fst (DbNotifications.hasNotificationBeenSent alone g s t tb)
        = Ok false ->
        exists row,
          fst outcome = Ok (Some row)
          /\ rows (snd outcome) = (rows tb ++ [row])%list
          /\ keyOf row = (g, s, t)
          /\ status row = match new_status notification with
                          | Some st => st
                          | None => Pending
                          end
          /\ fst (DbNotifications.hasNotificationBeenSent
                    alone g s t (snd outcome)) = Ok true
          /\ forall later again,
              new_gameId again = g ->
              new_subscriptionId again = s ->
              new_notificationType again = t ->
              DbNotifications.recordSentNotification
                alone later again (snd outcome)
              = (Ok None, snd outcome)).
Proof.
  intros now notification tb g s t outcome.
  unfold outcome, DbNotifications.recordSentNotification,
    DbNotifications.insertReturning.
  cbn [alone rejects concurrent]. rewrite has_alone. cbn [fst].
  fold g s t.
  destruct (existsb (Sql.sameKey g s t) (rows tb)) eqn:Hkey.
  - split; [reflexivity|discriminate].
  - split; [discriminate|]. intros _.
    eexists. split; [reflexivity|]. cbn [snd rows].
    split; [reflexivity|]. split; [reflexivity|]. split; [reflexivity|].
    assert (Hnow : existsb (Sql.sameKey g s t)
                           (rows tb ++
                            [{| sn_id := nextId tb; gameId := g;
                                subscriptionId := s; notificationType := t;
                                status := match new_status notification with
                                          | Some st => st
                                          | None => Pending
                                          end;
                                createdAt := now; sentAt := None |}])
                   = true).
    { rewrite existsb_app. simpl. unfold Sql.sameKey at 2. simpl.
      rewrite !String.eqb_refl. apply orb_true_r. }
    split.
    + rewrite has_alone. cbn [fst rows]. rewrite Hnow. reflexivity.
    + intros later again -> -> ->. cbn [rows]. fold g s t.
      rewrite Hnow. reflexivity.
Qed.

(** X8 on an empty ledger. *)
Lemma recordSentNotification_on_sample :
  exists row,
    fst (DbNotifications.recordSentNotification
           alone 0 Inbox.aliceSent Sample.emptyTable) = Ok (Some row)
    /\ status row = Sent.
Proof.
  destruct (recordSentNotification_inserts_once
              0 Inbox.aliceSent Sample.emptyTable) as [_ Hfree].
  destruct (Hfree eq_refl) as (row & Hrow & _ & _ & Hstatus & _).
  exists row. split; [exact Hrow|exact Hstatus].
Defined.

(* ------------------------------------------------------------------ *)
(** ** Pushing to several tokens *)

Lemma sendPushNotification_accepted
      (messaging : string -> string -> string -> MessagingOutcome)
      (token title body : string) :
  FirebaseAdmin.sendPushNotification messaging token title body
  = isAccepted (messaging token title body).
Proof.
  unfold FirebaseAdmin.sendPushNotification.
  destruct (messaging token title body) as [|code]; [reflexivity|].
  simpl. destruct (_ || _); reflexivity.
Qed.

(** X9.  [sendPushToMultiple] accounts for every token once: the failed
    tokens are the tokens whose message was rejected, in the order given
    and with their repetitions, the success count is the number of the
    others, and the two add up to the number of tokens. *)
Theorem sendPushToMultiple_accounts_for_every_token :
  forall (messaging : string -> string -> string -> MessagingOutcome)
         (tokens : list string) (title body : string),
    let sent token := isAccepted (messaging token title body) in
    let outcome :=
      FirebaseMulti.sendPushToMultiple messaging tokens title body in
    snd outcome = filter (fun token => negb (sent token)) tokens
    /\ fst outcome = count sent tokens
    /\ (fst outcome + List.length (snd outcome))%nat = List.length tokens.
Proof.
  intros messaging tokens title body sent outcome.
  assert (Hloop :
            forall l n failed,
              fold_left
                (fun (acc : nat * list string) (token : string) =>
                   let (successCount, failedTokens) := acc in
                   if FirebaseAdmin.sendPushNotification
                        messaging token title body
                   then (S successCount, failedTokens)
                   else (successCount, (failedTokens ++ [token])%list))
                l (n, failed)
              = ((n + count sent l)%nat,
                 (failed ++ filter (fun token => negb (sent token)) l)%list)).
  { induction l as [|token l IH]; intros n failed; simpl.
    - unfold count. simpl. rewrite app_nil_r, Nat.add_0_r. reflexivity.
    - rewrite sendPushNotification_accepted. fold (sent token).
      unfold count. simpl.
      destruct (sent token); simpl; rewrite IH; unfold count.
      + f_equal. lia.
      + rewrite <- app_assoc. reflexivity. }
  unfold outcome, FirebaseMulti.sendPushToMultiple.
  rewrite Hloop. simpl. split; [reflexivity|]. split; [reflexivity|].
  unfold count. clear Hloop outcome.
  induction tokens as [|token tokens IH]; simpl; [reflexivity|].
  destruct (sent token); simpl; lia.
Qed.

(* ------------------------------------------------------------------ *)
(** ** From the spreadsheet to the reminder *)

(** Every minute of the day, written as text by the import, is read back
    as the same minute. *)
Lemma every_minute_reads_back :
  forallb (fun n => match ExcelImport.minuteRead
                            (ExcelImport.excelTimeText (Z.of_nat n)) with
                    | Some m => m =? Z.of_nat n
                    | None => false
                    end)
          (seq 0 1440) = true.
Proof. vm_compute. reflexivity. Qed.

Lemma minute_reads_back (totalMinutes : Z) :
  0 <= totalMinutes < 1440 ->
  ExcelImport.minuteRead (ExcelImport.excelTimeText totalMinutes)
  = Some totalMinutes.
Proof.
  intros Hday.
  pose proof every_minute_reads_back as Hall.
  rewrite forallb_forall in Hall.
  specialize (Hall (Z.to_nat totalMinutes)).
  rewrite Z2Nat.id in Hall by lia.
  assert (Hin : In (Z.to_nat totalMinutes) (seq 0 1440))
    by (apply in_seq; lia).
  specialize (Hall Hin).
  destruct (ExcelImport.minuteRead (ExcelImport.excelTimeText totalMinutes))
    as [m|]; [|discriminate].
  apply Z.eqb_eq in Hall. congruence.
Qed.

(** X10.  A time of day that the import turned into text is the time of
    day at which the pass places the game: for every minute of the day,
    the start of a game whose time is that text is the local midnight of
    its date plus that many minutes. *)
Theorem imported_time_is_read_back :
  forall (tz : Z) (game : Game) (totalMinutes : Z),
    0 <= totalMinutes < 1440 ->
    time game = ExcelImport.excelTimeText totalMinutes ->
    gameDateTime tz game
    = startOfDay tz (date game) + totalMinutes * msPerMinute.
Proof.
  intros tz game totalMinutes Hday Htime.
  pose proof (minute_reads_back totalMinutes Hday) as Hread.
  unfold ExcelImport.minuteRead in Hread. rewrite <- Htime in Hread.
  unfold gameDateTime.
  destruct (TimeText.timeMatch (time game)) as [[[hours minutes] isPM]|];
    [|discriminate].
  cbv zeta in *. injection Hread as Hread.
  rewrite startOfDay_eq.
  unfold setHours, UTC, msPerHour, msPerMinute. lia.
Qed.

(** X10 at a quarter past seven in the evening. *)
Lemma imported_time_on_sample :
  gameDateTime 0 {| game_id := "game-2"; sport := "Volleyball";
                    opponent := "Rutland"; date := 10 * msPerDay;
                    time := "7:15 PM"; location := "Gym";
                    isHome := "home" |}
  = startOfDay 0 (10 * msPerDay) + 1155 * msPerMinute.
Proof.
  apply (imported_time_is_read_back
           0 {| game_id := "game-2"; sport := "Volleyball";
                opponent := "Rutland"; date := 10 * msPerDay;
                time := "7:15 PM"; location := "Gym"; isHome := "home" |}
           1155).
  - lia.
  - reflexivity.
Defined.

(** X17.  The day on which the pass places an imported game depends on
    the zone of the server.  A game imported from an Excel serial date and
    an Excel time of day starts, on the wall clock of the server, at that
    time of the serial date when the server is on UTC or east of it, and
    at that time of the day before when the server is west of UTC. *)
Theorem imported_day_follows_the_server_zone :
  forall (tz : Z) (game : Game) (serial totalMinutes : Z),
    0 <= totalMinutes < 1440 ->
    date game = ExcelImport.excelDate serial ->
    time game = ExcelImport.excelTimeText totalMinutes ->
    let wallClock := LocalTime tz (gameDateTime tz game) in
    (0 <= tz < msPerDay ->
     wallClock
     = (serial - 25569) * msPerDay + totalMinutes * msPerMinute)
    /\ (- msPerDay <= tz < 0 ->
        wallClock
        = (serial - 25570) * msPerDay + totalMinutes * msPerMinute).
Proof.
  intros tz game serial totalMinutes Hday Hdate Htime wallClock.
  pose proof (minute_reads_back totalMinutes Hday) as Hread.
  unfold ExcelImport.minuteRead in Hread. rewrite <- Htime in Hread.
  unfold wallClock, gameDateTime.
  destruct (TimeText.timeMatch (time game)) as [[[hours minutes] isPM]|];
    [|discriminate].
  cbv zeta in *. injection Hread as Hread. rewrite Hdate.
  unfold setHours, UTC, LocalTime, Day, ExcelImport.excelDate,
    msPerDay, msPerHour, msPerMinute.
  split; intros Hzone; Z.to_euclidean_division_equations; lia.
Qed.

(** X17 on a server five hours west of UTC: the game of day 10 at 7:15 PM
    is placed on day 9. *)
Lemma imported_day_on_sample :
  LocalTime (- 5 * msPerHour)
            (gameDateTime
               (- 5 * msPerHour)
               {| game_id := "game-2"; sport := "Volleyball";
                  opponent := "Rutland"; date := 10 * msPerDay;
                  time := "7:15 PM"; location := "Gym";
                  isHome := "home" |})
  = 9 * msPerDay + 1155 * msPerMinute.
Proof.
  destruct (imported_day_follows_the_server_zone
              (- 5 * msPerHour)
              {| game_id := "game-2"; sport := "Volleyball";
                 opponent := "Rutland"; date := 10 * msPerDay;
                 time := "7:15 PM"; location := "Gym"; isHome := "home" |}
              25579 1155) as [_ Hwest].
  - lia.
  - reflexivity.
  - reflexivity.
  - apply Hwest. unfold msPerDay, msPerHour. lia.
Defined.

(* ------------------------------------------------------------------ *)
(** ** The link to the spreadsheet *)

Section DriveLinks.
Import DriveLink.

Lemma ascii_of_append (a b : string) :
  list_ascii_of_string (a ++ b)
  = (list_ascii_of_string a ++ list_ascii_of_string b)%list.
Proof.
  induction a as [|c a IH]; simpl; [reflexivity|]. rewrite IH. reflexivity.
Qed.

Lemma span_run (p : ascii -> bool) (run rest : list ascii) :
  Forall (fun c => p c = true) run ->
  match rest with
  | [] => True
  | c :: _ => p c = false
  end ->
  TimeText.span p (run ++ rest) = (run, rest).
Proof.
  intros Hrun Hstop. induction Hrun as [|c run Hc _ IH]; simpl.
  - destruct rest as [|c rest]; [reflexivity|]. simpl. rewrite Hstop.
    reflexivity.
  - rewrite Hc, IH. reflexivity.
Qed.

Lemma span_taken (p : ascii -> bool) (s : list ascii) :
  Forall (fun c => p c = true) (fst (TimeText.span p s)).
Proof.
  induction s as [|c s IH]; simpl; [constructor|].
  destruct (p c) eqn:Hc; [|constructor].
  destruct (TimeText.span p s) as [taken left]. simpl in *.
  constructor; assumption.
Qed.

Lemma matchHere_some (s fileId : list ascii) :
  matchHere s = Some fileId ->
  fileId <> [] /\ Forall (fun c => isIdChar c = true) fileId.
Proof.
  destruct s as [|c1 [|c2 [|c3 rest]]]; simpl; try discriminate.
  destruct (_ && _ && _); [|discriminate].
  pose proof (span_taken isIdChar rest) as Hrun.
  destruct (fst (TimeText.span isIdChar rest)) as [|c run];
    [discriminate|].
  intros [= <-]. split; [discriminate|exact Hrun].
Qed.

Lemma search_some (s fileId : list ascii) :
  search s = Some fileId ->
  fileId <> [] /\ Forall (fun c => isIdChar c = true) fileId.
Proof.
  induction s as [|c s IH].
  - discriminate.
  - change (search (c :: s))
      with (match matchHere (c :: s) with
            | Some found => Some found
            | None => search s
            end).
    destruct (matchHere (c :: s)) as [found|] eqn:Hhere.
    + intros [= <-]. eapply matchHere_some; eassumption.
    + exact IH.
Qed.

(** The group found at [/d/] followed by a run of id characters that a
    character of another kind, or the end, closes. *)
Lemma matchHere_run (fileId rest : list ascii) :
  fileId <> [] ->
  Forall (fun c => isIdChar c = true) fileId ->
  match rest with
  | [] => True
  | c :: _ => isIdChar c = false
  end ->
  matchHere ("/" :: "d" :: "/" :: fileId ++ rest)%char%list = Some fileId.
Proof.
  intros Hsome Hrun Hstop. unfold matchHere.
  change ((code "/" =? 47)%nat && (code "d" =? 100)%nat
          && (code "/" =? 47)%nat) with true.
  cbv iota. rewrite (span_run isIdChar fileId rest Hrun Hstop). simpl.
  destruct fileId; [contradiction|reflexivity].
Qed.

Lemma search_export (fileId : list ascii) :
  fileId <> [] ->
  Forall (fun c => isIdChar c = true) fileId ->
  search (list_ascii_of_string
            (exportUrl (string_of_list_ascii fileId)))
  = Some fileId.
Proof.
  intros Hsome Hrun. unfold exportUrl.
  rewrite !ascii_of_append, list_ascii_of_string_of_list_ascii.
  pose proof (matchHere_run
                fileId (list_ascii_of_string "/export?format=xlsx")
                Hsome Hrun eq_refl) as Hhere.
  cbn -[matchHere app] in *. cbn [app].
  repeat (cbn [search];
          match goal with
          | |- context [matchHere (?c :: ?c' :: ?c'' :: ?l)] =>
              first [ rewrite Hhere; reflexivity
                    | change (matchHere (c :: c' :: c'' :: l))
                        with (@None (list ascii)); cbv iota ]
          end).
Qed.

Lemma search_sharing (fileId : list ascii) :
  fileId <> [] ->
  Forall (fun c => isIdChar c = true) fileId ->
  search (list_ascii_of_string
            ("https://drive.google.com/file/d/"
             ++ string_of_list_ascii fileId ++ "/view?usp=sharing"))
  = Some fileId.
Proof.
  intros Hsome Hrun.
  rewrite !ascii_of_append, list_ascii_of_string_of_list_ascii.
  pose proof (matchHere_run
                fileId (list_ascii_of_string "/view?usp=sharing")
                Hsome Hrun eq_refl) as Hhere.
  cbn -[matchHere app] in *. cbn [app].
  repeat (cbn [search];
          match goal with
          | |- context [matchHere (?c :: ?c' :: ?c'' :: ?l)] =>
              first [ rewrite Hhere; reflexivity
                    | change (matchHere (c :: c' :: c'' :: l))
                        with (@None (list ascii)); cbv iota ]
          end).
Qed.

End DriveLinks.

(** X11.  [convertToExportUrl] gives a link that it converts to itself:
    converting twice is converting once.  A sharing link
    [https://drive.google.com/file/d/ID/view?usp=sharing], for any
    non-empty ID made of letters, digits, [_] and [-], becomes the export
    link of ID. *)
Theorem convertToExportUrl_is_idempotent :
  (forall (url converted : string),
      DriveLink.convertToExportUrl url = Ok converted ->
      DriveLink.convertToExportUrl converted = Ok converted)
  /\ (forall (fileId : list ascii),
         fileId <> [] ->
         Forall (fun c => DriveLink.isIdChar c = true) fileId ->
         DriveLink.convertToExportUrl
           ("https://drive.google.com/file/d/"
            ++ string_of_list_ascii fileId ++ "/view?usp=sharing")
         = Ok (DriveLink.exportUrl (string_of_list_ascii fileId))).
Proof.
  split.
  - intros url converted. unfold DriveLink.convertToExportUrl.
    destruct (DriveLink.search (list_ascii_of_string url))
      as [fileId|] eqn:Hsearch.
    + intros [= <-].
      destruct (search_some _ _ Hsearch) as [Hsome Hrun].
      rewrite (search_export fileId Hsome Hrun). reflexivity.
    + destruct (DriveLink.includesText _ (list_ascii_of_string url))
        eqn:Hincludes; [|discriminate].
      intros [= <-]. rewrite Hsearch, Hincludes. reflexivity.
  - intros fileId Hsome Hrun. unfold DriveLink.convertToExportUrl.
    rewrite (search_sharing fileId Hsome Hrun). reflexivity.
Qed.

(** X11 on a sharing link. *)
Lemma convertToExportUrl_on_sample :
  DriveLink.convertToExportUrl
    "https://drive.google.com/file/d/1AbC_d-9/view?usp=sharing"
  = Ok "https://docs.google.com/spreadsheets/d/1AbC_d-9/export?format=xlsx".
Proof.
  apply (proj2 convertToExportUrl_is_idempotent
               (list_ascii_of_string "1AbC_d-9")).
  - discriminate.
  - repeat constructor.
Defined.

(* ------------------------------------------------------------------ *)
(** ** The games table *)

Section Games.
Import DbGames.

Variable randomUuid randomUuid' : list Game -> string.

Lemma sameGame_withPlace (a b : InsertGame) (g : Game) :
  sameGame a (withPlace b g) = sameGame a g.
Proof. reflexivity. Qed.

Lemma sameGame_inserted (a : InsertGame) (tb : list Game) :
  sameGame a (inserted randomUuid a tb) = true.
Proof.
  unfold sameGame, inserted. simpl.
  rewrite !String.eqb_refl, Z.eqb_refl. reflexivity.
Qed.

Lemma scheduled_filter (tb : list Game) (a : InsertGame) :
  scheduled tb a <-> filter (sameGame a) tb <> [].
Proof.
  unfold scheduled. induction tb as [|g tb IH]; simpl.
  - split; [discriminate|intros H; contradiction H; reflexivity].
  - destruct (sameGame a g); simpl; [|exact IH].
    split; [discriminate|reflexivity].
Qed.

(** One turn of the loop counts the game once, adds a row exactly when it
    counts it as added, and removes no game from the table. *)
Lemma upsertGame_step (acc : Upserted) (a : InsertGame) :
  let acc' := upsertGame randomUuid acc a in
  (added acc' + updated acc' = S (added acc + updated acc))%nat
  /\ (List.length (table acc') + added acc
      = List.length (table acc) + added acc')%nat
  /\ scheduled (table acc') a
  /\ (forall b, scheduled (table acc) b -> scheduled (table acc') b)
  /\ (scheduled (table acc) a -> added acc' = added acc).
Proof.
  unfold upsertGame. cbv zeta.
  destruct (filter (sameGame a) (table acc)) as [|first found] eqn:Hfound;
    cbn [table added updated].
  - split; [lia|]. split; [|split; [|split]].
    + rewrite length_app. simpl. lia.
    + unfold scheduled. rewrite existsb_app. simpl.
      rewrite sameGame_inserted. apply orb_true_r.
    + intros b Hb. unfold scheduled in *. rewrite existsb_app, Hb.
      reflexivity.
    + intros Ha. apply scheduled_filter in Ha. contradiction.
  - assert (Hkept : forall b,
               scheduled (table acc) b ->
               scheduled
                 (map (fun g => if (game_id g =? game_id first)%string
                                then withPlace a g else g) (table acc)) b).
    { intros b. unfold scheduled. rewrite !existsb_exists.
      intros (g & Hin & Hsame).
      exists (if (game_id g =? game_id first)%string
              then withPlace a g else g).
      split.
      - apply (in_map (fun g => if (game_id g =? game_id first)%string
                                then withPlace a g else g)). exact Hin.
      - destruct (game_id g =? game_id first)%string; assumption. }
    split; [lia|]. split; [|split; [|split]].
    + rewrite length_map. lia.
    + apply Hkept, scheduled_filter. rewrite Hfound. discriminate.
    + exact Hkept.
    + reflexivity.
Qed.

Lemma upsert_fold (batch : list InsertGame) (acc : Upserted) :
  let acc' := fold_left (upsertGame randomUuid) batch acc in
  (added acc' + updated acc'
   = added acc + updated acc + List.length batch)%nat
  /\ (List.length (table acc') + added acc
      = List.length (table acc) + added acc')%nat
  /\ (forall b, scheduled (table acc) b \/ In b batch ->
                scheduled (table acc') b)
  /\ ((forall b, In b batch -> scheduled (table acc) b) ->
      added acc' = added acc).
Proof.
  revert acc. induction batch as [|a batch IH]; intros acc; simpl.
  - split; [lia|]. split; [lia|]. split; [|reflexivity].
    intros b [Hb|[]]. exact Hb.
  - destruct (upsertGame_step acc a) as (Hcount & Hrows & Ha & Hkept & Hold).
    destruct (IH (upsertGame randomUuid acc a))
      as (Hcount' & Hrows' & Hkept' & Hold').
    split; [lia|]. split; [lia|]. split.
    + intros b [Hb|[<-|Hb]]; apply Hkept'; auto.
    + intros Hall. rewrite Hold'.
      * apply Hold, Hall. left. reflexivity.
      * intros b Hb. apply Hkept, Hall. right. exact Hb.
Qed.

End Games.

(** X12.  [upsertGamesBatch] counts every game of the batch once, as added
    or as updated; the table grows by the number added and loses no game:
    every game that was in it, and every game of the batch, is in it
    afterwards.  Importing the same batch again, whatever ids the database
    gives, adds nothing and counts every game as updated. *)
Theorem upsertGamesBatch_accounts_for_the_batch
    (randomUuid randomUuid' : list Game -> string)
    (batch : list InsertGame) (tb : list Game) :
  let first := DbGames.upsertGamesBatch randomUuid batch tb in
  let second :=
    DbGames.upsertGamesBatch randomUuid' batch (DbGames.table first) in
  (DbGames.added first + DbGames.updated first = List.length batch)%nat
  /\ (List.length (DbGames.table first)
      = List.length tb + DbGames.added first)%nat
  /\ (forall insertGame,
         DbGames.scheduled tb insertGame \/ In insertGame batch ->
         DbGames.scheduled (DbGames.table first) insertGame)
  /\ DbGames.added second = 0%nat
  /\ DbGames.updated second = List.length batch
  /\ List.length (DbGames.table second)
     = List.length (DbGames.table first).
Proof.
  intros first second. unfold first, second, DbGames.upsertGamesBatch.
  destruct (upsert_fold
              randomUuid batch
              {| DbGames.table := tb; DbGames.added := 0;
                 DbGames.updated := 0 |})
    as (Hcount & Hrows & Hkept & _).
  set (once := fold_left (DbGames.upsertGame randomUuid) batch _) in *.
  destruct (upsert_fold
              randomUuid' batch
              {| DbGames.table := DbGames.table once; DbGames.added := 0;
                 DbGames.updated := 0 |})
    as (Hcount' & Hrows' & _ & Hold).
  set (twice := fold_left (DbGames.upsertGame randomUuid') batch _) in *.
  cbn [DbGames.table DbGames.added DbGames.updated] in *.
  assert (Hnone : DbGames.added twice = 0%nat).
  { apply Hold. intros b Hb. apply Hkept. right. exact Hb. }
  split; [lia|]. split; [lia|]. split; [exact Hkept|].
  split; [exact Hnone|]. split; lia.
Qed.

(** X12 on the sample game, already in the table, imported twice in one
    batch: nothing is added and the game counts twice as updated. *)
Lemma upsertGamesBatch_on_sample :
  let first :=
    DbGames.upsertGamesBatch
      Fixture.uuid [Fixture.footballMoved; Fixture.footballMoved]
      [Sample.football] in
  DbGames.added first = 0%nat
  /\ DbGames.updated first = 2%nat
  /\ DbGames.scheduled (DbGames.table first) Fixture.footballMoved.
Proof.
  cbv zeta.
  destruct (upsertGamesBatch_accounts_for_the_batch
              Fixture.uuid Fixture.uuid
              [Fixture.footballMoved; Fixture.footballMoved]
              [Sample.football])
    as (_ & _ & Hkept & _).
  split; [reflexivity|]. split; [reflexivity|].
  apply Hkept. right. left. reflexivity.
Defined.

(* ------------------------------------------------------------------ *)
(** ** The photo gallery *)

Section Photos.
Import PhotoSync.

Lemma lookup_none (driveId : string) (tb : list Photo) :
  getPhotoByGoogleDriveId driveId tb = None
  <-> ~ In driveId (driveIds tb).
Proof.
  unfold getPhotoByGoogleDriveId, driveIds, hasDriveId.
  induction tb as [|p tb IH]; simpl.
  - tauto.
  - destruct (googleDriveId p =? driveId)%string eqn:Hp; simpl.
    + apply String.eqb_eq in Hp. split; [discriminate|tauto].
    + apply String.eqb_neq in Hp. tauto.
Qed.

Lemma upsertPhoto_ids (randomUuid : list Photo -> string) (now : Z)
                      (photo : InsertPhoto) (tb : list Photo) :
  driveIds (upsertPhoto randomUuid now photo tb)
  = match getPhotoByGoogleDriveId (new_googleDriveId photo) tb with
    | Some _ => driveIds tb
    | None => (driveIds tb ++ [new_googleDriveId photo])%list
    end.
Proof.
  unfold upsertPhoto, getPhotoByGoogleDriveId, driveIds.
  destruct (filter (hasDriveId (new_googleDriveId photo)) tb); simpl.
  - rewrite map_app. reflexivity.
  - rewrite map_map. apply map_ext. intros q.
    destruct (hasDriveId (new_googleDriveId photo) q); reflexivity.
Qed.

Lemma kept_spec (idsToKeep : list string) (p : Photo) :
  kept idsToKeep p = true <-> In (googleDriveId p) idsToKeep.
Proof.
  unfold kept. rewrite existsb_exists. split.
  - intros (driveId & Hin & Heq). apply String.eqb_eq in Heq.
    rewrite Heq. exact Hin.
  - intros Hin. exists (googleDriveId p). split; [exact Hin|].
    apply String.eqb_refl.
Qed.

Lemma filter_split {A : Type} (f : A -> bool) (l : list A) :
  (List.length (filter (fun x => negb (f x)) l)
   + List.length (filter f l) = List.length l)%nat.
Proof.
  induction l as [|x l IH]; simpl; [reflexivity|].
  destruct (f x); simpl; lia.
Qed.

Lemma filter_all {A : Type} (f : A -> bool) (l : list A) :
  (forall x, In x l -> f x = true) ->
  filter f l = l /\ filter (fun x => negb (f x)) l = [].
Proof.
  induction l as [|x l IH]; simpl; intros Hall; [split; reflexivity|].
  rewrite (Hall x (or_introl eq_refl)). simpl.
  destruct IH as [Hkeep Hdrop]; [intros y Hy; apply Hall; right; exact Hy|].
  rewrite Hkeep, Hdrop. split; reflexivity.
Qed.

Lemma NoDup_ids_filter (f : Photo -> bool) (tb : list Photo) :
  NoDup (driveIds tb) -> NoDup (driveIds (filter f tb)).
Proof.
  unfold driveIds. induction tb as [|p tb IH]; simpl; intros Hnd.
  - constructor.
  - inversion Hnd as [|x l Hnew Hrest]; subst.
    destruct (f p); simpl; [|apply IH; exact Hrest].
    constructor; [|apply IH; exact Hrest].
    intros Hin. apply Hnew. apply in_map_iff in Hin.
    destruct Hin as (q & Hq & Hin). apply filter_In in Hin.
    apply in_map_iff. exists q. tauto.
Qed.

(** What the deletion leaves: the rows with an id to keep, all of them. *)
Lemma delete_spec (idsToKeep : list string) (tb : list Photo) :
  let removed := fst (deletePhotosByGoogleDriveIds idsToKeep tb) in
  let left := snd (deletePhotosByGoogleDriveIds idsToKeep tb) in
  (removed + List.length left = List.length tb)%nat
  /\ incl (driveIds left) idsToKeep
  /\ (forall driveId, In driveId idsToKeep -> In driveId (driveIds tb) ->
                      In driveId (driveIds left))
  /\ (NoDup (driveIds tb) -> NoDup (driveIds left))
  /\ (incl (driveIds tb) idsToKeep -> removed = 0%nat /\ left = tb).
Proof.
  unfold deletePhotosByGoogleDriveIds.
  destruct idsToKeep as [|driveId0 ids]; cbn [fst snd].
  - split; [simpl; lia|]. split; [intros x []|]. split; [intros x []|].
    split; [intros _; constructor|].
    intros Hincl. destruct tb as [|p tb]; [split; reflexivity|].
    destruct (Hincl (googleDriveId p)). left. reflexivity.
  - set (idsToKeep := driveId0 :: ids).
    split; [apply filter_split|]. split; [|split; [|split]].
    + intros x Hx. unfold driveIds in Hx. apply in_map_iff in Hx.
      destruct Hx as (p & <- & Hp). apply filter_In in Hp.
      apply kept_spec, Hp.
    + intros x Hkeep Hx. unfold driveIds in *. apply in_map_iff in Hx.
      destruct Hx as (p & <- & Hp). apply in_map_iff. exists p.
      split; [reflexivity|]. apply filter_In. split; [exact Hp|].
      apply kept_spec, Hkeep.
    + apply NoDup_ids_filter.
    + intros Hincl.
      destruct (filter_all (kept idsToKeep) tb) as [Hkeep Hdrop].
      * intros p Hp. apply kept_spec, Hincl. unfold driveIds.
        apply in_map. exact Hp.
      * rewrite Hkeep, Hdrop. split; reflexivity.
Qed.

Variable fault : GoogleDriveFile -> Fault.
Variable randomUuid : list Photo -> string.
Variable now : Z.

(** One turn of the loop: the file is listed; the table keeps its ids
    or gets the id of the file as a new one, and only then is the file
    counted as added. *)
Lemma syncFile_step (st : Progress) (driveFile : GoogleDriveFile) :
  let st' := syncFile fault randomUuid now st driveFile in
  drivePhotoIds st' = (drivePhotoIds st ++ [id driveFile])%list
  /\ ((driveIds (table st') = driveIds (table st)
       /\ List.length (table st') = List.length (table st)
       /\ added st' = added st
       /\ (fault driveFile = NoFault ->
           In (id driveFile) (driveIds (table st))))
      \/ (driveIds (table st')
          = (driveIds (table st) ++ [id driveFile])%list
          /\ List.length (table st') = S (List.length (table st))
          /\ added st' = S (added st)
          /\ ~ In (id driveFile) (driveIds (table st))))
  /\ (fault driveFile = NoFault -> failures st' = failures st).
Proof.
  cbv zeta. unfold syncFile.
  assert (Hdone :
    let tb := upsertPhoto randomUuid now (photoData driveFile) (table st) in
    let photosAdded :=
      match getPhotoByGoogleDriveId (id driveFile) (table st) with
      | None => S (added st)
      | Some _ => added st
      end in
    (driveIds tb = driveIds (table st)
     /\ List.length tb = List.length (table st)
     /\ photosAdded = added st
     /\ In (id driveFile) (driveIds (table st)))
    \/ (driveIds tb = (driveIds (table st) ++ [id driveFile])%list
        /\ List.length tb = S (List.length (table st))
        /\ photosAdded = S (added st)
        /\ ~ In (id driveFile) (driveIds (table st)))).
  { cbv zeta.
    pose proof (upsertPhoto_ids randomUuid now (photoData driveFile)
                                (table st)) as Hids.
    change (new_googleDriveId (photoData driveFile))
      with (id driveFile) in Hids.
    pose proof (lookup_none (id driveFile) (table st)) as Hnone.
    destruct (getPhotoByGoogleDriveId (id driveFile) (table st))
      as [existingPhoto|].
    - left. split; [exact Hids|].
      split; [|split; [reflexivity|]].
      + apply (f_equal (@List.length string)) in Hids.
        unfold driveIds in Hids. rewrite !length_map in Hids. exact Hids.
      + destruct (in_dec string_dec (id driveFile)
                         (driveIds (table st))) as [Hin|Hout];
          [exact Hin|].
        apply Hnone in Hout. discriminate.
    - right. split; [exact Hids|].
      split; [|split; [reflexivity|]].
      + apply (f_equal (@List.length string)) in Hids.
        unfold driveIds in Hids.
        rewrite length_app, !length_map in Hids. simpl in Hids. lia.
      + apply Hnone. reflexivity. }
  cbv zeta in Hdone.
  destruct (fault driveFile) eqn:Hfault; cbn [table added drivePhotoIds
                                              failures].
  - split; [reflexivity|]. split; [|reflexivity].
    destruct Hdone as [(H1 & H2 & H3 & H4)|H]; [left|right; exact H].
    split; [exact H1|]. split; [exact H2|]. split; [exact H3|].
    intros _. exact H4.
  - split; [reflexivity|]. split; [|discriminate].
    left. split; [reflexivity|]. split; [reflexivity|].
    split; [reflexivity|discriminate].
  - split; [reflexivity|]. split; [|discriminate].
    left. split; [reflexivity|]. split; [reflexivity|].
    split; [reflexivity|discriminate].
  - split; [reflexivity|]. split; [|discriminate].
    destruct Hdone as [(H1 & H2 & H3 & H4)|H]; [left|right; exact H].
    split; [exact H1|]. split; [exact H2|]. split; [exact H3|].
    discriminate.
Qed.

Lemma sync_fold (drivePhotos : list GoogleDriveFile) (st : Progress) :
  let done := fold_left (syncFile fault randomUuid now) drivePhotos st in
  drivePhotoIds done = (drivePhotoIds st ++ map id drivePhotos)%list
  /\ (List.length (table done) + added st
      = List.length (table st) + added done)%nat
  /\ incl (driveIds (table st)) (driveIds (table done))
  /\ incl (driveIds (table done))
          (driveIds (table st) ++ map id drivePhotos)
  /\ (NoDup (driveIds (table st)) -> NoDup (driveIds (table done)))
  /\ ((forall driveFile, In driveFile drivePhotos ->
                         fault driveFile = NoFault) ->
      failures done = failures st
      /\ incl (map id drivePhotos) (driveIds (table done)))
  /\ (incl (map id drivePhotos) (driveIds (table st)) ->
      added done = added st
      /\ driveIds (table done) = driveIds (table st)).
Proof.
  revert st. induction drivePhotos as [|driveFile drivePhotos IH];
    intros st; cbn [fold_left map].
  - cbv zeta. rewrite !app_nil_r.
    split; [reflexivity|]. split; [reflexivity|].
    split; [apply incl_refl|]. split; [apply incl_refl|].
    split; [tauto|]. split.
    + intros _. split; [reflexivity|intros x []].
    + intros _. split; reflexivity.
  - destruct (syncFile_step st driveFile) as (Hids & Hstep & Hclean).
    destruct (IH (syncFile fault randomUuid now st driveFile))
      as (Hids' & Hcount & Hold & Hnew & Hnodup & Hgood & Hsame).
    set (st1 := syncFile fault randomUuid now st driveFile) in *.
    cbv zeta.
    set (done := fold_left (syncFile fault randomUuid now) drivePhotos st1)
      in *.
    assert (Hgrow : incl (driveIds (table st)) (driveIds (table st1))).
    { destruct Hstep as [(-> & _)|(-> & _)];
        [apply incl_refl|apply incl_appl, incl_refl]. }
    assert (Hbound : incl (driveIds (table st1))
                          (driveIds (table st) ++ [id driveFile])).
    { destruct Hstep as [(-> & _)|(-> & _)];
        [apply incl_appl, incl_refl|apply incl_refl]. }
    split; [|split; [|split; [|split; [|split; [|split]]]]].
    + rewrite Hids', Hids, <- app_assoc. reflexivity.
    + destruct Hstep as [(_ & Hlen & Hadd & _)|(_ & Hlen & Hadd & _)]; lia.
    + eapply incl_tran; eassumption.
    + intros x Hx. apply Hnew in Hx. apply in_app_or in Hx.
      destruct Hx as [Hx|Hx].
      * apply Hbound in Hx. apply in_app_or in Hx.
        destruct Hx as [Hx|[<-|[]]]; apply in_or_app;
          [left; exact Hx|right; left; reflexivity].
      * apply in_or_app. right. right. exact Hx.
    + intros Hnd. apply Hnodup.
      destruct Hstep as [(-> & _)|(-> & _ & _ & Hfresh)]; [exact Hnd|].
      apply NoDup_app; [exact Hnd|repeat constructor; intros []|].
      intros x Hx [<-|[]]. contradiction.
    + intros Hall.
      destruct Hgood as [Hfail Hthere];
        [intros f Hf; apply Hall; right; exact Hf|].
      assert (Hno : fault driveFile = NoFault)
        by (apply Hall; left; reflexivity).
      split; [rewrite Hfail; apply Hclean, Hno|].
      intros x [<-|Hx]; [|apply Hthere, Hx].
      apply Hold.
      destruct Hstep as [(-> & _ & _ & Hin)|(-> & _)];
        [apply Hin, Hno|apply in_or_app; right; left; reflexivity].
    + intros Hall.
      assert (Hin : In (id driveFile) (driveIds (table st)))
        by (apply Hall; left; reflexivity).
      destruct Hstep as [(Hsameids & _ & Hadd & _)|(_ & _ & _ & Hfresh)];
        [|contradiction].
      destruct Hsame as [Hadd' Hids''].
      * rewrite Hsameids. intros x Hx. apply Hall. right. exact Hx.
      * split; congruence.
Qed.

(** A sync without a failing file. *)
Lemma photo_sync_first (c : ascii) (folder : string)
    (drivePhotos : list GoogleDriveFile) (triggeredBy : string)
    (st : Store) :
  (forall driveFile, In driveFile drivePhotos ->
                     fault driveFile = NoFault) ->
  let run :=
    syncPhotosFromGoogleDrive
      fault randomUuid now (Some (String c folder))
      (Listed drivePhotos) triggeredBy st in
  errors (fst run) = []
  /\ incl (map id drivePhotos) (driveIds (photos (snd run)))
  /\ incl (driveIds (photos (snd run))) (map id drivePhotos).
Proof.
  intros Hclean. cbv zeta. unfold syncPhotosFromGoogleDrive.
  destruct (sync_fold
              drivePhotos
              {| table := photos st; added := 0; drivePhotoIds := [];
                 failures := [] |})
    as (Hids & _ & _ & _ & _ & Hgood & _).
  set (done := fold_left (syncFile fault randomUuid now) drivePhotos _)
    in *.
  cbn [table added drivePhotoIds failures app] in Hids, Hgood.
  destruct (Hgood Hclean) as [Hfail Hthere].
  destruct (delete_spec (drivePhotoIds done) (table done))
    as (_ & Hkept & Hstay & _ & _).
  destruct (deletePhotosByGoogleDriveIds (drivePhotoIds done) (table done))
    as [removed left].
  cbn [fst snd errors photos] in *.
  split; [exact Hfail|]. split.
  - intros x Hx. apply Hstay; [rewrite Hids; exact Hx|apply Hthere, Hx].
  - rewrite <- Hids. exact Hkept.
Qed.

End Photos.

(** X13.  A sync of a listed folder, whatever goes wrong on single files,
    leaves in the table only photos of the folder, keeps the Drive ids of
    the table free of duplicates, reports counts that account for the
    size of the table (rows after + removed = rows before + added), and
    writes one log entry with the counts it reports. *)
Theorem photo_sync_mirrors_the_folder
    (fault : PhotoSync.GoogleDriveFile -> PhotoSync.Fault)
    (randomUuid : list PhotoSync.Photo -> string) (now : Z)
    (c : ascii) (folder : string)
    (drivePhotos : list PhotoSync.GoogleDriveFile) (triggeredBy : string)
    (st : PhotoSync.Store) :
  let run :=
    PhotoSync.syncPhotosFromGoogleDrive
      fault randomUuid now (Some (String c folder))
      (PhotoSync.Listed drivePhotos) triggeredBy st in
  PhotoSync.success (fst run) = true
  /\ incl (PhotoSync.driveIds (PhotoSync.photos (snd run)))
          (map PhotoSync.id drivePhotos)
  /\ (List.length (PhotoSync.photos (snd run))
      + PhotoSync.photosRemoved (fst run)
      = List.length (PhotoSync.photos st)
        + PhotoSync.photosAdded (fst run))%nat
  /\ (NoDup (PhotoSync.driveIds (PhotoSync.photos st)) ->
      NoDup (PhotoSync.driveIds (PhotoSync.photos (snd run))))
  /\ exists entry,
       PhotoSync.logs (snd run) = (PhotoSync.logs st ++ [entry])%list
       /\ PhotoSync.log_photosAdded entry
          = PhotoSync.photosAdded (fst run)
       /\ PhotoSync.log_photosRemoved entry
          = PhotoSync.photosRemoved (fst run).
Proof.
  cbv zeta. unfold PhotoSync.syncPhotosFromGoogleDrive.
  destruct (sync_fold
              fault randomUuid now drivePhotos
              {| PhotoSync.table := PhotoSync.photos st;
                 PhotoSync.added := 0; PhotoSync.drivePhotoIds := [];
                 PhotoSync.failures := [] |})
    as (Hids & Hcount & _ & _ & Hnodup & _ & _).
  set (done := fold_left (PhotoSync.syncFile fault randomUuid now)
                         drivePhotos _) in *.
  cbn [PhotoSync.table PhotoSync.added PhotoSync.drivePhotoIds app]
    in Hids, Hcount, Hnodup.
  destruct (delete_spec (PhotoSync.drivePhotoIds done)
                        (PhotoSync.table done))
    as (Hsize & Hkept & _ & Hnodup' & _).
  destruct (PhotoSync.deletePhotosByGoogleDriveIds
              (PhotoSync.drivePhotoIds done) (PhotoSync.table done))
    as [removed left].
  cbn [fst snd PhotoSync.success PhotoSync.photos PhotoSync.logs
       PhotoSync.photosAdded PhotoSync.photosRemoved] in *.
  split; [reflexivity|]. split; [rewrite <- Hids; exact Hkept|].
  split; [lia|]. split; [intros Hnd; apply Hnodup', Hnodup, Hnd|].
  eexists. split; [reflexivity|]. split; reflexivity.
Qed.

(** X13 on an empty gallery and a folder of two photos whose upserts
    fail: nothing is stored and both failures are reported. *)
Lemma photo_sync_on_sample :
  let run :=
    PhotoSync.syncPhotosFromGoogleDrive
      Gallery.upsertsFail Gallery.uuid 0 (Some "folder")
      (PhotoSync.Listed [Gallery.teamPhoto; Gallery.gamePhoto])
      "cron" Gallery.empty in
  NoDup (PhotoSync.driveIds (PhotoSync.photos (snd run)))
  /\ PhotoSync.photosAdded (fst run) = 0%nat
  /\ List.length (PhotoSync.errors (fst run)) = 2%nat.
Proof.
  cbv zeta.
  destruct (photo_sync_mirrors_the_folder
              Gallery.upsertsFail Gallery.uuid 0 "f" "older"
              [Gallery.teamPhoto; Gallery.gamePhoto] "cron" Gallery.empty)
    as (_ & _ & _ & Hnodup & _).
  split; [apply Hnodup; constructor|]. split; reflexivity.
Defined.

(** X14.  After a sync in which no file fails, every file of the folder
    has its photo and no error is reported; a second sync of the same
    listing, whatever fails in it, adds and removes nothing and leaves
    the Drive ids of the table as they are; if nothing fails in it either,
    its message is ["Photos up to date (n total)"]. *)
Theorem photo_sync_twice_changes_nothing
    (fault fault' : PhotoSync.GoogleDriveFile -> PhotoSync.Fault)
    (randomUuid randomUuid' : list PhotoSync.Photo -> string)
    (now now' : Z) (c : ascii) (folder : string)
    (drivePhotos : list PhotoSync.GoogleDriveFile)
    (triggeredBy triggeredBy' : string) (st : PhotoSync.Store) :
  (forall driveFile, In driveFile drivePhotos ->
                     fault driveFile = PhotoSync.NoFault) ->
  let first :=
    PhotoSync.syncPhotosFromGoogleDrive
      fault randomUuid now (Some (String c folder))
      (PhotoSync.Listed drivePhotos) triggeredBy st in
  let second :=
    PhotoSync.syncPhotosFromGoogleDrive
      fault' randomUuid' now' (Some (String c folder))
      (PhotoSync.Listed drivePhotos) triggeredBy' (snd first) in
  PhotoSync.errors (fst first) = []
  /\ incl (map PhotoSync.id drivePhotos)
          (PhotoSync.driveIds (PhotoSync.photos (snd first)))
  /\ PhotoSync.photosAdded (fst second) = 0%nat
  /\ PhotoSync.photosRemoved (fst second) = 0%nat
  /\ PhotoSync.driveIds (PhotoSync.photos (snd second))
     = PhotoSync.driveIds (PhotoSync.photos (snd first))
  /\ (PhotoSync.errors (fst second) = [] ->
      PhotoSync.message (fst second)
      = "Photos up to date ("
        ++ PhotoSync.numberText (List.length drivePhotos) ++ " total)").
Proof.
  intros Hclean. cbv zeta.
  destruct (photo_sync_first fault randomUuid now c folder drivePhotos
                             triggeredBy st Hclean)
    as (Herrors & Hthere & Honly).
  set (first := PhotoSync.syncPhotosFromGoogleDrive
                  fault randomUuid now (Some (String c folder))
                  (PhotoSync.Listed drivePhotos) triggeredBy st) in *.
  split; [exact Herrors|]. split; [exact Hthere|].
  unfold PhotoSync.syncPhotosFromGoogleDrive.
  destruct (sync_fold
              fault' randomUuid' now' drivePhotos
              {| PhotoSync.table := PhotoSync.photos (snd first);
                 PhotoSync.added := 0; PhotoSync.drivePhotoIds := [];
                 PhotoSync.failures := [] |})
    as (Hids & _ & _ & _ & _ & _ & Hsame).
  set (done := fold_left (PhotoSync.syncFile fault' randomUuid' now')
                         drivePhotos _) in *.
  cbn [PhotoSync.table PhotoSync.added PhotoSync.drivePhotoIds app]
    in Hids, Hsame.
  destruct (Hsame Hthere) as [Hadded Hsameids].
  destruct (delete_spec (PhotoSync.drivePhotoIds done)
                        (PhotoSync.table done))
    as (_ & _ & _ & _ & Hall).
  destruct Hall as [Hnone Hleft]; [rewrite Hids, Hsameids; exact Honly|].
  destruct (PhotoSync.deletePhotosByGoogleDriveIds
              (PhotoSync.drivePhotoIds done) (PhotoSync.table done))
    as [removed left].
  cbn [fst snd PhotoSync.errors PhotoSync.photos PhotoSync.message
       PhotoSync.photosAdded PhotoSync.photosRemoved] in *.
  subst removed left.
  split; [exact Hadded|]. split; [reflexivity|].
  split; [exact Hsameids|].
  intros ->. rewrite Hadded. reflexivity.
Qed.

(** X14 on a folder of two photos and an empty gallery. *)
Lemma photo_sync_twice_on_sample :
  let first :=
    PhotoSync.syncPhotosFromGoogleDrive
      Gallery.noFault Gallery.uuid 0 (Some "folder")
      (PhotoSync.Listed [Gallery.teamPhoto; Gallery.gamePhoto])
      "manual" Gallery.empty in
  let second :=
    PhotoSync.syncPhotosFromGoogleDrive
      Gallery.noFault Gallery.uuid 1 (Some "folder")
      (PhotoSync.Listed [Gallery.teamPhoto; Gallery.gamePhoto])
      "cron" (snd first) in
  PhotoSync.photosAdded (fst first) = 2%nat
  /\ PhotoSync.photosAdded (fst second) = 0%nat
  /\ PhotoSync.photosRemoved (fst second) = 0%nat
  /\ PhotoSync.message (fst second) = "Photos up to date (2 total)".
Proof.
  cbv zeta. split; [reflexivity|].
  destruct (photo_sync_twice_changes_nothing
              Gallery.noFault Gallery.noFault Gallery.uuid Gallery.uuid
              0 1 "f" "older" [Gallery.teamPhoto; Gallery.gamePhoto]
              "manual" "cron" Gallery.empty (fun _ _ => eq_refl))
    as (_ & _ & Hadded & Hremoved & _ & Hmessage).
  split; [exact Hadded|]. split; [exact Hremoved|].
  apply Hmessage. reflexivity.
Defined.

(* ------------------------------------------------------------------ *)
(** ** The hourly check *)

Section Schedule.

Variables tz eastern : Z.

(** A check that reads the quiet hours within a minute before the pass
    reads its clock, on a server 4 to 7 hours ahead of Eastern time: an
    instant of the game-day window is in the quiet hours. *)
Lemma morning_is_quiet (checked now : Z) (game : Game) :
  0 <= now - checked <= msPerMinute ->
  4 * msPerHour <= tz - eastern <= 7 * msPerHour ->
  needsMorningNotification tz now game = true ->
  Cron.isQuietHours eastern checked = true.
Proof.
  intros Hsoon Hzone Hmorning.
  apply needsMorningNotification_spec in Hmorning.
  destruct Hmorning as [_ Hwindow].
  unfold Cron.isQuietHours, Cron.getHours, Cron.QUIET_HOURS_START,
    Cron.QUIET_HOURS_END. cbv zeta.
  rewrite andb_true_iff, Z.leb_le, Z.ltb_lt.
  unfold TimeWithinDay, LocalTime, msPerDay, msPerHour, msPerMinute in *.
  Z.to_euclidean_division_equations. lia.
Qed.

(** Of two instants five hours apart one is outside the quiet hours. *)
Lemma five_hours_later (t : Z) :
  Cron.isQuietHours eastern t = false
  \/ Cron.isQuietHours eastern (t + 5 * msPerHour) = false.
Proof.
  unfold Cron.isQuietHours, Cron.getHours, Cron.QUIET_HOURS_START,
    Cron.QUIET_HOURS_END. cbv zeta.
  rewrite !andb_false_iff, !Z.leb_gt, !Z.ltb_ge.
  unfold TimeWithinDay, LocalTime, msPerDay, msPerHour.
  Z.to_euclidean_division_equations. lia.
Qed.

Lemma firstTick_spec (game : Game) (k : Z) :
  0 <= k <= 5 ->
  Cron.atQuarterPast tz (Cron.firstTick tz game + k * msPerHour)
  /\ needs24HourNotification
       tz (Cron.firstTick tz game + k * msPerHour) game
     = true.
Proof.
  intros Hk. split.
  - unfold Cron.atQuarterPast, Cron.firstTick, TimeWithinDay, LocalTime,
      msPerDay, msPerHour, msPerMinute. cbv zeta.
    Z.to_euclidean_division_equations. lia.
  - apply needs24HourNotification_spec.
    unfold Cron.firstTick, msPerHour, msPerMinute. cbv zeta.
    Z.to_euclidean_division_equations. lia.
Qed.

End Schedule.

(** X15.  On a server whose local time is 4 to 7 hours ahead of Eastern
    time (a server on UTC is 4 or 5 hours ahead), a check that reads the
    quiet hours within a minute before the pass reads its clock is
    skipped whenever a game is in the game-day window: the hourly check
    never counts a game-day reminder.  On a server on Eastern time the
    game-day window is outside the quiet hours. *)
Theorem scheduled_check_skips_the_game_day_window
    (tz eastern checked now : Z) :
  0 <= now - checked <= msPerMinute ->
  (4 * msPerHour <= tz - eastern <= 7 * msPerHour ->
   (forall game, needsMorningNotification tz now game = true ->
                 Cron.isQuietHours eastern checked = true)
   /\ forall emailService messaging (d : Database) run,
        Cron.performNotificationCheck
          (Db.quiet now) emailService messaging tz eastern checked now d
        = Some run ->
        gamesMorningOf (result run) = 0%nat)
  /\ (tz = eastern ->
      forall game, needsMorningNotification tz now game = true ->
                   Cron.isQuietHours eastern checked = false).
Proof.
  intros Hsoon. split.
  - intros Hzone. split.
    + intros game. apply morning_is_quiet; assumption.
    + intros emailService messaging d run.
      unfold Cron.performNotificationCheck.
      destruct (Cron.isQuietHours eastern checked) eqn:Hquiet;
        [discriminate|].
      intros [= <-].
      destruct (List.length (subscriptions d) =? 0)%nat eqn:Hsubs.
      * rewrite pass_without_subscribers by exact Hsubs. reflexivity.
      * destruct (pass_counted tz now emailService messaging d Hsubs)
          as (_ & -> & _).
        unfold count.
        replace (filter (needsMorningNotification tz now) (games d))
          with (@nil Game); [reflexivity|].
        symmetry. induction (games d) as [|game l IH]; [reflexivity|].
        simpl.
        destruct (needsMorningNotification tz now game) eqn:Hgame;
          [|exact IH].
        rewrite (morning_is_quiet tz eastern checked now game
                                  Hsoon Hzone Hgame) in Hquiet.
        discriminate.
  - intros <- game Hmorning.
    apply needsMorningNotification_spec in Hmorning.
    destruct Hmorning as [_ Hwindow].
    unfold Cron.isQuietHours, Cron.getHours, Cron.QUIET_HOURS_START,
      Cron.QUIET_HOURS_END. cbv zeta.
    rewrite andb_false_iff, Z.leb_gt, Z.ltb_ge.
    unfold TimeWithinDay, LocalTime, msPerDay, msPerHour, msPerMinute in *.
    Z.to_euclidean_division_equations. lia.
Qed.

(** X15 on the sample game and a server on UTC in winter: the check at
    8:30 on the day of the game is skipped. *)
Lemma scheduled_check_on_sample :
  Cron.isQuietHours (- 5 * msPerHour) Sample.gameMorning = true.
Proof.
  destruct (scheduled_check_skips_the_game_day_window
              0 (- 5 * msPerHour) Sample.gameMorning Sample.gameMorning)
    as [Hahead _].
  - unfold msPerMinute. lia.
  - destruct Hahead as [Hquiet _].
    + unfold msPerHour. lia.
    + apply (Hquiet Sample.football). reflexivity.
Defined.

(** X16.  Whatever the offsets of the server and of Eastern time, every
    game has an instant of the hourly schedule that is outside the quiet
    hours and at which the game is in the 24-hour window. *)
Theorem every_game_has_a_check_in_its_24_hour_window
    (tz eastern : Z) (game : Game) :
  exists now,
    Cron.atQuarterPast tz now
    /\ Cron.isQuietHours eastern now = false
    /\ needs24HourNotification tz now game = true.
Proof.
  destruct (five_hours_later eastern (Cron.firstTick tz game))
    as [Hloud|Hloud].
  - exists (Cron.firstTick tz game).
    destruct (firstTick_spec tz game 0) as [Htick Hwindow]; [lia|].
    rewrite Z.add_0_r in Htick, Hwindow. auto.
  - exists (Cron.firstTick tz game + 5 * msPerHour).
    destruct (firstTick_spec tz game 5) as [Htick Hwindow]; [lia|]. auto.
Qed.
